(** * IoTService: device registry and telemetry simulator

    A shallow embedding of [src/services/iotService.ts] (class [IoTService])
    and of the declarations of [src/types/index.ts] it uses.

    - A JavaScript [number] is an IEEE 754 binary64 value: Rocq's primitive
      [float], whose operations are the processor's.
    - [Math.random], [crypto.randomUUID] and the clock ([Date.now],
      [new Date()]) are oracles: streams with a cursor, part of the state.
    - [Math.sin], [Math.cos] and [Math.atan2] have no counterpart among the
      primitive floats; they are variables of the section.
    - The three private [Map]s keep insertion order, as a JavaScript [Map]
      does: association lists.
    - An [async] method is a computation over the state that returns a value
      or throws. A call and the firing of a timer are atomic steps: the
      code of this class only waits on promises that are already resolved,
      so no timer fires in between; the one exception, the two second
      pause of the firmware update, comes before the only assignment that
      follows it.
    - The constructor calls [initializeIoT] and does not wait for it: when
      [new IoTService()] returns, the method is suspended at its first
      [await]. The state records how far it has come, and its going on to
      the next [await] is a step of a run like a call or a timer, so the
      caller's first calls can come before the poll timer is started.
    - A device is an object shared by the map, the timers and the event
      payloads; the map entry stands for the object, and a sensor is
      referred to by its position in the array of its device.

    The file has three parts: the embedding, the vocabulary of the
    statements, and the properties with, at the end, the sentences of the
    specification. *)

From Stdlib Require Import Floats ZArith String List Bool Lia PeanoNat.
Import ListNotations.

Set Warnings "-inexact-float".

Local Open Scope string_scope.
Local Open Scope float_scope.

(** ** JavaScript numbers *)

Module JS.

Definition number := float.

(** [Math.max] and [Math.min] of two arguments: [NaN] when an argument is
    [NaN], and [-0] is smaller than [+0]. *)
Definition Math_max (a b : number) : number :=
  if is_nan a || is_nan b then nan
  else if a <? b then b
  else if b <? a then a
  else if get_sign a then b else a.

Definition Math_min (a b : number) : number :=
  if is_nan a || is_nan b then nan
  else if a <? b then a
  else if b <? a then b
  else if get_sign a then a else b.

Definition Math_abs (x : number) : number := abs x.
Definition Math_sqrt (x : number) : number := sqrt x.

(** [Math.pow(x, 2)]: the engines return the correctly rounded square. *)
Definition Math_pow2 (x : number) : number := x * x.

Definition Math_PI : number := 3.141592653589793.

(** The relational operators of the language on numbers. *)
Definition lt (a b : number) : bool := a <? b.
Definition gt (a b : number) : bool := b <? a.
Definition le (a b : number) : bool := a <=? b.
Definition ge (a b : number) : bool := b <=? a.

(** A number is falsy when it is [0], [-0] or [NaN]. *)
Definition truthy (x : number) : bool := negb (is_zero x || is_nan x).

(** An integral number of milliseconds as a number. *)
Definition of_Z (z : Z) : number :=
  match z with
  | Z0 => 0
  | Zpos _ => of_uint63 (Uint63.of_Z z)
  | Zneg _ => - of_uint63 (Uint63.of_Z (Z.opp z))
  end.

(** [s.slice(-n)] on an array: its last [n] elements, all of them when
    there are fewer. *)
Definition slice_last {A : Type} (n : nat) (l : list A) : list A :=
  skipn (length l - n) l.

(** [a.splice(0, n)] for its effect on [a]: the first [n] elements go. *)
Definition splice_front {A : Type} (n : nat) (l : list A) : list A :=
  skipn n l.

(** [Map]: [get], [has], [set] and [values], in insertion order. *)
Definition Map (V : Type) := list (string * V).

Fixpoint get {V : Type} (m : Map V) (k : string) : option V :=
  match m with
  | [] => None
  | (k', v) :: m' => if String.eqb k' k then Some v else get m' k
  end.

Definition has {V : Type} (m : Map V) (k : string) : bool :=
  match get m k with Some _ => true | None => false end.

Fixpoint set {V : Type} (m : Map V) (k : string) (v : V) : Map V :=
  match m with
  | [] => [(k, v)]
  | (k', v') :: m' =>
      if String.eqb k' k then (k', v) :: m' else (k', v') :: set m' k v
  end.

Definition keys {V : Type} (m : Map V) : list string := map fst m.
Definition values {V : Type} (m : Map V) : list V := map snd m.

End JS.

(** ** Types ([src/types/index.ts]) *)

Inductive DeviceType :=
| dev_camera | dev_sensor | dev_beacon | dev_scanner
| dev_display | dev_printer | dev_gateway | dev_vehicle_unit.

Inductive SensorType :=
| temperature | humidity | pressure | motion | proximity
| gps | accelerometer | camera | microphone.

(** [DeviceStatus] is imported by the service but not declared in the types
    file; the service assigns and compares these two values. *)
Inductive DeviceStatus := online | offline.

Inductive Quality := excellent | good | fair | poor.

Inductive Severity := low | medium | high | critical.

Inductive ConnectivityType := wifi | cellular | bluetooth | lora | zigbee.

Definition DeviceType_name (t : DeviceType) : string :=
  match t with
  | dev_camera => "camera" | dev_sensor => "sensor" | dev_beacon => "beacon"
  | dev_scanner => "scanner" | dev_display => "display"
  | dev_printer => "printer" | dev_gateway => "gateway"
  | dev_vehicle_unit => "vehicle-unit"
  end.

Definition DeviceStatus_eqb (a b : DeviceStatus) : bool :=
  match a, b with
  | online, online | offline, offline => true
  | _, _ => false
  end.

Definition SensorType_name (t : SensorType) : string :=
  match t with
  | temperature => "temperature" | humidity => "humidity"
  | pressure => "pressure" | motion => "motion" | proximity => "proximity"
  | gps => "gps" | accelerometer => "accelerometer" | camera => "camera"
  | microphone => "microphone"
  end.

(** A [Date] is its time value, in milliseconds. *)
Definition Date := Z.

Record GeoLocation := {
  lat : JS.number;
  lng : JS.number;
  address : option string
}.

Record ReadingMetadata := {
  meta_deviceId : string;
  meta_sensorType : SensorType;
  meta_location : GeoLocation;
  meta_connectivity : JS.number
}.

(** [metadata] is [{}] in the reading a sensor is registered with. *)
Record SensorReading := {
  reading_id : string;
  value : JS.number;
  timestamp : Date;
  quality : Quality;
  metadata : option ReadingMetadata
}.

Record CalibrationInfo := {
  lastCalibrated : Date;
  nextCalibration : Date;
  offset : JS.number;
  scale : JS.number
}.

Record Sensor := {
  sensor_id : string;
  sensor_type : SensorType;
  sensor_unit : string;
  range : JS.number * JS.number;
  accuracy : JS.number;
  lastReading : SensorReading;
  calibration : CalibrationInfo
}.

Record ConnectivityInfo := {
  conn_type : ConnectivityType;
  strength : JS.number;
  protocol : string;
  lastSeen : Date;
  dataUsage : JS.number
}.

Record FirmwareInfo := {
  version : string;
  lastUpdate : Date;
  updateAvailable : bool;
  autoUpdate : bool
}.

Record Vulnerability := {
  vuln_severity : Severity;
  description : string;
  mitigation : string
}.

Record DeviceSecurity := {
  encrypted : bool;
  certificateExpiry : Date;
  lastSecurityScan : Date;
  vulnerabilities : list Vulnerability
}.

Record IoTDevice := {
  id : string;
  type : DeviceType;
  location : GeoLocation;
  status : DeviceStatus;
  sensors : list Sensor;
  connectivity : ConnectivityInfo;
  firmware : FirmwareInfo;
  security : DeviceSecurity
}.

(** The argument of [registerDevice]. *)
Record SensorConfig := {
  cfg_sensor_type : SensorType;
  cfg_unit : string;
  cfg_range : JS.number * JS.number;
  cfg_accuracy : JS.number
}.

Record ConnectivityConfig := {
  cfg_conn_type : ConnectivityType;
  cfg_strength : JS.number;
  cfg_protocol : string
}.

Record DeviceConfig := {
  cfg_type : DeviceType;
  cfg_location : GeoLocation;
  cfg_sensors : list SensorConfig;
  cfg_connectivity : ConnectivityConfig
}.

(** The argument of [getDevices]; [radius] is in kilometres. *)
Record LocationFilter := {
  flt_lat : JS.number;
  flt_lng : JS.number;
  radius : JS.number
}.

Record DeviceFilters := {
  flt_type : option string;
  flt_status : option DeviceStatus;
  flt_location : option LocationFilter
}.

(** ** Pure helpers of the service *)

(** [assessDataQuality] *)
Definition assessDataQuality (v : JS.number) (sensor : Sensor) : Quality :=
  let withinRange :=
    JS.ge v (fst (range sensor)) && JS.le v (snd (range sensor)) in
  let accuracy := accuracy sensor in
  if withinRange && JS.gt accuracy 0.9 then excellent
  else if withinRange && JS.gt accuracy 0.8 then good
  else if withinRange && JS.gt accuracy 0.6 then fair
  else poor.

(** [checkThresholds]: the table, then the band test. [None] is [null]. *)
Record Threshold := {
  thr_min : JS.number;
  thr_max : JS.number;
  thr_severity : Severity
}.

Definition thresholds (t : SensorType) : option Threshold :=
  match t with
  | temperature => Some {| thr_min := -10; thr_max := 40; thr_severity := medium |}
  | humidity => Some {| thr_min := 20; thr_max := 80; thr_severity := low |}
  | motion => Some {| thr_min := 0; thr_max := 80; thr_severity := high |}
  | microphone => Some {| thr_min := 0; thr_max := 85; thr_severity := medium |}
  | _ => None
  end.

Definition checkThresholds (sensor : Sensor) (reading : SensorReading)
  : option Threshold :=
  match thresholds (sensor_type sensor) with
  | None => None
  | Some threshold =>
      if JS.lt (value reading) (thr_min threshold)
         || JS.gt (value reading) (thr_max threshold)
      then Some threshold
      else None
  end.

(** The numeric part of [detectAnomaly], on the array read from the map. *)
Definition detectAnomaly_on (readings : list SensorReading)
  (reading : SensorReading) : bool :=
  let recentReadings := JS.slice_last 10 readings in
  if (length recentReadings <? 5)%nat then false
  else
    let n := JS.of_Z (Z.of_nat (length recentReadings)) in
    let average :=
      fold_left (fun sum r => sum + value r) recentReadings 0 / n in
    let stdDev :=
      JS.Math_sqrt
        (fold_left (fun sum r => sum + JS.Math_pow2 (value r - average))
                   recentReadings 0 / n) in
    JS.gt (JS.Math_abs (value reading - average)) (2 * stdDev).

(** ** The state of the process *)

(** The functions the service itself stores in [eventHandlers] are the
    closures of [deployEdgeFunction], one per trigger; each captures the
    device id and the function code. A callback that code outside the class
    passes to [addEventListener] can be any function and has no place
    here. *)
Inductive Handler :=
| EdgeHandler (deviceId functionCode : string).

(** The payload of [triggerAlert]. *)
Record AlertData := {
  alert_deviceId : string;
  alert_sensorId : string;
  alert_reading : SensorReading;
  alert_threshold : option Threshold;
  alert_severity : Severity
}.

(** What an event handler receives. The device and the sensor of a sensor
    event are references to the live objects: the key of the device and the
    position of the sensor in its array. *)
Inductive EventData :=
| AlertEvent (data : AlertData)
| SensorEvent (device : string) (sensor : nat) (reading : SensorReading).

Inductive LogEntry :=
| LogText (message : string)
| LogAlert (kind : string) (data : AlertData)
| LogError (message : string).

(** [setInterval] registrations: the polling loop and one health check per
    registered device. None is ever cleared. *)
Inductive Timer :=
| PollTimer
| HealthTimer (deviceId : string).

Record World := {
  random_src : nat -> JS.number;
  random_pos : nat;
  uuid_src : nat -> string;
  uuid_pos : nat;
  clock_src : nat -> Date;
  clock_pos : nat
}.

Record IoTService := {
  devices : JS.Map IoTDevice;
  sensorReadings : JS.Map (list SensorReading);
  eventHandlers : JS.Map (list Handler)
}.

(** How far [initializeIoT] has come. The constructor calls it and does not
    wait for it: the method runs up to its first [await] and goes on, from
    one [await] to the next, when the code that is running has returned. *)
Inductive Initialization :=
| before_startDataCollection
| before_initializeEdgeComputing
| initialized.

Record State := {
  service : IoTService;
  timers : list Timer;
  console : list LogEntry;
  world : World;
  initialization : Initialization
}.

Definition set_devices (f : JS.Map IoTDevice -> JS.Map IoTDevice)
  (s : State) : State :=
  {| service := {| devices := f (devices (service s));
                   sensorReadings := sensorReadings (service s);
                   eventHandlers := eventHandlers (service s) |};
     timers := timers s; console := console s; world := world s;
     initialization := initialization s |}.

Definition set_sensorReadings
  (f : JS.Map (list SensorReading) -> JS.Map (list SensorReading))
  (s : State) : State :=
  {| service := {| devices := devices (service s);
                   sensorReadings := f (sensorReadings (service s));
                   eventHandlers := eventHandlers (service s) |};
     timers := timers s; console := console s; world := world s;
     initialization := initialization s |}.

Definition set_eventHandlers
  (f : JS.Map (list Handler) -> JS.Map (list Handler)) (s : State) : State :=
  {| service := {| devices := devices (service s);
                   sensorReadings := sensorReadings (service s);
                   eventHandlers := f (eventHandlers (service s)) |};
     timers := timers s; console := console s; world := world s;
     initialization := initialization s |}.

Definition add_timer (t : Timer) (s : State) : State :=
  {| service := service s; timers := (timers s ++ [t])%list;
     console := console s; world := world s;
     initialization := initialization s |}.

Definition add_log (e : LogEntry) (s : State) : State :=
  {| service := service s; timers := timers s;
     console := (console s ++ [e])%list; world := world s;
     initialization := initialization s |}.

Definition set_world (f : World -> World) (s : State) : State :=
  {| service := service s; timers := timers s; console := console s;
     world := f (world s); initialization := initialization s |}.

Definition set_initialization (stage : Initialization) (s : State) : State :=
  {| service := service s; timers := timers s; console := console s;
     world := world s; initialization := stage |}.

(** ** Computations: a value or a thrown [Error], and the state after *)

Inductive Completion (A : Type) :=
| Normal (a : A)
| Throw (message : string).

Arguments Normal {A} a.
Arguments Throw {A} message.

Definition Async (A : Type) := State -> Completion A * State.

Definition ret {A : Type} (a : A) : Async A := fun s => (Normal a, s).

Definition bind {A B : Type} (c : Async A) (k : A -> Async B) : Async B :=
  fun s =>
    match c s with
    | (Normal a, s') => k a s'
    | (Throw m, s') => (Throw m, s')
    end.

Definition throw {A : Type} (message : string) : Async A :=
  fun s => (Throw message, s).

Definition try_catch (c : Async unit) (h : string -> Async unit)
  : Async unit :=
  fun s =>
    match c s with
    | (Normal a, s') => (Normal a, s')
    | (Throw m, s') => h m s'
    end.

Definition read {A : Type} (f : State -> A) : Async A :=
  fun s => (Normal (f s), s).

Definition modify (f : State -> State) : Async unit :=
  fun s => (Normal tt, f s).

Declare Scope async_scope.
Delimit Scope async_scope with async.
Notation "x <- c ;; k" := (bind c (fun x => k))
  (at level 61, c at next level, right associativity) : async_scope.
Notation "c ;; k" := (bind c (fun _ => k))
  (at level 61, right associativity) : async_scope.
Local Open Scope async_scope.

Fixpoint forM_ {A : Type} (l : list A) (f : A -> Async unit) : Async unit :=
  match l with
  | [] => ret tt
  | a :: l' => f a ;; forM_ l' f
  end.

Fixpoint mapM {A B : Type} (f : A -> Async B) (l : list A)
  : Async (list B) :=
  match l with
  | [] => ret []
  | a :: l' => b <- f a ;; bs <- mapM f l' ;; ret (b :: bs)
  end.

(** The oracles. *)
Definition Math_random : Async JS.number :=
  fun s =>
    (Normal (random_src (world s) (random_pos (world s))),
     set_world (fun w =>
       {| random_src := random_src w; random_pos := S (random_pos w);
          uuid_src := uuid_src w; uuid_pos := uuid_pos w;
          clock_src := clock_src w; clock_pos := clock_pos w |}) s).

Definition randomUUID : Async string :=
  fun s =>
    (Normal (uuid_src (world s) (uuid_pos (world s))),
     set_world (fun w =>
       {| random_src := random_src w; random_pos := random_pos w;
          uuid_src := uuid_src w; uuid_pos := S (uuid_pos w);
          clock_src := clock_src w; clock_pos := clock_pos w |}) s).

Definition Date_now : Async Date :=
  fun s =>
    (Normal (clock_src (world s) (clock_pos (world s))),
     set_world (fun w =>
       {| random_src := random_src w; random_pos := random_pos w;
          uuid_src := uuid_src w; uuid_pos := uuid_pos w;
          clock_src := clock_src w; clock_pos := S (clock_pos w) |}) s).

Definition console_log (e : LogEntry) : Async unit := modify (add_log e).

(** Assignment to a field of a live object: the device under a key of
    [devices], the sensor at a position of its [sensors] array. *)
Fixpoint update_nth {A : Type} (i : nat) (f : A -> A) (l : list A) : list A :=
  match l, i with
  | [], _ => []
  | a :: l', O => f a :: l'
  | a :: l', S i' => a :: update_nth i' f l'
  end.

Definition mutate_device (deviceId : string) (f : IoTDevice -> IoTDevice)
  : Async unit :=
  modify (set_devices (fun m =>
    match JS.get m deviceId with
    | Some d => JS.set m deviceId (f d)
    | None => m
    end)).

Definition with_lastReading (reading : SensorReading) (x : Sensor) : Sensor :=
  {| sensor_id := sensor_id x; sensor_type := sensor_type x;
     sensor_unit := sensor_unit x; range := range x; accuracy := accuracy x;
     lastReading := reading; calibration := calibration x |}.

Definition with_sensors (f : list Sensor -> list Sensor) (d : IoTDevice)
  : IoTDevice :=
  {| id := id d; type := type d; location := location d; status := status d;
     sensors := f (sensors d); connectivity := connectivity d;
     firmware := firmware d; security := security d |}.

Definition with_status (st : DeviceStatus) (d : IoTDevice) : IoTDevice :=
  {| id := id d; type := type d; location := location d; status := st;
     sensors := sensors d; connectivity := connectivity d;
     firmware := firmware d; security := security d |}.

Definition with_lastSeen (t : Date) (d : IoTDevice) : IoTDevice :=
  {| id := id d; type := type d; location := location d; status := status d;
     sensors := sensors d;
     connectivity :=
       {| conn_type := conn_type (connectivity d);
          strength := strength (connectivity d);
          protocol := protocol (connectivity d);
          lastSeen := t; dataUsage := dataUsage (connectivity d) |};
     firmware := firmware d; security := security d |}.

Definition with_security (sec : DeviceSecurity) (d : IoTDevice) : IoTDevice :=
  {| id := id d; type := type d; location := location d; status := status d;
     sensors := sensors d; connectivity := connectivity d;
     firmware := firmware d; security := sec |}.

Definition with_firmware (fw : FirmwareInfo) (d : IoTDevice) : IoTDevice :=
  {| id := id d; type := type d; location := location d; status := status d;
     sensors := sensors d; connectivity := connectivity d;
     firmware := fw; security := security d |}.

(** ** The service *)

Section Service.

Variables Math_sin Math_cos : JS.number -> JS.number.
Variable Math_atan2 : JS.number -> JS.number -> JS.number.

(** *** Event system *)

(** [addEventListener] *)
Definition addEventListener (eventType : string) (handler : Handler)
  : Async unit :=
  modify (set_eventHandlers (fun m =>
    let m' := if JS.has m eventType then m else JS.set m eventType [] in
    match JS.get m' eventType with
    | Some hs => JS.set m' eventType (hs ++ [handler])%list
    | None => m'
    end)).

(** [processAtEdge]: whether to send to the cloud, and the processed data. *)
Definition processAtEdge (functionCode : string) (event : EventData)
  : Async (bool * (EventData * Date)) :=
  r <- Math_random ;;
  now <- Date_now ;;
  ret (JS.gt r 0.8, (event, now)).

(** [sendToCloud] *)
Definition sendToCloud (deviceId : string) (data : EventData * Date)
  : Async unit :=
  console_log (LogText ("Sending edge-processed data from device "
                        ++ deviceId ++ " to cloud")).

(** [executeEdgeFunction] *)
Definition executeEdgeFunction (deviceId functionCode : string)
  (event : EventData) : Async unit :=
  console_log (LogText ("Executing edge function on device " ++ deviceId)) ;;
  try_catch
    (result <- processAtEdge functionCode event ;;
     if fst result then sendToCloud deviceId (snd result) else ret tt)
    (fun error =>
       console_log (LogError "Edge function execution failed:")).

Definition call_handler (h : Handler) (data : EventData) : Async unit :=
  match h with
  | EdgeHandler deviceId functionCode =>
      executeEdgeFunction deviceId functionCode data
  end.

(** [triggerEventHandlers] *)
Definition triggerEventHandlers (eventType : string) (data : EventData)
  : Async unit :=
  handlers <- read (fun s =>
    match JS.get (eventHandlers (service s)) eventType with
    | Some hs => hs
    | None => []
    end) ;;
  forM_ handlers (fun handler =>
    try_catch (call_handler handler data)
      (fun error =>
         console_log (LogError ("Event handler error for " ++ eventType ++ ":")))).

(** [triggerAlert] *)
Definition triggerAlert (kind : string) (data : AlertData) : Async unit :=
  console_log (LogAlert kind data) ;;
  triggerEventHandlers ("alert:" ++ kind) (AlertEvent data).

(** *** Device management *)

Definition new_sensor (sensorConfig : SensorConfig) : Async Sensor :=
  sid <- randomUUID ;;
  rid <- randomUUID ;;
  stamp <- Date_now ;;
  calibrated <- Date_now ;;
  now <- Date_now ;;
  ret {| sensor_id := sid;
         sensor_type := cfg_sensor_type sensorConfig;
         sensor_unit := cfg_unit sensorConfig;
         range := cfg_range sensorConfig;
         accuracy := cfg_accuracy sensorConfig;
         lastReading :=
           {| reading_id := rid; value := 0; timestamp := stamp;
              quality := good; metadata := None |};
         calibration :=
           {| lastCalibrated := calibrated;
              nextCalibration := (now + 30 * 24 * 60 * 60 * 1000)%Z;
              offset := 0; scale := 1 |} |}.

(** [startDeviceMonitoring] *)
Definition startDeviceMonitoring (device : IoTDevice) : Async unit :=
  modify (add_timer (HealthTimer (id device))).

(** [registerDevice] *)
Definition registerDevice (deviceConfig : DeviceConfig) : Async IoTDevice :=
  did <- randomUUID ;;
  ss <- mapM new_sensor (cfg_sensors deviceConfig) ;;
  seen <- Date_now ;;
  updated <- Date_now ;;
  now <- Date_now ;;
  scanned <- Date_now ;;
  let device :=
    {| id := did;
       type := cfg_type deviceConfig;
       location := cfg_location deviceConfig;
       status := online;
       sensors := ss;
       connectivity :=
         {| conn_type := cfg_conn_type (cfg_connectivity deviceConfig);
            strength := cfg_strength (cfg_connectivity deviceConfig);
            protocol := cfg_protocol (cfg_connectivity deviceConfig);
            lastSeen := seen; dataUsage := 0 |};
       firmware :=
         {| version := "1.0.0"; lastUpdate := updated;
            updateAvailable := false; autoUpdate := true |};
       security :=
         {| encrypted := true;
            certificateExpiry := (now + 365 * 24 * 60 * 60 * 1000)%Z;
            lastSecurityScan := scanned; vulnerabilities := [] |} |} in
  modify (set_devices (fun m => JS.set m (id device) device)) ;;
  modify (set_sensorReadings (fun m => JS.set m (id device) [])) ;;
  startDeviceMonitoring device ;;
  ret device.

(** [calculateDistance], on the coordinates of its two arguments. *)
Definition calculateDistance (loc1_lat loc1_lng loc2_lat loc2_lng : JS.number)
  : JS.number :=
  let R := 6371 in
  let dLat := (loc2_lat - loc1_lat) * JS.Math_PI / 180 in
  let dLng := (loc2_lng - loc1_lng) * JS.Math_PI / 180 in
  let a := Math_sin (dLat / 2) * Math_sin (dLat / 2) +
           Math_cos (loc1_lat * JS.Math_PI / 180)
           * Math_cos (loc2_lat * JS.Math_PI / 180)
           * Math_sin (dLng / 2) * Math_sin (dLng / 2) in
  let c := 2 * Math_atan2 (JS.Math_sqrt a) (JS.Math_sqrt (1 - a)) in
  R * c.

(** [getDevices]: an absent or empty [type] does not filter. *)
Definition getDevices_of (all : list IoTDevice) (filters : option DeviceFilters)
  : list IoTDevice :=
  match filters with
  | None => all
  | Some f =>
      let ds1 :=
        match flt_type f with
        | Some t =>
            if String.eqb t "" then all
            else filter (fun device =>
                   String.eqb (DeviceType_name (type device)) t) all
        | None => all
        end in
      let ds2 :=
        match flt_status f with
        | Some st =>
            filter (fun device => DeviceStatus_eqb (status device) st) ds1
        | None => ds1
        end in
      match flt_location f with
      | Some loc =>
          filter (fun device =>
                    JS.le (calculateDistance (lat (location device))
                                             (lng (location device))
                                             (flt_lat loc) (flt_lng loc))
                          (radius loc)) ds2
      | None => ds2
      end
  end.

Definition getDevices (filters : option DeviceFilters)
  : Async (list IoTDevice) :=
  all <- read (fun s => JS.values (devices (service s))) ;;
  ret (getDevices_of all filters).

(** *** Real-time data collection *)

(** [getBaseValueForSensor]: the whole table is built on every call, so the
    clock is read once and five random numbers are drawn before the lookup;
    a falsy entry (absent, [0] or [NaN]) falls back to a sixth draw. *)
Definition getBaseValueForSensor (t : SensorType) (loc : GeoLocation)
  : Async JS.number :=
  now <- Date_now ;;
  let v_temperature := 20 + Math_sin (JS.of_Z now / 86400000) * 10 in
  r1 <- Math_random ;;
  let v_humidity := 50 + r1 * 30 in
  r2 <- Math_random ;;
  let v_pressure := 1013 + r2 * 20 - 10 in
  r3 <- Math_random ;;
  let v_motion := r3 * 50 in
  r4 <- Math_random ;;
  let v_proximity := if JS.gt r4 0.7 then 1 else 0 in
  let v_camera := 30 in
  r5 <- Math_random ;;
  let v_microphone := 40 + r5 * 40 in
  let entry :=
    match t with
    | temperature => Some v_temperature
    | humidity => Some v_humidity
    | pressure => Some v_pressure
    | motion => Some v_motion
    | proximity => Some v_proximity
    | camera => Some v_camera
    | microphone => Some v_microphone
    | gps | accelerometer => None
    end in
  match entry with
  | Some v => if JS.truthy v then ret v
              else (r6 <- Math_random ;; ret (r6 * 100))
  | None => r6 <- Math_random ;; ret (r6 * 100)
  end.

(** [generateSensorReading] *)
Definition generateSensorReading (sensor : Sensor) (device : IoTDevice)
  : Async SensorReading :=
  baseValue <- getBaseValueForSensor (sensor_type sensor) (location device) ;;
  r <- Math_random ;;
  let noise := (r - 0.5) * 0.1 in
  let v := JS.Math_max (fst (range sensor))
             (JS.Math_min (snd (range sensor)) (baseValue + noise)) in
  rid <- randomUUID ;;
  now <- Date_now ;;
  ret {| reading_id := rid;
         value := v;
         timestamp := now;
         quality := assessDataQuality v sensor;
         metadata :=
           Some {| meta_deviceId := id device;
                   meta_sensorType := sensor_type sensor;
                   meta_location := location device;
                   meta_connectivity := strength (connectivity device) |} |}.

(** [detectAnomaly]; the sensor id is not used. *)
Definition detectAnomaly (deviceId sensorId : string)
  (reading : SensorReading) : Async bool :=
  readings <- read (fun s =>
    match JS.get (sensorReadings (service s)) deviceId with
    | Some rs => rs
    | None => []
    end) ;;
  ret (detectAnomaly_on readings reading).

(** [processReading]; [i] is the position of [sensor] in the device. *)
Definition processReading (device : IoTDevice) (i : nat) (sensor : Sensor)
  (reading : SensorReading) : Async unit :=
  isAnomaly <- detectAnomaly (id device) (sensor_id sensor) reading ;;
  (if isAnomaly
   then triggerAlert "anomaly"
          {| alert_deviceId := id device; alert_sensorId := sensor_id sensor;
             alert_reading := reading; alert_threshold := None;
             alert_severity := medium |}
   else ret tt) ;;
  (match checkThresholds sensor reading with
   | Some thresholdViolation =>
       triggerAlert "threshold"
         {| alert_deviceId := id device; alert_sensorId := sensor_id sensor;
            alert_reading := reading;
            alert_threshold := Some thresholdViolation;
            alert_severity := thr_severity thresholdViolation |}
   | None => ret tt
   end) ;;
  triggerEventHandlers ("sensor:" ++ SensorType_name (sensor_type sensor))
    (SensorEvent (id device) i reading).

(** The array stored for a device after one more reading: [push], then the
    [splice] that keeps the last 1000. *)
Definition push_bounded (deviceReadings : list SensorReading)
  (reading : SensorReading) : list SensorReading :=
  let pushed := (deviceReadings ++ [reading])%list in
  if (1000 <? length pushed)%nat
  then JS.splice_front (length pushed - 1000) pushed
  else pushed.

(** The body of the loop of [collectSensorData] for the sensor at [i]. *)
Definition collect_one (device : IoTDevice) (i : nat) (sensor : Sensor)
  : Async unit :=
  reading <- generateSensorReading sensor device ;;
  modify (set_sensorReadings (fun m =>
    let deviceReadings :=
      match JS.get m (id device) with Some rs => rs | None => [] end in
    JS.set m (id device) (push_bounded deviceReadings reading))) ;;
  mutate_device (id device)
    (with_sensors (update_nth i (with_lastReading reading))) ;;
  processReading device i sensor reading.

Fixpoint collect_from (device : IoTDevice) (i : nat) (todo : list Sensor)
  : Async unit :=
  match todo with
  | [] => ret tt
  | sensor :: rest =>
      collect_one device i sensor ;; collect_from device (S i) rest
  end.

(** [collectSensorData] *)
Definition collectSensorData (device : IoTDevice) : Async unit :=
  collect_from device 0 (sensors device).

(** One firing of the interval of [startDataCollection]. The loop walks the
    keys of the map and reads each device when its turn comes. *)
Definition poll_cycle : Async unit :=
  ks <- read (fun s => JS.keys (devices (service s))) ;;
  forM_ ks (fun k =>
    d <- read (fun s => JS.get (devices (service s)) k) ;;
    match d with
    | Some device =>
        if DeviceStatus_eqb (status device) online
        then collectSensorData device
        else ret tt
    | None => ret tt
    end).

(** [startDataCollection] *)
Definition startDataCollection : Async unit := modify (add_timer PollTimer).

(** [checkDeviceHealth], on the device a health timer was started for. *)
Definition checkDeviceHealth (deviceId : string) : Async unit :=
  r <- Math_random ;;
  let isOnline := JS.gt r 0.05 in
  mutate_device deviceId (with_status (if isOnline then online else offline)) ;;
  if isOnline
  then (now <- Date_now ;; mutate_device deviceId (with_lastSeen now))
  else ret tt.

(** *** Edge computing *)

(** [deployEdgeFunction] *)
Definition deployEdgeFunction (deviceId functionCode : string)
  (triggers : list string) : Async unit :=
  device <- read (fun s => JS.get (devices (service s)) deviceId) ;;
  match device with
  | None => throw "Device not found"
  | Some _ =>
      console_log (LogText ("Deploying edge function to device " ++ deviceId)) ;;
      forM_ triggers (fun trigger =>
        addEventListener trigger (EdgeHandler deviceId functionCode))
  end.

(** *** Device security and updates *)

(** [scanForVulnerabilities] *)
Definition scanForVulnerabilities (device : IoTDevice)
  : Async (list Vulnerability) :=
  r <- Math_random ;;
  ret (if JS.gt r 0.8
       then [ {| vuln_severity := medium;
                 description := "Outdated firmware version";
                 mitigation := "Update to latest firmware version" |} ]
       else []).

(** [calculateSecurityScore] *)
Definition calculateSecurityScore (vulns : list Vulnerability) : JS.number :=
  let penalties (x : Severity) : JS.number :=
    match x with low => 5 | medium => 15 | high => 30 | critical => 50 end in
  JS.Math_max 0
    (fold_left (fun score vuln => score - penalties (vuln_severity vuln))
               vulns 100).

(** [generateSecurityRecommendations] *)
Definition generateSecurityRecommendations (vulns : list Vulnerability)
  : list string :=
  let is_critical (v : Vulnerability) : bool :=
    match vuln_severity v with critical => true | _ => false end in
  (["Enable automatic security updates"]
   ++ (if existsb is_critical vulns
       then ["Isolate device until critical vulnerabilities are patched"]
       else []))%list.

Record ScanReport := {
  report_vulnerabilities : list Vulnerability;
  score : JS.number;
  recommendations : list string
}.

(** [performSecurityScan] *)
Definition performSecurityScan (deviceId : string) : Async ScanReport :=
  device <- read (fun s => JS.get (devices (service s)) deviceId) ;;
  match device with
  | None => throw "Device not found"
  | Some d =>
      vulns <- scanForVulnerabilities d ;;
      let sc := calculateSecurityScore vulns in
      let recs := generateSecurityRecommendations vulns in
      now <- Date_now ;;
      mutate_device deviceId (fun d' =>
        with_security
          {| encrypted := encrypted (security d');
             certificateExpiry := certificateExpiry (security d');
             lastSecurityScan := now;
             vulnerabilities := vulns |} d') ;;
      ret {| report_vulnerabilities := vulns; score := sc;
             recommendations := recs |}
  end.

(** [getLatestFirmwareVersion] *)
Definition getLatestFirmwareVersion (deviceType : DeviceType) : Async string :=
  ret "2.1.0".

(** [performFirmwareUpdate]; the pause changes nothing in the state. *)
Definition performFirmwareUpdate (device : IoTDevice) (target : string)
  : Async unit :=
  console_log (LogText ("Updating firmware for device " ++ id device
                        ++ " to version " ++ target)).

(** [updateDeviceFirmware]: an absent or empty [version] means the latest. *)
Definition updateDeviceFirmware (deviceId : string) (ver : option string)
  : Async unit :=
  device <- read (fun s => JS.get (devices (service s)) deviceId) ;;
  match device with
  | None => throw "Device not found"
  | Some d =>
      targetVersion <-
        match ver with
        | Some v => if String.eqb v "" then getLatestFirmwareVersion (type d)
                    else ret v
        | None => getLatestFirmwareVersion (type d)
        end ;;
      console_log (LogText ("Updating device " ++ deviceId ++ " firmware to "
                            ++ targetVersion)) ;;
      performFirmwareUpdate d targetVersion ;;
      now <- Date_now ;;
      mutate_device deviceId (fun d' =>
        with_firmware
          {| version := targetVersion; lastUpdate := now;
             updateAvailable := false;
             autoUpdate := autoUpdate (firmware d') |} d')
  end.

(** *** Construction *)

(** [setupDeviceDiscovery] and [initializeEdgeComputing] *)
Definition setupDeviceDiscovery : Async unit :=
  console_log (LogText "Setting up IoT device discovery...").

Definition initializeEdgeComputing : Async unit :=
  console_log (LogText "Initializing edge computing...").

(** [initializeIoT], as the constructor calls it: up to the first
    [await]. [setupDeviceDiscovery] has run when the call returns;
    [startDataCollection] and [initializeEdgeComputing] have not. *)
Definition initializeIoT : Async unit :=
  setupDeviceDiscovery ;;
  modify (set_initialization before_startDataCollection).

(** [initializeIoT] when it is resumed: from the [await] it waits at to the
    next one. Nothing follows the third [await]. *)
Definition resume_initializeIoT : Async unit :=
  stage <- read initialization ;;
  match stage with
  | before_startDataCollection =>
      startDataCollection ;;
      modify (set_initialization before_initializeEdgeComputing)
  | before_initializeEdgeComputing =>
      initializeEdgeComputing ;;
      modify (set_initialization initialized)
  | initialized => ret tt
  end.

(** [new IoTService()] in a world [w]: the three maps are empty, and the
    constructor returns while [initializeIoT] waits at its first
    [await]. *)
Definition empty_state (w : World) : State :=
  {| service := {| devices := []; sensorReadings := []; eventHandlers := [] |};
     timers := []; console := []; world := w;
     initialization := before_startDataCollection |}.

Definition new_IoTService (w : World) : State :=
  snd (initializeIoT (empty_state w)).

(** *** Runs of the process

    What can happen after construction: a call of a public method, the
    firing of a timer that was started, or [initializeIoT] going on to its
    next [await]. The caller of the constructor may call methods before
    [initializeIoT] goes on, so a device can be registered, and its health
    timer started, before the poll timer is. A timer only fires when all
    code that waits has run, so after the initialization; the runs here do
    not use this and allow more. The three [deploy...Sensors] methods are
    sequences of [registerDevice], and [predictMaintenanceNeeds] assigns
    nothing. *)
Inductive Action :=
| ResumeInitializeIoT
| CallRegisterDevice (deviceConfig : DeviceConfig)
| CallGetDevices (filters : option DeviceFilters)
| CallStartDataCollection
| CallAddEventListener (eventType : string) (handler : Handler)
| CallDeployEdgeFunction (deviceId functionCode : string)
    (triggers : list string)
| CallPerformSecurityScan (deviceId : string)
| CallUpdateDeviceFirmware (deviceId : string) (ver : option string)
| FirePoll
| FireHealth (deviceId : string).

Definition enabled (a : Action) (s : State) : Prop :=
  match a with
  | ResumeInitializeIoT => initialization s <> initialized
  | FirePoll => In PollTimer (timers s)
  | FireHealth deviceId => In (HealthTimer deviceId) (timers s)
  | _ => True
  end.

Definition perform (a : Action) (s : State) : State :=
  match a with
  | ResumeInitializeIoT => snd (resume_initializeIoT s)
  | CallRegisterDevice c => snd (registerDevice c s)
  | CallGetDevices f => snd (getDevices f s)
  | CallStartDataCollection => snd (startDataCollection s)
  | CallAddEventListener e h => snd (addEventListener e h s)
  | CallDeployEdgeFunction d c t => snd (deployEdgeFunction d c t s)
  | CallPerformSecurityScan d => snd (performSecurityScan d s)
  | CallUpdateDeviceFirmware d v => snd (updateDeviceFirmware d v s)
  | FirePoll => snd (poll_cycle s)
  | FireHealth d => snd (checkDeviceHealth d s)
  end.

Inductive reachable (w : World) : State -> Prop :=
| reach_new : reachable w (new_IoTService w)
| reach_step : forall s a,
    reachable w s -> enabled a s -> reachable w (perform a s).

End Service.

(** ** Deployment and predictive maintenance

    The public methods that are no action of a run: the three loops over
    [registerDevice], and the maintenance forecast, which reads the
    registry and the clock and assigns nothing. *)

(** *** Smart city sensors *)

(** The elements of the arrays the three deployment methods take. Each
    object becomes the [location] of its device; the class reads [lat] and
    [lng] of a location and nothing else. *)
Record Intersection := {
  intersection_lat : JS.number;
  intersection_lng : JS.number;
  intersection_name : string
}.

Record ParkingSpot := {
  spot_lat : JS.number;
  spot_lng : JS.number;
  spotId : string
}.

(** ['air-quality' | 'noise' | 'weather'] *)
Inductive StationType := air_quality | noise | weather.

Record Station := {
  station_lat : JS.number;
  station_lng : JS.number;
  station_type : StationType
}.

(** The loop of the three methods: register, then push the device. *)
Fixpoint deploy_each {A : Type} (deviceConfig : A -> DeviceConfig)
  (todo : list A) (deployed : list IoTDevice) : Async (list IoTDevice) :=
  match todo with
  | [] => ret deployed
  | x :: rest =>
      device <- registerDevice (deviceConfig x) ;;
      deploy_each deviceConfig rest (deployed ++ [device])%list
  end.

(** [deployTrafficSensors] *)
Definition traffic_config (intersection : Intersection) : DeviceConfig :=
  {| cfg_type := dev_sensor;
     cfg_location := {| lat := intersection_lat intersection;
                        lng := intersection_lng intersection;
                        address := None |};
     cfg_sensors :=
       [ {| cfg_sensor_type := camera; cfg_unit := "fps";
            cfg_range := (0, 60); cfg_accuracy := 0.95 |};
         {| cfg_sensor_type := motion; cfg_unit := "vehicles/min";
            cfg_range := (0, 100); cfg_accuracy := 0.9 |};
         {| cfg_sensor_type := proximity; cfg_unit := "meters";
            cfg_range := (0, 50); cfg_accuracy := 0.8 |} ];
     cfg_connectivity :=
       {| cfg_conn_type := cellular; cfg_strength := 85;
          cfg_protocol := "5G" |} |}.

Definition deployTrafficSensors (intersections : list Intersection)
  : Async (list IoTDevice) :=
  deploy_each traffic_config intersections [].

(** [deployParkingSensors] *)
Definition parking_config (spot : ParkingSpot) : DeviceConfig :=
  {| cfg_type := dev_sensor;
     cfg_location := {| lat := spot_lat spot; lng := spot_lng spot;
                        address := None |};
     cfg_sensors :=
       [ {| cfg_sensor_type := proximity; cfg_unit := "occupied";
            cfg_range := (0, 1); cfg_accuracy := 0.95 |};
         {| cfg_sensor_type := camera; cfg_unit := "fps";
            cfg_range := (0, 30); cfg_accuracy := 0.9 |} ];
     cfg_connectivity :=
       {| cfg_conn_type := lora; cfg_strength := 75;
          cfg_protocol := "LoRaWAN" |} |}.

Definition deployParkingSensors (parkingSpots : list ParkingSpot)
  : Async (list IoTDevice) :=
  deploy_each parking_config parkingSpots [].

(** [getEnvironmentalSensors]: every station type has an entry of the
    table, so the empty array after [||] is never returned. *)
Definition getEnvironmentalSensors (t : StationType) : list SensorConfig :=
  match t with
  | air_quality =>
      [ {| cfg_sensor_type := temperature; cfg_unit := "°C";
           cfg_range := (-20, 50); cfg_accuracy := 0.5 |};
        {| cfg_sensor_type := humidity; cfg_unit := "%";
           cfg_range := (0, 100); cfg_accuracy := 2 |};
        {| cfg_sensor_type := pressure; cfg_unit := "hPa";
           cfg_range := (900, 1100); cfg_accuracy := 1 |} ]
  | noise =>
      [ {| cfg_sensor_type := microphone; cfg_unit := "dB";
           cfg_range := (30, 120); cfg_accuracy := 1 |} ]
  | weather =>
      [ {| cfg_sensor_type := temperature; cfg_unit := "°C";
           cfg_range := (-40, 60); cfg_accuracy := 0.1 |};
        {| cfg_sensor_type := humidity; cfg_unit := "%";
           cfg_range := (0, 100); cfg_accuracy := 1 |};
        {| cfg_sensor_type := pressure; cfg_unit := "hPa";
           cfg_range := (800, 1200); cfg_accuracy := 0.5 |} ]
  end.

(** [deployEnvironmentalSensors] *)
Definition environmental_config (location : Station) : DeviceConfig :=
  {| cfg_type := dev_sensor;
     cfg_location := {| lat := station_lat location;
                        lng := station_lng location; address := None |};
     cfg_sensors := getEnvironmentalSensors (station_type location);
     cfg_connectivity :=
       {| cfg_conn_type := wifi; cfg_strength := 80;
          cfg_protocol := "WiFi 6" |} |}.

Definition deployEnvironmentalSensors (locations : list Station)
  : Async (list IoTDevice) :=
  deploy_each environmental_config locations [].

(** *** Predictive maintenance *)

(** [calculateDeviceHealth]. The two time values are integers of at most 16
    digits, so the test on their difference is the test on the integers. *)
Definition calculateDeviceHealth (device : IoTDevice) : Async JS.number :=
  let score := 1.0 in
  now <- Date_now ;;
  let timeSinceLastSeen := (now - lastSeen (connectivity device))%Z in
  let score := if (300000 <? timeSinceLastSeen)%Z then score - 0.2
               else score in
  let failingSensors :=
    length (filter (fun s => match quality (lastReading s) with
                             | poor => true
                             | _ => false
                             end) (sensors device)) in
  let score :=
    score - (JS.of_Z (Z.of_nat failingSensors)
             / JS.of_Z (Z.of_nat (length (sensors device)))) * 0.3 in
  let criticalVulns :=
    length (filter (fun v => match vuln_severity v with
                             | critical => true
                             | _ => false
                             end) (vulnerabilities (security device))) in
  let score := score - JS.of_Z (Z.of_nat criticalVulns) * 0.1 in
  ret (JS.Math_max 0 score).

(** [estimateTimeToFailure], in hours *)
Definition estimateTimeToFailure (healthScore : JS.number) : JS.number :=
  JS.Math_max 1 (healthScore * 720).

(** [getMaintenanceRecommendation] *)
Definition getMaintenanceRecommendation (healthScore : JS.number) : string :=
  if JS.lt healthScore 0.3 then "Immediate replacement required"
  else if JS.lt healthScore 0.5 then "Schedule maintenance within 24 hours"
  else if JS.lt healthScore 0.7 then "Schedule maintenance within 1 week"
  else "Monitor closely".

Record Prediction := {
  prediction_deviceId : string;
  component : string;
  probability : JS.number;
  timeToFailure : JS.number;
  recommendedAction : string
}.

(** The loop of [predictMaintenanceNeeds] over the devices still to come. *)
Fixpoint predict_each (todo : list IoTDevice) (predictions : list Prediction)
  : Async (list Prediction) :=
  match todo with
  | [] => ret predictions
  | device :: rest =>
      healthScore <- calculateDeviceHealth device ;;
      if JS.lt healthScore 0.8
      then predict_each rest
             (predictions
              ++ [ {| prediction_deviceId := id device;
                      component := "sensor-array";
                      probability := 1 - healthScore;
                      timeToFailure := estimateTimeToFailure healthScore;
                      recommendedAction :=
                        getMaintenanceRecommendation healthScore |} ])%list
      else predict_each rest predictions
  end.

(** [predictMaintenanceNeeds] *)
Definition predictMaintenanceNeeds : Async (list Prediction) :=
  all <- read (fun s => JS.values (devices (service s))) ;;
  predict_each all [].

(** * Vocabulary

    What the statements below are written with: the order and the
    magnitude of numbers, the alerts of the console, relations between the
    state before and after a step, what holds along a run, and the words
    of the specification. *)

Section Vocabulary.

Variables Math_sin Math_cos : JS.number -> JS.number.
Variable Math_atan2 : JS.number -> JS.number -> JS.number.

(** ** Numbers *)

(** The comparison of two numbers; [None] when one of them is [NaN]. *)
Definition cmp (x y : JS.number) : option comparison :=
  SFcompare (Prim2SF x) (Prim2SF y).

(** A value that is a zero or is finite and below [2 ^ k] in magnitude. *)
Definition small (k : Z) (x : spec_float) : Prop :=
  match x with
  | S754_zero _ => True
  | S754_finite _ m e => (Zpos (digits2_pos m) + e <= k)%Z
  | _ => False
  end.

(** The same of a number, through its value. *)
Definition bounded_by (k : Z) (x : float) : Prop := small k (Prim2SF x).

(** The quality label as a function of the two things it may depend on. *)
Definition quality_label (withinRange : bool) (accuracy : JS.number)
  : Quality :=
  if withinRange && (0.9 <? accuracy) then excellent
  else if withinRange && (0.8 <? accuracy) then good
  else if withinRange && (0.6 <? accuracy) then fair
  else poor.

(** Whether a value lies in a range, bounds included. *)
Definition within_range (v : JS.number) (rg : JS.number * JS.number) : bool :=
  (fst rg <=? v) && (v <=? snd rg).

(** Mean and (population) standard deviation; a value deviates when it is
    more than two standard deviations away from the mean. *)
Definition total (xs : list JS.number) : JS.number :=
  fold_left (fun acc x => acc + x) xs 0.

Definition mean (xs : list JS.number) : JS.number :=
  total xs / JS.of_Z (Z.of_nat (length xs)).

Definition std_dev (xs : list JS.number) : JS.number :=
  sqrt (total (map (fun x => (x - mean xs) * (x - mean xs)) xs)
        / JS.of_Z (Z.of_nat (length xs))).

Definition deviates (window : list JS.number) (v : JS.number) : bool :=
  2 * std_dev window <? abs (v - mean window).

(** What is assumed of the platform: [Math.random] returns numbers from
    [0], included, to [1], excluded, and [Math.sin] of a finite number is
    between [-1] and [1]. *)
Definition unit_draws (w : World) : Prop :=
  forall n, (0 <=? random_src w n) = true /\ (random_src w n <? 1) = true.

Definition sine_like (f : JS.number -> JS.number) : Prop :=
  forall x, is_finite x = true -> (-1 <=? f x) = true /\ (f x <=? 1) = true.

(** ** The console and the oracles *)

(** The entries of the console that are alerts of a kind. *)
Definition alerts (kind : string) (log : list LogEntry) : list AlertData :=
  flat_map (fun e =>
              match e with
              | LogAlert k d => if String.eqb k kind then [d] else []
              | _ => []
              end) log.

(** An entry that is not an alert. *)
Definition plain (e : LogEntry) : Prop :=
  match e with LogAlert _ _ => False | _ => True end.

(** The oracles only move forward. *)
Record advanced (w w' : World) : Prop := {
  adv_random : random_src w' = random_src w;
  adv_uuid : uuid_src w' = uuid_src w;
  adv_clock : clock_src w' = clock_src w;
  adv_random_pos : random_pos w <= random_pos w';
  adv_uuid_pos : uuid_pos w <= uuid_pos w';
  adv_clock_pos : clock_pos w <= clock_pos w'
}.

(** A step that only writes plain lines to the console and consults the
    random and clock oracles. *)
Record chatter (s s' : State) : Prop := {
  chat_service : service s' = service s;
  chat_timers : timers s' = timers s;
  chat_console : exists logs,
      console s' = (console s ++ logs)%list /\ Forall plain logs;
  chat_world : advanced (world s) (world s')
}.

(** ** The steps of the poll cycle *)

(** The value [getBaseValueForSensor] computes from the clock reading [now]
    and the random numbers [r 0], [r 1], ... it draws, in order. *)
Definition base_value (t : SensorType) (now : Date) (r : nat -> JS.number)
  : JS.number :=
  let entry :=
    match t with
    | temperature => Some (20 + Math_sin (JS.of_Z now / 86400000) * 10)
    | humidity => Some (50 + r 0%nat * 30)
    | pressure => Some (1013 + r 1%nat * 20 - 10)
    | motion => Some (r 2%nat * 50)
    | proximity => Some (if JS.gt (r 3%nat) 0.7 then 1 else 0)
    | camera => Some 30
    | microphone => Some (40 + r 4%nat * 40)
    | gps | accelerometer => None
    end in
  match entry with
  | Some v => if JS.truthy v then v else r 5%nat * 100
  | None => r 5%nat * 100
  end.

(** The random number [i] draws ahead of the cursor, and the next reading
    of the clock. *)
Definition drawn (s : State) (i : nat) : JS.number :=
  random_src (world s) (i + random_pos (world s)).

Definition clock_reading (s : State) : Date :=
  clock_src (world s) (clock_pos (world s)).

(** The array of readings stored for a device ([[]] when there is none). *)
Definition history (s : State) (deviceId : string) : list SensorReading :=
  match JS.get (sensorReadings (service s)) deviceId with
  | Some rs => rs
  | None => []
  end.

(** The payloads [processReading] passes to [triggerAlert]. *)
Definition anomaly_alert (device : IoTDevice) (sensor : Sensor)
  (reading : SensorReading) : AlertData :=
  {| alert_deviceId := id device; alert_sensorId := sensor_id sensor;
     alert_reading := reading; alert_threshold := None;
     alert_severity := medium |}.

Definition threshold_alert (device : IoTDevice) (sensor : Sensor)
  (reading : SensorReading) (t : Threshold) : AlertData :=
  {| alert_deviceId := id device; alert_sensorId := sensor_id sensor;
     alert_reading := reading; alert_threshold := Some t;
     alert_severity := thr_severity t |}.

(** The alert lines one call of [processReading] writes. *)
Definition reading_alerts (device : IoTDevice) (sensor : Sensor)
  (reading : SensorReading) (stored : list SensorReading) : list LogEntry :=
  ((if detectAnomaly_on stored reading
    then [LogAlert "anomaly" (anomaly_alert device sensor reading)]
    else [])
   ++
   match checkThresholds sensor reading with
   | Some t => [LogAlert "threshold" (threshold_alert device sensor reading t)]
   | None => []
   end)%list.

(** A step that leaves the service alone and whose alert lines are,
    in order, those of [entries]. *)
Record logged (entries : list LogEntry) (s s' : State) : Prop := {
  logged_service : service s' = service s;
  logged_timers : timers s' = timers s;
  logged_world : advanced (world s) (world s');
  logged_alerts : forall kind,
      alerts kind (console s')
      = (alerts kind (console s) ++ alerts kind entries)%list
}.

(** [reading] comes out of [generateSensorReading] for this sensor, in some
    state whose oracles are those of the world [w]. *)
Definition synthesized (w : World) (device : IoTDevice) (sensor : Sensor)
  (reading : SensorReading) : Prop :=
  exists s s',
    advanced w (world s)
    /\ generateSensorReading Math_sin sensor device s = (Normal reading, s').

(** What one turn of the loop of [collectSensorData] does. *)
Record collected (device : IoTDevice) (i : nat) (sensor : Sensor)
  (reading : SensorReading) (s s' : State) : Prop := {
  col_synth : synthesized (world s) device sensor reading;
  col_readings :
    sensorReadings (service s')
    = JS.set (sensorReadings (service s)) (id device)
        (push_bounded (history s (id device)) reading);
  col_devices :
    devices (service s')
    = match JS.get (devices (service s)) (id device) with
      | Some d =>
          JS.set (devices (service s)) (id device)
            (with_sensors (update_nth i (with_lastReading reading)) d)
      | None => devices (service s)
      end;
  col_handlers : eventHandlers (service s') = eventHandlers (service s);
  col_timers : timers s' = timers s;
  col_world : advanced (world s) (world s');
  col_alerts : forall kind,
      alerts kind (console s')
      = (alerts kind (console s)
         ++ alerts kind
              (reading_alerts device sensor reading
                 (push_bounded (history s (id device)) reading)))%list
}.

(** The sensors of a device after the readings [news] were assigned, in
    order, to the last-reading slots from position [i] on. *)
Fixpoint set_readings (i : nat) (news : list SensorReading)
  (l : list Sensor) : list Sensor :=
  match news with
  | [] => l
  | r :: rest => set_readings (S i) rest (update_nth i (with_lastReading r) l)
  end.

(** What [collectSensorData] does from the sensor at position [i] on:
    [news] are the readings of the sensors [todo], in order. *)
Record swept (device : IoTDevice) (i : nat) (todo : list Sensor)
  (news : list SensorReading) (s s' : State) : Prop := {
  sw_synth : Forall2 (synthesized (world s) device) todo news;
  sw_history :
    history s' (id device)
    = fold_left push_bounded news (history s (id device));
  sw_present : forall k,
      JS.get (sensorReadings (service s)) k <> None ->
      JS.get (sensorReadings (service s')) k <> None;
  sw_readings_other : forall k,
      k <> id device ->
      JS.get (sensorReadings (service s')) k
      = JS.get (sensorReadings (service s)) k;
  sw_device :
    JS.get (devices (service s')) (id device)
    = option_map (with_sensors (set_readings i news))
        (JS.get (devices (service s)) (id device));
  sw_devices_other : forall k,
      k <> id device ->
      JS.get (devices (service s')) k = JS.get (devices (service s)) k;
  sw_keys : JS.keys (devices (service s')) = JS.keys (devices (service s));
  sw_handlers : eventHandlers (service s') = eventHandlers (service s);
  sw_timers : timers s' = timers s;
  sw_world : advanced (world s) (world s')
}.

(** Every device is stored under its own id. *)
Definition well_keyed (s : State) : Prop :=
  forall k d, JS.get (devices (service s)) k = Some d -> id d = k.

(** Neither the history nor the device under [k] changed. *)
Definition untouched (s s' : State) (k : string) : Prop :=
  JS.get (sensorReadings (service s')) k
  = JS.get (sensorReadings (service s)) k
  /\ JS.get (devices (service s')) k = JS.get (devices (service s)) k.

(** What a poll cycle does to the device under key [k]: nothing when it is
    offline; when it is online, one reading per sensor, in the order of the
    sensors, each pushed on the history and put in its sensor's slot. *)
Definition polled (s s' : State) (k : string) : Prop :=
  match JS.get (devices (service s)) k with
  | Some d =>
      if DeviceStatus_eqb (status d) online
      then exists news,
          Forall2 (synthesized (world s) d) (sensors d) news
          /\ history s' k = fold_left push_bounded news (history s k)
          /\ (JS.get (sensorReadings (service s)) k <> None ->
              JS.get (sensorReadings (service s')) k <> None)
          /\ JS.get (devices (service s')) k
             = Some (with_sensors (set_readings 0 news) d)
      else untouched s s' k
  | None => untouched s s' k
  end.

(** The body of the loop of the poll cycle, for the key [k]. *)
Definition poll_body (k : string) : Async unit :=
  (d <- read (fun s => JS.get (devices (service s)) k) ;;
   match d with
   | Some device =>
       if DeviceStatus_eqb (status device) online
       then collectSensorData Math_sin device
       else ret tt
   | None => ret tt
   end)%async.

(** What a poll cycle leaves unchanged. *)
Record poll_frame (s s' : State) : Prop := {
  pf_keys : JS.keys (devices (service s')) = JS.keys (devices (service s));
  pf_handlers : eventHandlers (service s') = eventHandlers (service s);
  pf_timers : timers s' = timers s;
  pf_world : advanced (world s) (world s');
  pf_keyed : well_keyed s -> well_keyed s'
}.

(** ** Steps that leave the histories alone *)

(** A computation whose every run relates the state before to the state
    after. *)
Definition preserves (R : State -> State -> Prop) {A : Type} (c : Async A)
  : Prop :=
  forall s, R s (snd (c s)).

(** What never changes in a sensor. *)
Definition static (x : Sensor)
  : SensorType * (JS.number * JS.number) * JS.number :=
  (sensor_type x, range x, accuracy x).

(** A step that leaves the histories, the set of registered ids, the ids of
    the devices and what is static in their sensors as they are. *)
Record tame (s s' : State) : Prop := {
  tame_readings : sensorReadings (service s') = sensorReadings (service s);
  tame_keys : JS.keys (devices (service s')) = JS.keys (devices (service s));
  tame_ids : forall k d',
      JS.get (devices (service s')) k = Some d' ->
      exists d, JS.get (devices (service s)) k = Some d /\ id d' = id d
                /\ map static (sensors d') = map static (sensors d);
  tame_timers : timers s' = timers s;
  tame_world : advanced (world s) (world s')
}.

(** ** Registration *)

(** A clock reading taken between two states. *)
Definition read_between (s s' : State) (t : Date) : Prop :=
  exists n, clock_pos (world s) <= n < clock_pos (world s')
            /\ t = clock_src (world s) n.

(** What [registerDevice] makes of one sensor configuration. *)
Record sensor_of (s s' : State) (c : SensorConfig) (x : Sensor) : Prop := {
  so_type : sensor_type x = cfg_sensor_type c;
  so_unit : sensor_unit x = cfg_unit c;
  so_range : range x = cfg_range c;
  so_accuracy : accuracy x = cfg_accuracy c;
  so_value : value (lastReading x) = 0%float;
  so_quality : quality (lastReading x) = good;
  so_next : exists t,
      read_between s s' t
      /\ nextCalibration (calibration x) = (t + 30 * 24 * 60 * 60 * 1000)%Z
}.

(** The state after [registerDevice] in terms of the state [s1] in which
    the device object is complete. *)
Definition registered (device : IoTDevice) (s1 : State) : State :=
  add_timer (HealthTimer (id device))
    (set_sensorReadings (fun m => JS.set m (id device) [])
       (set_devices (fun m => JS.set m (id device) device) s1)).

(** ** What holds in every state of a run *)

(** Every device is stored under its own id; no id is registered twice; no
    history is longer than 1000; every registered device has a history;
    every registered id came from the identifier source. *)
Record invariant (s : State) : Prop := {
  inv_keyed : well_keyed s;
  inv_nodup : NoDup (JS.keys (devices (service s)));
  inv_bounded : forall k rs,
      JS.get (sensorReadings (service s)) k = Some rs -> length rs <= 1000;
  inv_stored : forall k,
      In k (JS.keys (devices (service s))) ->
      JS.get (sensorReadings (service s)) k <> None;
  inv_drawn : forall k,
      In k (JS.keys (devices (service s))) ->
      exists n, n < uuid_pos (world s) /\ uuid_src (world s) n = k
}.

(** Every reading of a history was labelled by [assessDataQuality] for a
    sensor of the device the history belongs to. *)
Definition labelled (s : State) : Prop :=
  forall k rs r,
    JS.get (sensorReadings (service s)) k = Some rs -> In r rs ->
    exists d x,
      JS.get (devices (service s)) k = Some d
      /\ In x (sensors d)
      /\ quality r = assessDataQuality (value r) x.

(** ** Words of the specification *)

(** The most recent [n] entries of an array, oldest first. *)
Definition last_n {A : Type} (n : nat) (l : list A) : list A :=
  rev (firstn n (rev l)).

(** The readings of an array that a sensor of type [t] produced. *)
Definition readings_of_type (t : SensorType) (rs : list SensorReading)
  : list SensorReading :=
  filter (fun r =>
            match metadata r with
            | Some m =>
                String.eqb (SensorType_name (meta_sensorType m))
                           (SensorType_name t)
            | None => false
            end) rs.

(** The verdict the anomaly check would give if it looked, as the claim has
    it, at the last 10 readings of the sensor alone. *)
Definition claimed_anomaly (t : SensorType) (stored : list SensorReading)
  (reading : SensorReading) : bool :=
  deviates (map value (last_n 10 (readings_of_type t stored)))
           (value reading).

(** The readings a poll cycle started in [s] appends for the device under
    [k]: one per sensor, in the order of the sensors, when the device is
    online, and none otherwise. *)
Definition appended (s : State) (k : string) (news : list SensorReading)
  : Prop :=
  match JS.get (devices (service s)) k with
  | Some d =>
      if DeviceStatus_eqb (status d) online
      then Forall2 (synthesized (world s) d) (sensors d) news
      else news = []
  | None => news = []
  end.

(** The great-circle distance of the specification, in kilometres, between
    two points given by their latitude and longitude in degrees: the
    haversine formula on a sphere of radius 6371 km,

      hav (d / R) = hav (phi2 - phi1) + cos phi1 * cos phi2 * hav (lambda2 - lambda1)

    with [hav x] the square of the sine of [x / 2], solved for [d] by the
    arc tangent of the two square roots. It is written after the formula,
    not after [calculateDistance]; the differences are taken in degrees
    and the products from left to right, which matters in binary64
    only. *)
Definition radians (degrees : JS.number) : JS.number :=
  degrees * JS.Math_PI / 180.

Definition earth_radius : JS.number := 6371.

Definition haversine (lat1 lng1 lat2 lng2 : JS.number) : JS.number :=
  let phi1 := radians lat1 in
  let phi2 := radians lat2 in
  let dphi := radians (lat2 - lat1) in
  let dlambda := radians (lng2 - lng1) in
  let h := Math_sin (dphi / 2) * Math_sin (dphi / 2)
           + Math_cos phi1 * Math_cos phi2
             * Math_sin (dlambda / 2) * Math_sin (dlambda / 2) in
  earth_radius * (2 * Math_atan2 (sqrt h) (sqrt (1 - h))).

(** The great-circle distance from a device to the point of a location
    filter. *)
Definition great_circle (loc : LocationFilter) (d : IoTDevice) : JS.number :=
  haversine (lat (location d)) (lng (location d)) (flt_lat loc) (flt_lng loc).

(** The distance [calculateDistance] computes from a device to the point
    of a location filter, in kilometres. *)
Definition distance_to (loc : LocationFilter) (d : IoTDevice) : JS.number :=
  calculateDistance Math_sin Math_cos Math_atan2
    (lat (location d)) (lng (location d)) (flt_lat loc) (flt_lng loc).

(** A filter with a location and nothing else. *)
Definition by_location (loc : LocationFilter) : option DeviceFilters :=
  Some {| flt_type := None; flt_status := None; flt_location := Some loc |}.

(** What [getDevices] returns in a state. *)
Definition listed (s : State) (filters : option DeviceFilters)
  : list IoTDevice :=
  getDevices_of Math_sin Math_cos Math_atan2
    (JS.values (devices (service s))) filters.

(** When a computation throws. *)
Definition throws {A : Type} (c : Async A) (s : State) (message : string)
  : Prop :=
  fst (c s) = Throw message.

End Vocabulary.

(** * Vocabulary for the rest of the class

    The words of the statements about what the specification leaves out:
    the filters of [getDevices], the event handlers, the security score,
    deployment, what a run never changes, and the maintenance forecast. *)

(** ** The registry *)

Section Filters.

Variables Math_sin Math_cos : JS.number -> JS.number.
Variable Math_atan2 : JS.number -> JS.number -> JS.number.

(** Whether a device passes every filter that is given. *)
Definition passes (f : DeviceFilters) (d : IoTDevice) : bool :=
  match flt_type f with
  | Some t => String.eqb t "" || String.eqb (DeviceType_name (type d)) t
  | None => true
  end
  && match flt_status f with
     | Some st => DeviceStatus_eqb (status d) st
     | None => true
     end
  && match flt_location f with
     | Some loc => distance_to Math_sin Math_cos Math_atan2 loc d <=? radius loc
     | None => true
     end.

End Filters.

(** What a sensor is registered with, and what a configuration asks for. *)
Definition signature (x : Sensor)
  : SensorType * string * (JS.number * JS.number) * JS.number :=
  (sensor_type x, sensor_unit x, range x, accuracy x).

Definition configured (c : SensorConfig)
  : SensorType * string * (JS.number * JS.number) * JS.number :=
  (cfg_sensor_type c, cfg_unit c, cfg_range c, cfg_accuracy c).

(** The device [d] is what [registerDevice] makes of the configuration [c],
    and it is stored in [s], with an empty history. *)
Record deployed_as (c : DeviceConfig) (d : IoTDevice) (s : State) : Prop := {
  dep_type : type d = cfg_type c;
  dep_location : location d = cfg_location c;
  dep_status : status d = online;
  dep_sensors : map signature (sensors d) = map configured (cfg_sensors c);
  dep_values : Forall (fun x => value (lastReading x) = 0) (sensors d);
  dep_conn_type :
    conn_type (connectivity d) = cfg_conn_type (cfg_connectivity c);
  dep_strength :
    strength (connectivity d) = cfg_strength (cfg_connectivity c);
  dep_protocol :
    protocol (connectivity d) = cfg_protocol (cfg_connectivity c);
  dep_stored : JS.get (devices (service s)) (id d) = Some d;
  dep_history : JS.get (sensorReadings (service s)) (id d) = Some []
}.

(** The identifier source never returns the same identifier twice. *)
Definition never_repeats (w : World) : Prop :=
  forall i j, uuid_src w i = uuid_src w j -> i = j.

(** What a deployment method does with the array [todo] from the state [s]:
    one device per element, in order, each made of the configuration of its
    element and stored under an identifier that was not registered; one
    health timer each; and the devices registered before stay as they
    are. *)
Record fleet {A : Type} (deviceConfig : A -> DeviceConfig) (todo : list A)
  (ds : list IoTDevice) (s s' : State) : Prop := {
  fleet_each : Forall2 (fun x d => deployed_as (deviceConfig x) d s') todo ds;
  fleet_keys :
    JS.keys (devices (service s'))
    = (JS.keys (devices (service s)) ++ map id ds)%list;
  fleet_distinct : NoDup (JS.keys (devices (service s)) ++ map id ds);
  fleet_timers :
    timers s' = (timers s ++ map (fun d => HealthTimer (id d)) ds)%list;
  fleet_kept : forall k,
      In k (JS.keys (devices (service s))) ->
      JS.get (devices (service s')) k = JS.get (devices (service s)) k
      /\ JS.get (sensorReadings (service s')) k
         = JS.get (sensorReadings (service s)) k
}.

(** ** Events *)

(** The handlers [triggerEventHandlers] finds for an event type. *)
Definition handlers_of (s : State) (eventType : string) : list Handler :=
  match JS.get (eventHandlers (service s)) eventType with
  | Some hs => hs
  | None => []
  end.

(** The lines the handlers write when they run one after the other, the
    first one with the random number [r 0], the next with [r 1], ...: each
    announces itself and, when its number exceeds 0.8, sends its result to
    the cloud. *)
Fixpoint edge_lines (handlers : list Handler) (r : nat -> JS.number)
  : list LogEntry :=
  match handlers with
  | [] => []
  | EdgeHandler deviceId functionCode :: rest =>
      (LogText ("Executing edge function on device " ++ deviceId)
       :: (if JS.gt (r 0%nat) 0.8
           then [LogText ("Sending edge-processed data from device "
                          ++ deviceId ++ " to cloud")]
           else []))
      ++ edge_lines rest (fun i => r (S i))
  end%list.

(** A step that writes [lines] to the console, draws [n] random numbers,
    reads the clock [n] times and does nothing else. *)
Record drew (n : nat) (lines : list LogEntry) (s s' : State) : Prop := {
  drew_service : service s' = service s;
  drew_timers : timers s' = timers s;
  drew_console : console s' = (console s ++ lines)%list;
  drew_random : random_pos (world s') = (random_pos (world s) + n)%nat;
  drew_clock : clock_pos (world s') = (clock_pos (world s) + n)%nat;
  drew_uuid : uuid_pos (world s') = uuid_pos (world s);
  drew_sources :
    random_src (world s') = random_src (world s)
    /\ uuid_src (world s') = uuid_src (world s)
    /\ clock_src (world s') = clock_src (world s)
}.

(** The lines the handlers of an event type write when they run after
    [skip] random numbers were drawn. *)
Definition dispatch (s : State) (eventType : string) (skip : nat)
  : list LogEntry :=
  edge_lines (handlers_of s eventType) (fun i => drawn s (i + skip)).

(** ** Runs *)

(** What no method assigns in a device, and in a sensor. *)
Definition hardware (d : IoTDevice) :=
  (id d, type d, location d,
   (conn_type (connectivity d), strength (connectivity d),
    protocol (connectivity d), dataUsage (connectivity d)),
   (encrypted (security d), certificateExpiry (security d)),
   autoUpdate (firmware d)).

Definition fixed (x : Sensor) :=
  (sensor_id x, sensor_type x, sensor_unit x, range x, accuracy x,
   calibration x).

(** A step that leaves the histories, the registered ids and, in every
    device, the hardware and the sensors as they are. *)
Record gentle (s s' : State) : Prop := {
  gentle_readings : sensorReadings (service s') = sensorReadings (service s);
  gentle_keys : JS.keys (devices (service s')) = JS.keys (devices (service s));
  gentle_devices : forall k,
      match JS.get (devices (service s)) k,
            JS.get (devices (service s')) k with
      | Some d, Some d' => hardware d' = hardware d /\ sensors d' = sensors d
      | None, None => True
      | _, _ => False
      end
}.

(** The steps of a run are of three kinds: a gentle one, which may start
    one more poll timer; a registration; a poll cycle. *)
Inductive step_kind (Math_sin : JS.number -> JS.number) (s s' : State)
  : Prop :=
| step_gentle :
    gentle s s' ->
    (exists more, timers s' = (timers s ++ more)%list
                  /\ forall t, In t more -> t = PollTimer) ->
    advanced (world s) (world s') ->
    step_kind Math_sin s s'
| step_register (device : IoTDevice) :
    id device = uuid_src (world s) (uuid_pos (world s)) ->
    devices (service s') = JS.set (devices (service s)) (id device) device ->
    sensorReadings (service s')
    = JS.set (sensorReadings (service s)) (id device) [] ->
    timers s' = (timers s ++ [HealthTimer (id device)])%list ->
    advanced (world s) (world s') ->
    step_kind Math_sin s s'
| step_poll :
    (forall k, polled Math_sin s s' k) ->
    JS.keys (devices (service s')) = JS.keys (devices (service s)) ->
    timers s' = timers s ->
    advanced (world s) (world s') ->
    step_kind Math_sin s s'.

(** A step during which [initializeIoT] does not go on. *)
Definition same_stage (s s' : State) : Prop :=
  initialization s' = initialization s.

Section Sequences.

Variables Math_sin Math_cos : JS.number -> JS.number.
Variable Math_atan2 : JS.number -> JS.number -> JS.number.

(** The state after a sequence of calls and timer firings. *)
Definition run (actions : list Action) (s : State) : State :=
  fold_left (fun st a => perform Math_sin Math_cos Math_atan2 a st) actions s.

End Sequences.

(** ** The security score *)

(** The penalty of a vulnerability, and the penalties of an array. *)
Definition penalty (x : Severity) : Z :=
  match x with low => 5 | medium => 15 | high => 30 | critical => 50 end%Z.

Definition total_penalty (vulns : list Vulnerability) : Z :=
  fold_right (fun v acc => (penalty (vuln_severity v) + acc)%Z) 0%Z vulns.

Definition penalty_number (x : Severity) : JS.number :=
  match x with low => 5 | medium => 15 | high => 30 | critical => 50 end.

(** A number that is a zero, negative or minus infinity. *)
Definition not_positive (x : spec_float) : Prop :=
  match x with
  | S754_zero _ | S754_finite true _ _ | S754_infinity true => True
  | _ => False
  end.

(** The running score [x] when the exact score is [z]: while [z] is
    positive, [x] is [z]; from then on [x] is not positive. *)
Definition score_state (z : Z) (x : JS.number) : Prop :=
  (exists j : nat,
      (1 <= j <= 20)%nat /\ z = (5 * Z.of_nat j)%Z /\ x = JS.of_Z z)
  \/ ((z <= 0)%Z /\ not_positive (Prim2SF x)).

(** ** Predictive maintenance *)

(** The sensors whose last reading is poor, and the critical
    vulnerabilities, as [calculateDeviceHealth] counts them. *)
Definition failing_sensors (device : IoTDevice) : nat :=
  length (filter (fun s => match quality (lastReading s) with
                           | poor => true
                           | _ => false
                           end) (sensors device)).

Definition critical_vulnerabilities (device : IoTDevice) : nat :=
  length (filter (fun v => match vuln_severity v with
                           | critical => true
                           | _ => false
                           end) (vulnerabilities (security device))).

(** The health of a device when the clock reads [now]. *)
Definition health_at (now : Date) (device : IoTDevice) : JS.number :=
  let connectivity_part :=
    if (300000 <? now - lastSeen (connectivity device))%Z
    then 1.0 - 0.2 else 1.0 in
  let sensor_part :=
    JS.of_Z (Z.of_nat (failing_sensors device))
    / JS.of_Z (Z.of_nat (length (sensors device))) * 0.3 in
  let security_part :=
    JS.of_Z (Z.of_nat (critical_vulnerabilities device)) * 0.1 in
  JS.Math_max 0 (connectivity_part - sensor_part - security_part).

(** A step that reads the clock [n] times and does nothing else. *)
Record clock_read (n : nat) (s s' : State) : Prop := {
  cr_service : service s' = service s;
  cr_timers : timers s' = timers s;
  cr_console : console s' = console s;
  cr_random : random_pos (world s') = random_pos (world s);
  cr_uuid : uuid_pos (world s') = uuid_pos (world s);
  cr_clock : clock_pos (world s') = (clock_pos (world s) + n)%nat;
  cr_sources :
    random_src (world s') = random_src (world s)
    /\ uuid_src (world s') = uuid_src (world s)
    /\ clock_src (world s') = clock_src (world s)
}.

(** What [predictMaintenanceNeeds] returns for the devices [todo] when the
    clock reads [clock 0], [clock 1], ... *)
Fixpoint forecast (todo : list IoTDevice) (clock : nat -> Date)
  : list Prediction :=
  match todo with
  | [] => []
  | device :: rest =>
      let healthScore := health_at (clock 0%nat) device in
      ((if JS.lt healthScore 0.8
        then [ {| prediction_deviceId := id device;
                  component := "sensor-array";
                  probability := 1 - healthScore;
                  timeToFailure := estimateTimeToFailure healthScore;
                  recommendedAction :=
                    getMaintenanceRecommendation healthScore |} ]
        else [])
       ++ forecast rest (fun i => clock (S i)))%list
  end.

(** ** Sample worlds and configurations *)

Module Sample.

(** Identifiers that never repeat. *)
Fixpoint unary (n : nat) : string :=
  match n with
  | O => "u"
  | S k => "i" ++ unary k
  end.

(** Stand-ins for the trigonometric functions in the sample runs. *)
Definition flat (x : JS.number) : JS.number := 0.
Definition flat2 (y x : JS.number) : JS.number := 0.

(** The clock starts on 14 November 2023 and ticks at every reading. *)
Definition world_of (draws : nat -> JS.number) : World :=
  {| random_src := draws; random_pos := 0;
     uuid_src := unary; uuid_pos := 0;
     clock_src := fun n => (1700000000000 + Z.of_nat n)%Z; clock_pos := 0 |}.

Definition config_of (ss : list SensorConfig) : DeviceConfig :=
  {| cfg_type := dev_sensor;
     cfg_location := {| lat := 0; lng := 0; address := None |};
     cfg_sensors := ss;
     cfg_connectivity :=
       {| cfg_conn_type := wifi; cfg_strength := 80;
          cfg_protocol := "WiFi 6" |} |}.

Definition sensor_config (t : SensorType) (lo hi : JS.number)
  : SensorConfig :=
  {| cfg_sensor_type := t; cfg_unit := "unit"; cfg_range := (lo, hi);
     cfg_accuracy := 0.95 |}.

(** The service once [initializeIoT] has returned: it went on twice after
    [new IoTService()]. *)
Definition initialized_service (w : World) : State :=
  perform flat flat flat2 ResumeInitializeIoT
    (perform flat flat flat2 ResumeInitializeIoT (new_IoTService w)).

(** A service with one registered device. *)
Definition service_with (draws : nat -> JS.number) (ss : list SensorConfig)
  : State :=
  snd (registerDevice (config_of ss) (initialized_service (world_of draws))).

(** The same through the actions of a run: a device with two sensors is
    registered, then the poll timer fires once. *)
Definition two_sensors : State :=
  perform flat flat flat2
    (CallRegisterDevice
       (config_of [sensor_config temperature (-40) 60;
                   sensor_config humidity 0 100]))
    (initialized_service (world_of (fun _ => 0.5))).

Definition after_one_poll : State :=
  perform flat flat flat2 FirePoll two_sensors.

(** The poll timer fires [n] times. *)
Fixpoint fire_polls (n : nat) (s : State) : State :=
  match n with
  | O => s
  | S k => perform flat flat flat2 FirePoll (fire_polls k s)
  end.

(** One sensor whose range is from 0 to 1e-200. The first 28 random numbers
    are 0, which makes the first four readings 0; the others are one half,
    which makes the fifth reading 1e-200. *)
Definition tiny_draws (n : nat) : JS.number :=
  if (n <? 28)%nat then 0 else 0.5.

Definition tiny_sensor : State :=
  perform flat flat flat2
    (CallRegisterDevice (config_of [sensor_config gps 0 1e-200]))
    (initialized_service (world_of tiny_draws)).

Definition four_zeros : State := fire_polls 4 tiny_sensor.

(** A position sensor with range from 0 to 1 and a camera whose range is
    the single value 1000. The first 65 random numbers are 0: five poll
    cycles in which the position reads 0; the others are one half: the
    position then reads 1. *)
Definition late_draws (n : nat) : JS.number :=
  if (n <? 65)%nat then 0 else 0.5.

Definition position_and_camera : State :=
  perform flat flat flat2
    (CallRegisterDevice
       (config_of [sensor_config gps 0 1; sensor_config camera 1000 1000]))
    (initialized_service (world_of late_draws)).

Definition six_cycles : State := fire_polls 6 position_and_camera.

(** Objects to call the functions of the service with. *)
Definition blank_reading : SensorReading :=
  {| reading_id := ""; value := 0; timestamp := 0%Z; quality := good;
     metadata := None |}.

Definition blank_sensor (t : SensorType) (lo hi : JS.number) : Sensor :=
  {| sensor_id := "s"; sensor_type := t; sensor_unit := "unit";
     range := (lo, hi); accuracy := 0.95; lastReading := blank_reading;
     calibration := {| lastCalibrated := 0%Z; nextCalibration := 0%Z;
                       offset := 0; scale := 1 |} |}.

Definition blank_device (k : string) (ss : list Sensor) : IoTDevice :=
  {| id := k; type := dev_sensor;
     location := {| lat := 0; lng := 0; address := None |};
     status := online; sensors := ss;
     connectivity := {| conn_type := wifi; strength := 80;
                        protocol := "WiFi 6"; lastSeen := 0%Z;
                        dataUsage := 0 |};
     firmware := {| version := "1.0.0"; lastUpdate := 0%Z;
                    updateAvailable := false; autoUpdate := true |};
     security := {| encrypted := true; certificateExpiry := 0%Z;
                    lastSecurityScan := 0%Z; vulnerabilities := [] |} |}.

Definition reading_of (v : JS.number) : SensorReading :=
  {| reading_id := "r"; value := v; timestamp := 0%Z; quality := good;
     metadata := None |}.

End Sample.

(** ** Sample places *)

Module Atlas.

(** [Math.sin], [Math.cos] and [Math.atan2] for the small angles of the
    sample: the first terms of their power series. The language leaves
    the precision of the three functions to the implementation. *)
Definition sine (x : JS.number) : JS.number :=
  x - x * x * x / 6 + x * x * x * x * x / 120.

Definition cosine (x : JS.number) : JS.number :=
  1 - x * x / 2 + x * x * x * x / 24.

Definition arctangent2 (y x : JS.number) : JS.number :=
  let t := y / x in t - t * t * t / 3 + t * t * t * t * t / 5.

(** A device without sensors at a place. *)
Definition device_at (latitude longitude : JS.number) : DeviceConfig :=
  {| cfg_type := dev_beacon;
     cfg_location := {| lat := latitude; lng := longitude; address := None |};
     cfg_sensors := [];
     cfg_connectivity :=
       {| cfg_conn_type := lora; cfg_strength := 75;
          cfg_protocol := "LoRaWAN" |} |}.

(** Three devices, registered in this order: about 0.99925 km, a little
    more than 1 km, and one degree of latitude (about 111.19 km) from the
    point at latitude 0 and longitude 0. Their ids are u, iu and iiu. *)
Definition three_places : State :=
  perform sine cosine arctangent2 (CallRegisterDevice (device_at 1 0))
    (perform sine cosine arctangent2
       (CallRegisterDevice (device_at 0 0.00899322))
       (perform sine cosine arctangent2
          (CallRegisterDevice (device_at 0.006 0.00669))
          (new_IoTService (Sample.world_of (fun _ => 0.5))))).

(** The devices within [r] kilometres of the point. *)
Definition around (r : JS.number) : LocationFilter :=
  {| flt_lat := 0; flt_lng := 0; radius := r |}.

End Atlas.

(** ** Samples for the rest of the class *)

Module Depot.

(** A device whose only sensor last gave a poor reading, put in the
    registry of a fresh service. *)
Definition worn_sensor : Sensor :=
  with_lastReading
    {| reading_id := "r"; value := 0; timestamp := 0%Z; quality := poor;
       metadata := None |}
    (Sample.blank_sensor motion 0 100).

Definition worn_service : State :=
  set_devices
    (fun m => JS.set m "worn" (Sample.blank_device "worn" [worn_sensor]))
    (new_IoTService (Sample.world_of (fun _ => 0.5))).

Definition crossings : list Intersection :=
  [ {| intersection_lat := 1; intersection_lng := 2;
       intersection_name := "Main and First" |};
    {| intersection_lat := 3; intersection_lng := 4;
       intersection_name := "Main and Second" |} ].

(** What an edge function deployed on the sample device is stored as. *)
Definition relay : Handler := EdgeHandler "u" "relay".

(** A device that is registered as soon as the constructor has returned,
    before [initializeIoT] goes on. *)
Definition registered_early : State :=
  perform Sample.flat Sample.flat Sample.flat2
    (CallRegisterDevice
       (Sample.config_of [Sample.sensor_config temperature (-40) 60]))
    (new_IoTService (Sample.world_of (fun _ => 0.5))).

End Depot.

(** * Properties *)

(** ** The order on numbers *)

Module NumberOrder.

Lemma SFcompare_antisym a b :
  SFcompare b a = option_map CompOpp (SFcompare a b).
Proof.
  destruct a as [sa|sa| |sa ma ea], b as [sb|sb| |sb mb eb]; simpl;
    try reflexivity;
    try (destruct sa; reflexivity); try (destruct sb; reflexivity);
    try (destruct sa, sb; reflexivity).
  destruct sa, sb; simpl; try reflexivity;
    rewrite (Z.compare_antisym ea eb);
    destruct (ea ?= eb)%Z; simpl; try reflexivity;
    rewrite Pos.compare_cont_antisym; simpl;
    now rewrite ?CompOpp_involutive.
Qed.

Lemma SFcompare_refl a : a <> S754_nan -> SFcompare a a = Some Eq.
Proof.
  destruct a as [s|s| |s m e]; simpl; intros H; try congruence.
  - now destruct s.
  - destruct s; rewrite Z.compare_refl; fold (Pos.compare m m);
      now rewrite Pos.compare_refl.
Qed.

Lemma SFcompare_None a b :
  SFcompare a b = None <-> a = S754_nan \/ b = S754_nan.
Proof.
  destruct a as [sa|sa| |sa ma ea], b as [sb|sb| |sb mb eb]; simpl;
    split; intros H; try discriminate; auto;
    try (destruct H; discriminate).
Qed.

Lemma cmp_antisym x y : cmp y x = option_map CompOpp (cmp x y).
Proof. apply SFcompare_antisym. Qed.

Lemma ltb_cmp x y : (x <? y) = true <-> cmp x y = Some Lt.
Proof.
  rewrite FloatAxioms.ltb_spec. unfold SFltb, cmp.
  destruct (SFcompare (Prim2SF x) (Prim2SF y)) as [[]|];
    split; congruence.
Qed.

Lemma leb_cmp x y :
  (x <=? y) = true <-> cmp x y = Some Lt \/ cmp x y = Some Eq.
Proof.
  rewrite FloatAxioms.leb_spec. unfold SFleb, cmp.
  destruct (SFcompare (Prim2SF x) (Prim2SF y)) as [[]|];
    split; intros H; try congruence; auto; destruct H; congruence.
Qed.

Lemma eqb_cmp x y : (x =? y) = true <-> cmp x y = Some Eq.
Proof.
  rewrite FloatAxioms.eqb_spec. unfold SFeqb, cmp.
  destruct (SFcompare (Prim2SF x) (Prim2SF y)) as [[]|];
    split; congruence.
Qed.

Lemma is_nan_spec x : is_nan x = true <-> Prim2SF x = S754_nan.
Proof.
  unfold is_nan. rewrite negb_true_iff.
  destruct (x =? x) eqn:E.
  - apply eqb_cmp in E. unfold cmp in E. split; [discriminate|].
    intros H. rewrite H in E. discriminate.
  - split; [|reflexivity]. intros _.
    destruct (Prim2SF x) eqn:P; try reflexivity;
      assert (C : cmp x x = Some Eq)
        by (unfold cmp; rewrite P; apply SFcompare_refl; discriminate);
      apply eqb_cmp in C; congruence.
Qed.

Lemma not_nan_spec x : is_nan x = false <-> Prim2SF x <> S754_nan.
Proof.
  rewrite <- is_nan_spec. destruct (is_nan x); split; congruence.
Qed.

Lemma cmp_None x y :
  cmp x y = None <-> is_nan x = true \/ is_nan y = true.
Proof. unfold cmp. rewrite SFcompare_None, !is_nan_spec. reflexivity. Qed.

Lemma cmp_refl x : is_nan x = false -> cmp x x = Some Eq.
Proof. intros H. apply SFcompare_refl. now apply not_nan_spec. Qed.

Lemma leb_not_nan x y :
  (x <=? y) = true -> is_nan x = false /\ is_nan y = false.
Proof.
  intros H. apply leb_cmp in H.
  destruct (is_nan x) eqn:Nx, (is_nan y) eqn:Ny; auto;
    assert (C : cmp x y = None) by (apply cmp_None; auto);
    destruct H; congruence.
Qed.

Lemma leb_refl x : is_nan x = false -> (x <=? x) = true.
Proof. intros H. apply leb_cmp. right. now apply cmp_refl. Qed.

Lemma ltb_leb x y : (x <? y) = true -> (x <=? y) = true.
Proof. intros H. apply leb_cmp. left. now apply ltb_cmp. Qed.

Lemma eqb_leb x y : (x =? y) = true -> (x <=? y) = true.
Proof. intros H. apply leb_cmp. right. now apply eqb_cmp. Qed.

(** Two numbers, neither [NaN], neither below the other, are equal. *)
Lemma cmp_Eq_of_not_ltb x y :
  is_nan x = false -> is_nan y = false ->
  (x <? y) = false -> (y <? x) = false -> cmp x y = Some Eq.
Proof.
  intros Nx Ny L1 L2.
  destruct (cmp x y) as [[]|] eqn:C.
  - reflexivity.
  - apply ltb_cmp in C. congruence.
  - assert (C' : cmp y x = Some Lt) by (rewrite cmp_antisym, C; reflexivity).
    apply ltb_cmp in C'. congruence.
  - apply cmp_None in C. destruct C; congruence.
Qed.

Lemma cmp_Eq_leb x y : cmp x y = Some Eq -> (x <=? y) = true /\ (y <=? x) = true.
Proof.
  intros C. split; apply leb_cmp; right; [assumption|].
  rewrite cmp_antisym, C. reflexivity.
Qed.

(** [Math.min] and [Math.max] return one of their arguments, on the right
    side of the other. *)
Lemma Math_min_spec a b :
  is_nan a = false -> is_nan b = false ->
  (JS.Math_min a b = a \/ JS.Math_min a b = b) /\
  (JS.Math_min a b <=? a) = true /\ (JS.Math_min a b <=? b) = true.
Proof.
  intros Na Nb. unfold JS.Math_min. rewrite Na, Nb. simpl.
  destruct (a <? b) eqn:L1.
  - repeat split; auto using leb_refl, ltb_leb.
  - destruct (b <? a) eqn:L2.
    + repeat split; auto using leb_refl, ltb_leb.
    + destruct (cmp_Eq_leb _ _ (cmp_Eq_of_not_ltb _ _ Na Nb L1 L2)) as [E1 E2].
      destruct (get_sign a); repeat split; auto using leb_refl.
Qed.

Lemma Math_max_spec a b :
  is_nan a = false -> is_nan b = false ->
  (JS.Math_max a b = a \/ JS.Math_max a b = b) /\
  (a <=? JS.Math_max a b) = true /\ (b <=? JS.Math_max a b) = true.
Proof.
  intros Na Nb. unfold JS.Math_max. rewrite Na, Nb. simpl.
  destruct (a <? b) eqn:L1.
  - repeat split; auto using leb_refl, ltb_leb.
  - destruct (b <? a) eqn:L2.
    + repeat split; auto using leb_refl, ltb_leb.
    + destruct (cmp_Eq_leb _ _ (cmp_Eq_of_not_ltb _ _ Na Nb L1 L2)) as [E1 E2].
      destruct (get_sign a); repeat split; auto using leb_refl.
Qed.

(** Clamping a number into a range that is not empty. *)
Lemma clamp_in_range lo hi x :
  (lo <=? hi) = true -> is_nan x = false ->
  let v := JS.Math_max lo (JS.Math_min hi x) in
  (lo <=? v) = true /\ (v <=? hi) = true.
Proof.
  intros Hr Nx v.
  destruct (leb_not_nan _ _ Hr) as [Nlo Nhi].
  destruct (Math_min_spec _ _ Nhi Nx) as (Hm & Hm1 & Hm2).
  assert (Nm : is_nan (JS.Math_min hi x) = false)
    by (destruct Hm as [-> | ->]; assumption).
  destruct (Math_max_spec _ _ Nlo Nm) as (Hv & Hv1 & Hv2).
  split; [exact Hv1|].
  subst v. destruct Hv as [-> | ->]; assumption.
Qed.

(** A [NaN] goes through the clamp. *)
Lemma clamp_nan lo hi x :
  is_nan x = true -> JS.Math_max lo (JS.Math_min hi x) = nan.
Proof.
  intros Nx. unfold JS.Math_max, JS.Math_min. rewrite Nx, orb_true_r.
  change (is_nan nan) with true. now rewrite orb_true_r.
Qed.

End NumberOrder.

(** ** Magnitudes: numbers that are neither [NaN] nor infinite *)

Module FloatBounds.

Local Open Scope Z_scope.

(** digits *)
Lemma digits2_pos_gt p : Zpos p < 2 ^ Zpos (digits2_pos p).
Proof.
  induction p as [p IH|p IH|]; simpl digits2_pos.
  - rewrite Pos2Z.inj_succ, Z.pow_succ_r by lia. lia.
  - rewrite Pos2Z.inj_succ, Z.pow_succ_r by lia. lia.
  - reflexivity.
Qed.

Lemma digits2_pos_le p : forall k, 0 <= k -> Zpos p < 2 ^ k -> Zpos (digits2_pos p) <= k.
Proof.
  induction p as [p IH|p IH|]; intros k Hk H; simpl digits2_pos.
  - assert (k <> 0) by (intros ->; simpl in H; lia).
    replace k with (Z.succ (k - 1)) in H by lia.
    rewrite Z.pow_succ_r in H by lia.
    rewrite Pos2Z.inj_succ. specialize (IH (k - 1)). lia.
  - assert (k <> 0) by (intros ->; simpl in H; lia).
    replace k with (Z.succ (k - 1)) in H by lia.
    rewrite Z.pow_succ_r in H by lia.
    rewrite Pos2Z.inj_succ. specialize (IH (k - 1)). lia.
  - assert (k <> 0) by (intros ->; simpl in H; lia). lia.
Qed.

Lemma Zdigits2_nonneg m : 0 <= Zdigits2 m.
Proof. destruct m; simpl; lia. Qed.

Lemma Zdigits2_gt m : Z.abs m < 2 ^ Zdigits2 m.
Proof. destruct m; simpl; try apply digits2_pos_gt. lia. Qed.

Lemma Zdigits2_le m k : 0 <= k -> Z.abs m < 2 ^ k -> Zdigits2 m <= k.
Proof. destruct m; simpl; intros; try apply digits2_pos_le; auto. Qed.

Lemma pow2_le a b : 0 <= a <= b -> 2 ^ a <= 2 ^ b.
Proof. intros. apply Z.pow_le_mono_r; lia. Qed.

Lemma pow2_pos a : 0 <= a -> 0 < 2 ^ a.
Proof. intros. apply Z.pow_pos_nonneg; lia. Qed.

(** shifting right *)
Lemma shr_1_digits r :
  0 <= shr_m r ->
  0 <= shr_m (shr_1 r)
  /\ Zdigits2 (shr_m (shr_1 r)) = Z.max 0 (Zdigits2 (shr_m r) - 1).
Proof.
  destruct r as [m rb sb]. simpl. intros H.
  destruct m as [|p|p]; [simpl; lia| |lia].
  destruct p; cbn [shr_m Zdigits2 digits2_pos]; rewrite ?Pos2Z.inj_succ; try lia.

Qed.

Lemma iter_shr_1_digits p : forall r,
  0 <= shr_m r ->
  0 <= shr_m (SpecFloat.iter_pos shr_1 p r)
  /\ Zdigits2 (shr_m (SpecFloat.iter_pos shr_1 p r))
     = Z.max 0 (Zdigits2 (shr_m r) - Zpos p).
Proof.
  induction p as [p IH|p IH|]; intros r H; cbn [SpecFloat.iter_pos].
  - destruct (shr_1_digits r H) as [H1 E1].
    destruct (IH _ H1) as [H2 E2]. destruct (IH _ H2) as [H3 E3].
    split; [exact H3|]. rewrite E3, E2, E1.
    pose proof (Zdigits2_nonneg (shr_m r)). lia.
  - destruct (IH _ H) as [H2 E2]. destruct (IH _ H2) as [H3 E3].
    split; [exact H3|]. rewrite E3, E2.
    pose proof (Zdigits2_nonneg (shr_m r)). lia.
  - apply shr_1_digits, H.
Qed.

Lemma shr_record_of_loc_m m l : shr_m (shr_record_of_loc m l) = m.
Proof. destruct l as [|[]]; reflexivity. Qed.

Lemma fexp_eq x : fexp prec emax x = Z.max (x - 53) (-1074).
Proof. reflexivity. Qed.

Lemma shr_fexp_small m e l k :
  0 <= m -> Zdigits2 m + e <= k -> e <= 971 -> -1000 <= k <= 1024 ->
  0 <= shr_m (fst (shr_fexp prec emax m e l))
  /\ Zdigits2 (shr_m (fst (shr_fexp prec emax m e l)))
     + snd (shr_fexp prec emax m e l) <= k
  /\ snd (shr_fexp prec emax m e l) <= 971.
Proof.
  intros Hm HD He Hk. unfold shr_fexp, shr. rewrite fexp_eq.
  pose proof (Zdigits2_nonneg m) as Hd.
  destruct (Z.max (Zdigits2 m + e - 53) (-1074) - e) as [|p|p] eqn:En;
    simpl fst; simpl snd; rewrite ?shr_record_of_loc_m; try (split; [lia|lia]).
  destruct (iter_shr_1_digits p (shr_record_of_loc m l)) as [H1 E1].
  { now rewrite shr_record_of_loc_m. }
  rewrite shr_record_of_loc_m in E1. rewrite E1. lia.
Qed.

Lemma Zdigits2_succ m : 0 <= m -> Zdigits2 (m + 1) <= Zdigits2 m + 1.
Proof.
  intros H. apply Zdigits2_le.
  - pose proof (Zdigits2_nonneg m). lia.
  - pose proof (Zdigits2_gt m) as G. pose proof (Zdigits2_nonneg m).
    rewrite Z.pow_add_r by lia. change (2 ^ 1) with 2. lia.
Qed.

Lemma round_nearest_even_digits m l :
  0 <= m ->
  0 <= round_nearest_even m l
  /\ Zdigits2 (round_nearest_even m l) <= Zdigits2 m + 1.
Proof.
  intros H. pose proof (Zdigits2_succ m H).
  unfold round_nearest_even. destruct l as [|[]]; try destruct (Z.even m); lia.
Qed.

Lemma small_mono a b x : a <= b -> small a x -> small b x.
Proof. destruct x; simpl; auto. lia. Qed.

Lemma binary_round_aux_small sx mx ex lx k :
  0 <= mx -> Zdigits2 mx + ex <= k -> ex <= 971 -> -1000 <= k <= 1023 ->
  small (k + 1) (binary_round_aux prec emax sx mx ex lx).
Proof.
  intros Hm HD He Hk. unfold binary_round_aux.
  destruct (shr_fexp_small mx ex lx k Hm HD He ltac:(lia)) as (H1 & D1 & E1).
  destruct (shr_fexp prec emax mx ex lx) as [r1 e1]. simpl fst in *. simpl snd in *.
  destruct (round_nearest_even_digits (shr_m r1) (loc_of_shr_record r1) H1) as [H2 D2].
  destruct (shr_fexp_small (round_nearest_even (shr_m r1) (loc_of_shr_record r1)) e1 loc_Exact (k + 1) H2 ltac:(lia) E1 ltac:(lia)) as (H3 & D3 & E3).
  destruct (shr_fexp prec emax _ e1 loc_Exact) as [r2 e2]. simpl fst in *. simpl snd in *.
  destruct (shr_m r2) as [|p|p]; simpl.
  - exact I.
  - change (emax - prec) with 971.
    destruct (Z.leb_spec e2 971); simpl; [exact D3|lia].
  - lia.
Qed.

Lemma digits2_pos_iter_xO d : forall m,
  Zpos (digits2_pos (Pos.iter xO m d)) = Zpos (digits2_pos m) + Zpos d.
Proof.
  induction d as [|d IH] using Pos.peano_ind; intros m.
  - simpl. rewrite Pos2Z.inj_succ. lia.
  - rewrite Pos.iter_succ. simpl digits2_pos.
    rewrite Pos2Z.inj_succ, IH, Pos2Z.inj_succ. lia.
Qed.

Lemma shl_align_spec mx ex ex' :
  Zpos (digits2_pos (fst (shl_align mx ex ex'))) + snd (shl_align mx ex ex')
  = Zpos (digits2_pos mx) + ex
  /\ snd (shl_align mx ex ex') <= ex
  /\ (ex' <= ex -> snd (shl_align mx ex ex') = ex').
Proof.
  unfold shl_align. destruct (ex' - ex) as [|d|d] eqn:E; simpl fst; simpl snd.
  - repeat split; lia.
  - repeat split; lia.
  - pose proof (digits2_pos_iter_xO d mx) as D.
    rewrite D. repeat split; lia.
Qed.

Lemma binary_normalize_small m e s k :
  Zdigits2 m + e <= k -> e <= 971 -> -1000 <= k <= 1023 ->
  small (k + 1) (binary_normalize prec emax m e s).
Proof.
  intros HD He Hk. unfold binary_normalize, binary_round.
  destruct m as [|p|p]; [exact I| |];
    destruct (shl_align_spec p e (fexp prec emax (Zpos (digits2_pos p) + e)))
      as (A1 & A2 & _);
    destruct (shl_align p e _) as [mz ez]; simpl fst in *; simpl snd in *;
    apply binary_round_aux_small; simpl Zdigits2 in *; lia.
Qed.

Lemma pos_lt_pow2 p k : Zpos (digits2_pos p) <= k -> Zpos p < 2 ^ k.
Proof.
  intros H. pose proof (digits2_pos_gt p).
  assert (2 ^ Zpos (digits2_pos p) <= 2 ^ k) by (apply pow2_le; lia). lia.
Qed.

Lemma SFmul_small a b x y :
  small a x -> small b y -> -1000 <= a + b <= 900 ->
  small (a + b + 1) (SF64mul x y).
Proof.
  destruct x as [sx|sx| |sx mx ex], y as [sy|sy| |sy my ey];
    unfold SF64mul, SFmul, small; try tauto.
  intros Ha Hb Hk. apply binary_round_aux_small; try lia.
  assert (Zdigits2 (Zpos (mx * my))
          <= Zpos (digits2_pos mx) + Zpos (digits2_pos my)).
  { apply Zdigits2_le; [lia|].
    pose proof (digits2_pos_gt mx). pose proof (digits2_pos_gt my).
    rewrite Z.pow_add_r by lia. simpl Z.abs. rewrite Pos2Z.inj_mul. nia. }
  lia.
Qed.

Lemma aligned_sum_small (op : Z -> Z -> Z) sx mx ex sy my ey a b s :
  (forall u v, Z.abs (op u v) <= Z.abs u + Z.abs v) ->
  Zpos (digits2_pos mx) + ex <= a -> Zpos (digits2_pos my) + ey <= b ->
  -1000 <= Z.max a b <= 900 ->
  small (Z.max a b + 2)
    (binary_normalize prec emax
       (op (cond_Zopp sx (Zpos (fst (shl_align mx ex (Z.min ex ey)))))
           (cond_Zopp sy (Zpos (fst (shl_align my ey (Z.min ex ey))))))
       (Z.min ex ey) s).
Proof.
  intros Hop Ha Hb Hk.
  set (ez := Z.min ex ey).
  destruct (shl_align_spec mx ex ez) as (X1 & X2 & X3).
  destruct (shl_align_spec my ey ez) as (Y1 & Y2 & Y3).
  specialize (X3 ltac:(unfold ez; lia)). specialize (Y3 ltac:(unfold ez; lia)).
  set (mx' := fst (shl_align mx ex ez)) in *.
  set (my' := fst (shl_align my ey ez)) in *.
  rewrite X3 in X1. rewrite Y3 in Y1.
  set (M := Z.max a b) in *.
  assert (Hx : Zpos mx' < 2 ^ (M - ez)) by (apply pos_lt_pow2; unfold M; lia).
  assert (Hy : Zpos my' < 2 ^ (M - ez)) by (apply pos_lt_pow2; unfold M; lia).
  replace (M + 2) with ((M + 1) + 1) by lia.
  apply binary_normalize_small; try (unfold ez; lia).
  assert (Zdigits2 (op (cond_Zopp sx (Zpos mx')) (cond_Zopp sy (Zpos my')))
          <= M - ez + 1).
  { assert (0 <= M - ez) by (unfold M, ez; lia).
    apply Zdigits2_le; [lia|].
    rewrite Z.pow_add_r by lia. change (2 ^ 1) with 2.
    pose proof (Hop (cond_Zopp sx (Zpos mx')) (cond_Zopp sy (Zpos my'))).
    assert (Z.abs (cond_Zopp sx (Zpos mx')) = Zpos mx')
      by (destruct sx; simpl; lia).
    assert (Z.abs (cond_Zopp sy (Zpos my')) = Zpos my')
      by (destruct sy; simpl; lia).
    lia. }
  lia.
Qed.

Lemma SFadd_small a b x y :
  small a x -> small b y -> -1000 <= Z.max a b <= 900 ->
  small (Z.max a b + 2) (SF64add x y).
Proof.
  destruct x as [sx|sx| |sx mx ex], y as [sy|sy| |sy my ey];
    unfold SF64add, SFadd; cbn [small];
    try tauto; intros Ha Hb Hk; try lia.
  - destruct sx, sy; exact I.
  - apply aligned_sum_small; auto. intros; lia.
Qed.

Lemma SFsub_small a b x y :
  small a x -> small b y -> -1000 <= Z.max a b <= 900 ->
  small (Z.max a b + 2) (SF64sub x y).
Proof.
  destruct x as [sx|sx| |sx mx ex], y as [sy|sy| |sy my ey];
    unfold SF64sub, SFsub; cbn [small];
    try tauto; intros Ha Hb Hk; try lia.
  - destruct sx, sy; exact I.
  - apply aligned_sum_small; auto. intros; lia.
Qed.

Lemma SFopp_small a x : small a x -> small a (SFopp x).
Proof. destruct x; simpl; auto. Qed.

(** Division by a finite number whose exponent is at least [- c]. *)
Lemma SFdiv_small a c x sy my ey :
  small a x -> - c <= ey -> -1000 <= a + c <= 900 ->
  small (a + c + 1) (SF64div x (S754_finite sy my ey)).
Proof.
  destruct x as [sx|sx| |sx mx ex]; unfold SF64div, SFdiv; cbn [small];
    try tauto.
  intros Ha Hc Hk.
  unfold SFdiv_core_binary.
  set (e' := Z.min _ (ex - ey)).
  set (s := ex - ey - e').
  assert (Hs : 0 <= s) by (unfold s, e'; lia).
  set (m' := match s with 0 => Zpos mx | Zpos _ => Z.shiftl (Zpos mx) s | Zneg _ => 0 end).
  assert (Hm' : 0 <= m' < 2 ^ (Zpos (digits2_pos mx) + s)).
  { pose proof (digits2_pos_gt mx) as G. unfold m'.
    destruct s as [|p|p] eqn:Es.
    - rewrite Z.add_0_r. lia.
    - rewrite Z.shiftl_mul_pow2 by lia. rewrite Z.pow_add_r by lia.
      pose proof (pow2_pos (Zpos p) ltac:(lia)). nia.
    - lia. }
  pose proof (Z_div_mod m' (Zpos my) ltac:(lia)) as DM.
  destruct (Z.div_eucl m' (Zpos my)) as [q r].
  destruct DM as [Eq Hr].
  assert (Hq : 0 <= q <= m') by nia.
  assert (He' : e' <= ex - ey) by (unfold e'; lia).
  assert (Hd : Zdigits2 q <= Zpos (digits2_pos mx) + s)
    by (apply Zdigits2_le; lia).
  apply binary_round_aux_small; unfold s in *; lia.
Qed.

Lemma bounded_mono a b x : a <= b -> bounded_by a x -> bounded_by b x.
Proof. apply small_mono. Qed.

Lemma add_bounded a b x y :
  bounded_by a x -> bounded_by b y -> -1000 <= Z.max a b <= 900 ->
  bounded_by (Z.max a b + 2) (x + y)%float.
Proof. unfold bounded_by. rewrite add_spec. apply SFadd_small. Qed.

Lemma sub_bounded a b x y :
  bounded_by a x -> bounded_by b y -> -1000 <= Z.max a b <= 900 ->
  bounded_by (Z.max a b + 2) (x - y)%float.
Proof. unfold bounded_by. rewrite sub_spec. apply SFsub_small. Qed.

Lemma mul_bounded a b x y :
  bounded_by a x -> bounded_by b y -> -1000 <= a + b <= 900 ->
  bounded_by (a + b + 1) (x * y)%float.
Proof. unfold bounded_by. rewrite mul_spec. apply SFmul_small. Qed.

Lemma opp_bounded a x : bounded_by a x -> bounded_by a (- x)%float.
Proof. unfold bounded_by. rewrite opp_spec. apply SFopp_small. Qed.

Lemma div_bounded a c x y sy my ey :
  Prim2SF y = S754_finite sy my ey ->
  bounded_by a x -> - c <= ey -> -1000 <= a + c <= 900 ->
  bounded_by (a + c + 1) (x / y)%float.
Proof.
  unfold bounded_by. intros E. rewrite div_spec, E. apply SFdiv_small.
Qed.

Lemma of_uint63_bounded n : bounded_by 64 (of_uint63 n).
Proof.
  unfold bounded_by. rewrite of_uint63_spec.
  change 64 with (63 + 1). apply binary_normalize_small; try lia.
  pose proof (Uint63.to_Z_bounded n) as B.
  assert (Zdigits2 (Uint63.to_Z n) <= 63).
  { apply Zdigits2_le; [lia|].
    change Uint63.wB with (2 ^ 63) in B. lia. }
  lia.
Qed.

Lemma bounded_not_nan k x : bounded_by k x -> is_nan x = false.
Proof.
  unfold bounded_by. intros H.
  destruct (is_nan x) eqn:N; [|reflexivity].
  unfold is_nan in N. rewrite negb_true_iff, FloatAxioms.eqb_spec in N.
  destruct (Prim2SF x) as [s|s| |s m e]; try contradiction.
  - discriminate.
  - unfold SFeqb, SFcompare in N.
    rewrite Z.compare_refl in N. fold (Pos.compare m m) in N.
    rewrite Pos.compare_refl in N. destruct s; discriminate.
Qed.

Lemma bounded_is_finite k x : bounded_by k x -> is_finite x = true.
Proof.
  intros H. unfold is_finite. rewrite (bounded_not_nan k x H). simpl.
  unfold is_infinity. rewrite FloatAxioms.eqb_spec, abs_spec.
  unfold bounded_by in H.
  destruct (Prim2SF x) as [s|s| |s m e]; try contradiction; reflexivity.
Qed.

Lemma valid_digits s m e :
  valid_binary (S754_finite s m e) = true -> Zpos (digits2_pos m) <= 53.
Proof.
  unfold SpecFloat.valid_binary, bounded, canonical_mantissa.
  rewrite andb_true_iff, Z.eqb_eq, fexp_eq. lia.
Qed.

(** A number no smaller than [-1] and no larger than [1]. *)
Lemma within_one_bounded x :
  (-1 <=? x)%float = true -> (x <=? 1)%float = true -> bounded_by 1 x.
Proof.
  rewrite !FloatAxioms.leb_spec. unfold bounded_by.
  pose proof (Prim2SF_valid x) as V.
  change (Prim2SF (-1)) with (S754_finite true 4503599627370496 (-52)).
  change (Prim2SF 1) with (S754_finite false 4503599627370496 (-52)).
  destruct (Prim2SF x) as [s|s| |s m e]; cbn [small]; auto.
  - destruct s; discriminate.
  - discriminate.
  - apply valid_digits in V.
    unfold SFleb, SFcompare. intros L U.
    destruct s.
    + destruct (Z.compare_spec (-52) e) as [C|C|C]; [lia|discriminate L|lia].
    + destruct (Z.compare_spec e (-52)) as [C|C|C]; [lia|lia|discriminate U].
Qed.

(** A number of the interval from [0], included, to [1], excluded. *)
Lemma unit_interval_bounded x :
  (0 <=? x)%float = true -> (x <? 1)%float = true -> bounded_by 1 x.
Proof.
  intros L U. apply within_one_bounded.
  - rewrite FloatAxioms.leb_spec in *.
    change (Prim2SF 0) with (S754_zero false) in L.
    change (Prim2SF (-1)) with (S754_finite true 4503599627370496 (-52)).
    destruct (Prim2SF x) as [s|s| |s m e]; try discriminate; try reflexivity.
    + destruct s; [discriminate|reflexivity].
    + destruct s; [discriminate|reflexivity].
  - rewrite FloatAxioms.leb_spec. rewrite FloatAxioms.ltb_spec in U.
    unfold SFleb. unfold SFltb in U.
    destruct (SFcompare (Prim2SF x) (Prim2SF 1)) as [[]|]; congruence.
Qed.

Ltac constant_bound :=
  unfold bounded_by; vm_compute; first [exact I | discriminate].

End FloatBounds.

(** ** Maps *)

Module MapFacts.

Lemma get_set_same {V} (m : JS.Map V) k v : JS.get (JS.set m k v) k = Some v.
Proof.
  induction m as [|[k' v'] m IH]; simpl.
  - now rewrite String.eqb_refl.
  - destruct (String.eqb k' k) eqn:E; simpl; rewrite E; auto.
Qed.

Lemma get_set_other {V} (m : JS.Map V) k k' v :
  k <> k' -> JS.get (JS.set m k v) k' = JS.get m k'.
Proof.
  intros N. induction m as [|[k0 v0] m IH]; simpl.
  - destruct (String.eqb_spec k k'); congruence.
  - destruct (String.eqb_spec k0 k) as [->|N0]; simpl.
    + destruct (String.eqb_spec k k'); congruence.
    + now rewrite IH.
Qed.

Lemma get_set {V} (m : JS.Map V) k k' v :
  JS.get (JS.set m k v) k' = if String.eqb k k' then Some v else JS.get m k'.
Proof.
  destruct (String.eqb_spec k k') as [->|N].
  - apply get_set_same.
  - now apply get_set_other.
Qed.

Lemma keys_set_present {V} (m : JS.Map V) k v v0 :
  JS.get m k = Some v0 -> JS.keys (JS.set m k v) = JS.keys m.
Proof.
  induction m as [|[k' v'] m IH]; simpl; [discriminate|].
  destruct (String.eqb k' k) eqn:E; simpl; intros H; [reflexivity|].
  unfold JS.keys in *. now rewrite IH.
Qed.

Lemma keys_set_absent {V} (m : JS.Map V) k v :
  JS.get m k = None -> JS.keys (JS.set m k v) = (JS.keys m ++ [k])%list.
Proof.
  induction m as [|[k' v'] m IH]; simpl; [reflexivity|].
  destruct (String.eqb k' k) eqn:E; simpl; intros H; [discriminate|].
  unfold JS.keys in *. now rewrite IH.
Qed.

Lemma get_None_keys {V} (m : JS.Map V) k :
  JS.get m k = None <-> ~ In k (JS.keys m).
Proof.
  induction m as [|[k' v'] m IH]; simpl.
  - tauto.
  - destruct (String.eqb_spec k' k) as [->|N].
    + split; [discriminate|]. intros H. exfalso. auto.
    + rewrite IH. tauto.
Qed.

End MapFacts.

(** ** Reasoning about computations *)

Lemma bind_Normal {A B} {c : Async A} (k : A -> Async B) {s a s'} :
  c s = (Normal a, s') -> bind c k s = k a s'.
Proof. unfold bind. now intros ->. Qed.

Lemma alerts_app kind l1 l2 :
  alerts kind (l1 ++ l2) = (alerts kind l1 ++ alerts kind l2)%list.
Proof. apply flat_map_app. Qed.

Lemma alerts_plain kind l : Forall plain l -> alerts kind l = [].
Proof.
  induction 1 as [|e l He _ IH]; [reflexivity|].
  simpl. fold (alerts kind l). rewrite IH. now destruct e.
Qed.

Lemma advanced_refl w : advanced w w.
Proof. constructor; auto. Qed.

Lemma advanced_trans w1 w2 w3 :
  advanced w1 w2 -> advanced w2 w3 -> advanced w1 w3.
Proof.
  intros [] []. constructor; try congruence; etransitivity; eassumption.
Qed.

Lemma chatter_refl s : chatter s s.
Proof.
  constructor; auto using advanced_refl.
  exists []. now rewrite app_nil_r.
Qed.

Lemma chatter_trans s1 s2 s3 : chatter s1 s2 -> chatter s2 s3 -> chatter s1 s3.
Proof.
  intros [S1 T1 (l1 & C1 & P1) W1] [S2 T2 (l2 & C2 & P2) W2].
  constructor; try congruence.
  - exists (l1 ++ l2)%list. split.
    + now rewrite C2, C1, app_assoc.
    + now apply Forall_app.
  - eapply advanced_trans; eassumption.
Qed.

Lemma chatter_log s e : plain e -> chatter s (add_log e s).
Proof.
  intros P. constructor; simpl; auto using advanced_refl.
  exists [e]. auto.
Qed.

Lemma processAtEdge_chatter code event s :
  exists r s', processAtEdge code event s = (Normal r, s') /\ chatter s s'.
Proof.
  unfold processAtEdge, bind, Math_random, Date_now, ret. simpl.
  eexists _, _. split; [reflexivity|].
  constructor; simpl; auto.
  - exists []. now rewrite app_nil_r.
  - constructor; simpl; auto.
Qed.

Lemma executeEdgeFunction_chatter deviceId code event s :
  exists s', executeEdgeFunction deviceId code event s = (Normal tt, s')
             /\ chatter s s'.
Proof.
  unfold executeEdgeFunction, console_log, modify.
  unfold bind at 1. cbv beta iota.
  set (s1 := add_log _ s).
  assert (H1 : chatter s s1) by (apply chatter_log; exact I).
  unfold try_catch.
  destruct (processAtEdge_chatter code event s1) as (r & s2 & E & H2).
  rewrite (bind_Normal _ E).
  destruct (fst r).
  - unfold sendToCloud, console_log, modify. eexists. split; [reflexivity|].
    eapply chatter_trans; [exact H1|]. eapply chatter_trans; [exact H2|].
    apply chatter_log. exact I.
  - unfold ret. eexists. split; [reflexivity|].
    eapply chatter_trans; eassumption.
Qed.

Lemma call_handlers_chatter eventType (data : EventData) handlers s :
  exists s',
    forM_ handlers (fun handler =>
      try_catch (call_handler handler data)
        (fun error =>
           console_log
             (LogError ("Event handler error for " ++ eventType ++ ":")))) s
    = (Normal tt, s') /\ chatter s s'.
Proof.
  revert s. induction handlers as [|h hs IH]; intros s; simpl.
  - eexists. split; [reflexivity|]. apply chatter_refl.
  - destruct h as [d c]. simpl.
    destruct (executeEdgeFunction_chatter d c data s) as (s1 & E1 & H1).
    unfold bind, try_catch. rewrite E1.
    destruct (IH s1) as (s2 & E2 & H2).
    exists s2. split; [exact E2|]. eapply chatter_trans; eassumption.
Qed.

Lemma triggerEventHandlers_chatter eventType data s :
  exists s', triggerEventHandlers eventType data s = (Normal tt, s')
             /\ chatter s s'.
Proof.
  unfold triggerEventHandlers. unfold bind at 1, read. cbv beta iota.
  apply call_handlers_chatter.
Qed.

(** An alert is one alert line, then chatter. *)
Lemma triggerAlert_effect kind data s :
  exists s', triggerAlert kind data s = (Normal tt, s')
             /\ chatter (add_log (LogAlert kind data) s) s'.
Proof.
  unfold triggerAlert. unfold bind at 1, console_log, modify.
  cbv beta iota. apply triggerEventHandlers_chatter.
Qed.

(** Steps that only consult the oracles. *)
Ltac oracle_step :=
  constructor; simpl;
  [ reflexivity | reflexivity
  | exists []; now rewrite app_nil_r
  | constructor; simpl; auto; lia ].

Section ReadingFacts.

Variable Math_sin : JS.number -> JS.number.


Lemma getBaseValueForSensor_effect t loc s :
  exists s',
    getBaseValueForSensor Math_sin t loc s
    = (Normal (base_value Math_sin t (clock_reading s) (drawn s)), s')
    /\ chatter s s'
    /\ (random_pos (world s') = 5 + random_pos (world s)
        \/ random_pos (world s') = 6 + random_pos (world s))%nat.
Proof.
  unfold getBaseValueForSensor, base_value, drawn, clock_reading.
  unfold bind, Math_random, Date_now. simpl.
  destruct t; simpl;
    try match goal with
        | |- context [JS.truthy ?v] => destruct (JS.truthy v)
        end;
    unfold ret, bind, Math_random; simpl;
    (eexists; split; [reflexivity|]; split;
     [oracle_step | simpl; auto]).
Qed.

(** The reading [generateSensorReading] builds: the base value plus the
    noise of one more draw, clamped. *)
Lemma generateSensorReading_effect sensor device s :
  exists reading s' k,
    generateSensorReading Math_sin sensor device s = (Normal reading, s')
    /\ chatter s s'
    /\ value reading
       = JS.Math_max (fst (range sensor))
           (JS.Math_min (snd (range sensor))
              (base_value Math_sin (sensor_type sensor) (clock_reading s) (drawn s)
               + (random_src (world s) k - 0.5) * 0.1))
    /\ quality reading = assessDataQuality (value reading) sensor
    /\ metadata reading
       = Some {| meta_deviceId := id device;
                 meta_sensorType := sensor_type sensor;
                 meta_location := location device;
                 meta_connectivity := strength (connectivity device) |}.
Proof.
  unfold generateSensorReading.
  destruct (getBaseValueForSensor_effect (sensor_type sensor)
              (location device) s) as (s1 & E1 & H1 & P1).
  rewrite (bind_Normal _ E1).
  unfold bind, Math_random, randomUUID, Date_now, ret. simpl.
  assert (Rs : random_src (world s1) = random_src (world s))
    by apply H1.
  rewrite Rs.
  eexists _, _, _. split; [reflexivity|]. simpl.
  split; [|auto].
  eapply chatter_trans; [exact H1|]. oracle_step.
Qed.

End ReadingFacts.

Lemma chatter_logged s s' : chatter s s' -> logged [] s s'.
Proof.
  intros [S T (l & C & P) W]. constructor; auto.
  intros kind. rewrite C, alerts_app, (alerts_plain _ _ P). reflexivity.
Qed.

Lemma logged_trans l1 l2 s1 s2 s3 :
  logged l1 s1 s2 -> logged l2 s2 s3 -> logged (l1 ++ l2) s1 s3.
Proof.
  intros [S1 T1 W1 A1] [S2 T2 W2 A2]. constructor; try congruence.
  - eapply advanced_trans; eassumption.
  - intros kind. now rewrite A2, A1, alerts_app, app_assoc.
Qed.

Lemma logged_alert kind data s s' :
  chatter (add_log (LogAlert kind data) s) s' ->
  logged [LogAlert kind data] s s'.
Proof.
  intros [S T (l & C & P) W]. constructor; auto.
  intros k. rewrite C. simpl console.
  rewrite !alerts_app, (alerts_plain _ _ P), app_nil_r. reflexivity.
Qed.

Lemma logged_refl s : logged [] s s.
Proof. apply chatter_logged, chatter_refl. Qed.

Lemma processReading_effect device i sensor reading s :
  exists s',
    processReading device i sensor reading s = (Normal tt, s')
    /\ logged (reading_alerts device sensor reading (history s (id device)))
              s s'.
Proof.
  unfold processReading, reading_alerts.
  unfold detectAnomaly. unfold bind at 1 2, read, ret. cbv beta iota.
  fold (history s (id device)).
  set (anomalous := detectAnomaly_on (history s (id device)) reading).
  assert (A : exists s1,
             (if anomalous
              then triggerAlert "anomaly"
                     {| alert_deviceId := id device;
                        alert_sensorId := sensor_id sensor;
                        alert_reading := reading; alert_threshold := None;
                        alert_severity := medium |}
              else ret tt) s = (Normal tt, s1)
             /\ logged (if anomalous
                        then [LogAlert "anomaly"
                                (anomaly_alert device sensor reading)]
                        else []) s s1).
  { destruct anomalous.
    - destruct (triggerAlert_effect "anomaly"
                  (anomaly_alert device sensor reading) s) as (s1 & E & H).
      exists s1. split; [exact E|]. now apply logged_alert.
    - exists s. split; [reflexivity|]. apply logged_refl. }
  destruct A as (s1 & E1 & L1).
  rewrite (bind_Normal _ E1).
  assert (B : exists s2,
             (match checkThresholds sensor reading with
              | Some thresholdViolation =>
                  triggerAlert "threshold"
                    {| alert_deviceId := id device;
                       alert_sensorId := sensor_id sensor;
                       alert_reading := reading;
                       alert_threshold := Some thresholdViolation;
                       alert_severity := thr_severity thresholdViolation |}
              | None => ret tt
              end) s1 = (Normal tt, s2)
             /\ logged (match checkThresholds sensor reading with
                        | Some t =>
                            [LogAlert "threshold"
                               (threshold_alert device sensor reading t)]
                        | None => []
                        end) s1 s2).
  { destruct (checkThresholds sensor reading) as [t|].
    - destruct (triggerAlert_effect "threshold"
                  (threshold_alert device sensor reading t) s1)
        as (s2 & E & H).
      exists s2. split; [exact E|]. now apply logged_alert.
    - exists s1. split; [reflexivity|]. apply logged_refl. }
  destruct B as (s2 & E2 & L2).
  rewrite (bind_Normal _ E2).
  destruct (triggerEventHandlers_chatter
              ("sensor:" ++ SensorType_name (sensor_type sensor))
              (SensorEvent (id device) i reading) s2) as (s3 & E3 & H3).
  exists s3. split; [exact E3|].
  rewrite <- (app_nil_r (_ ++ _)%list).
  eapply logged_trans; [|apply chatter_logged; exact H3].
  eapply logged_trans; eassumption.
Qed.

Section CollectFacts.

Variable Math_sin : JS.number -> JS.number.

Lemma collect_one_effect device i sensor s :
  exists reading s',
    collect_one Math_sin device i sensor s = (Normal tt, s')
    /\ collected Math_sin device i sensor reading s s'.
Proof.
  unfold collect_one.
  destruct (generateSensorReading_effect Math_sin sensor device s)
    as (reading & s1 & k & E1 & H1 & _).
  rewrite (bind_Normal _ E1).
  unfold mutate_device. unfold bind at 1 2, modify. cbv beta iota.
  match goal with
  | |- context [processReading _ _ _ _ ?st] => set (s3 := st)
  end.
  destruct (processReading_effect device i sensor reading s3)
    as (s4 & E4 & L4).
  exists reading, s4. split; [exact E4|].
  destruct H1 as [S1 T1 (l1 & C1 & P1) W1].
  destruct L4 as [S4 T4 W4 A4].
  assert (Hh : history s3 (id device)
               = push_bounded (history s (id device)) reading).
  { unfold history, s3. simpl. rewrite MapFacts.get_set_same.
    now rewrite S1. }
  constructor.
  - exists s, s1. split; [apply advanced_refl | exact E1].
  - rewrite S4. unfold s3. simpl. rewrite S1. reflexivity.
  - rewrite S4. unfold s3. simpl. rewrite S1. reflexivity.
  - rewrite S4. unfold s3. simpl. rewrite S1. reflexivity.
  - rewrite T4. unfold s3. simpl. exact T1.
  - eapply advanced_trans; [exact W1|]. exact W4.
  - intros kind. rewrite A4, Hh. f_equal.
    unfold s3. simpl. rewrite C1, alerts_app, (alerts_plain _ _ P1).
    apply app_nil_r.
Qed.

End CollectFacts.

(** ** The bounded history *)

Module HistoryFacts.

Local Open Scope nat_scope.
Local Open Scope list_scope.

Lemma slice_last_length {A} n (l : list A) :
  length (JS.slice_last n l) = Nat.min n (length l).
Proof. unfold JS.slice_last. rewrite length_skipn. lia. Qed.

Lemma slice_last_all {A} n (l : list A) :
  length l <= n -> JS.slice_last n l = l.
Proof.
  intros H. unfold JS.slice_last.
  replace (length l - n) with 0 by lia. reflexivity.
Qed.

(** The elements that go are a prefix: the oldest ones. *)
Lemma slice_last_split {A} n (l : list A) :
  l = (firstn (length l - n) l ++ JS.slice_last n l)%list.
Proof. unfold JS.slice_last. now rewrite firstn_skipn. Qed.

Lemma slice_last_app {A} n (l m : list A) :
  JS.slice_last n (JS.slice_last n l ++ m) = JS.slice_last n (l ++ m).
Proof.
  unfold JS.slice_last.
  rewrite !length_app, length_skipn.
  destruct (Nat.le_gt_cases (length l) n) as [H|H].
  - replace (length l - n) with 0 by lia. simpl.
    now replace (length l - 0) with (length l) by lia.
  - rewrite !skipn_app, length_skipn.
    replace (length l - (length l - n) + length m - n) with (length m) by lia.
    replace (length l + length m - n) with ((length l - n) + length m) by lia.
    rewrite skipn_skipn.
    replace (length m + (length l - n)) with ((length l - n) + length m)
      by lia.
    replace (length m - (length l - (length l - n)))
      with (length l - n + length m - length l) by lia.
    reflexivity.
Qed.

Lemma push_bounded_slice l r :
  push_bounded l r = JS.slice_last 1000 (l ++ [r]).
Proof.
  unfold push_bounded, JS.splice_front, JS.slice_last.
  destruct (Nat.ltb_spec 1000 (length (l ++ [r]))) as [H|H].
  - reflexivity.
  - now replace (length (l ++ [r]) - 1000) with 0 by lia.
Qed.

Lemma push_bounded_length l r : length (push_bounded l r) <= 1000.
Proof. rewrite push_bounded_slice, slice_last_length. lia. Qed.

Lemma pushes_slice news : forall old,
  length old <= 1000 ->
  fold_left push_bounded news old = JS.slice_last 1000 (old ++ news).
Proof.
  induction news as [|r news IH]; intros old H; simpl.
  - rewrite app_nil_r. symmetry. now apply slice_last_all.
  - rewrite IH by apply push_bounded_length.
    rewrite push_bounded_slice, slice_last_app, <- app_assoc. reflexivity.
Qed.

Lemma pushes_length news : forall old,
  length old <= 1000 -> length (fold_left push_bounded news old) <= 1000.
Proof.
  intros old H. rewrite pushes_slice by assumption.
  rewrite slice_last_length. lia.
Qed.

End HistoryFacts.

(** ** One sweep over the sensors of a device *)

Section SweepFacts.

Variable Math_sin : JS.number -> JS.number.

Lemma synthesized_advanced w w' device sensor reading :
  advanced w w' ->
  synthesized Math_sin w' device sensor reading ->
  synthesized Math_sin w device sensor reading.
Proof.
  intros A (s0 & s1 & A' & E). exists s0, s1. split; [|exact E].
  eapply advanced_trans; eassumption.
Qed.

Lemma swept_nil device i s : swept Math_sin device i [] [] s s.
Proof.
  constructor; auto using advanced_refl.
  destruct (JS.get (devices (service s)) (id device)) as [d|];
    [|reflexivity].
  simpl. now destruct d.
Qed.

Lemma swept_cons device i sensor reading rest news s s1 s2 :
  collected Math_sin device i sensor reading s s1 ->
  swept Math_sin device (S i) rest news s1 s2 ->
  swept Math_sin device i (sensor :: rest) (reading :: news) s s2.
Proof.
  intros [Cs Cr Cd Ch Ct Cw Ca] [Ss Sh Sp Sro Sd Sdo Sk Shh St Sw].
  assert (Hd : JS.get (devices (service s1)) (id device)
               = option_map
                   (with_sensors (update_nth i (with_lastReading reading)))
                   (JS.get (devices (service s)) (id device))).
  { rewrite Cd.
    destruct (JS.get (devices (service s)) (id device)) as [d|] eqn:G.
    - now rewrite MapFacts.get_set_same.
    - now rewrite G. }
  constructor.
  - constructor; [exact Cs|].
    eapply Forall2_impl; [|exact Ss].
    intros a b. now apply synthesized_advanced.
  - rewrite Sh. simpl. f_equal.
    unfold history at 1. rewrite Cr, MapFacts.get_set_same. reflexivity.
  - intros k Hk. apply Sp. rewrite Cr, MapFacts.get_set.
    destruct (String.eqb (id device) k); [discriminate|exact Hk].
  - intros k Hk. rewrite (Sro k Hk), Cr.
    apply MapFacts.get_set_other. congruence.
  - rewrite Sd, Hd.
    now destruct (JS.get (devices (service s)) (id device)).
  - intros k Hk. rewrite (Sdo k Hk), Cd.
    destruct (JS.get (devices (service s)) (id device));
      [|reflexivity].
    apply MapFacts.get_set_other. congruence.
  - rewrite Sk, Cd.
    destruct (JS.get (devices (service s)) (id device)) eqn:G;
      [|reflexivity].
    eapply MapFacts.keys_set_present. exact G.
  - congruence.
  - congruence.
  - eapply advanced_trans; eassumption.
Qed.

Lemma collect_from_effect device todo : forall i s,
  exists news s',
    collect_from Math_sin device i todo s = (Normal tt, s')
    /\ swept Math_sin device i todo news s s'.
Proof.
  induction todo as [|sensor rest IH]; intros i s; simpl.
  - exists [], s. split; [reflexivity|]. apply swept_nil.
  - destruct (collect_one_effect Math_sin device i sensor s)
      as (reading & s1 & E1 & C1).
    rewrite (bind_Normal _ E1).
    destruct (IH (S i) s1) as (news & s2 & E2 & S2).
    exists (reading :: news), s2. split; [exact E2|].
    eapply swept_cons; eassumption.
Qed.

End SweepFacts.

(** ** One poll cycle *)

Section PollFacts.

Variable Math_sin : JS.number -> JS.number.

Lemma poll_frame_refl s : poll_frame s s.
Proof. constructor; auto using advanced_refl. Qed.

Lemma poll_frame_trans s1 s2 s3 :
  poll_frame s1 s2 -> poll_frame s2 s3 -> poll_frame s1 s3.
Proof.
  intros [] []. constructor; try congruence; auto.
  eapply advanced_trans; eassumption.
Qed.

Lemma poll_body_effect k s :
  well_keyed s ->
  exists s',
    poll_body Math_sin k s = (Normal tt, s')
    /\ polled Math_sin s s' k
    /\ (forall k', k' <> k -> untouched s s' k')
    /\ poll_frame s s'.
Proof.
  intros WK. unfold poll_body, polled. unfold bind, read. cbv beta iota.
  destruct (JS.get (devices (service s)) k) as [d|] eqn:G.
  2:{ exists s. repeat split; auto using poll_frame_refl. }
  destruct (DeviceStatus_eqb (status d) online).
  2:{ exists s. repeat split; auto using poll_frame_refl. }
  unfold collectSensorData.
  destruct (collect_from_effect Math_sin d (sensors d) 0 s)
    as (news & s' & E & [Ss Sh Sp Sro Sd Sdo Sk Shh St Sw]).
  pose proof (WK _ _ G) as Hid. rewrite Hid in *.
  exists s'. split; [exact E|]. split; [|split].
  - exists news. repeat split; auto.
    rewrite Sd, G. reflexivity.
  - intros k' Hk'. split; auto.
  - constructor; auto.
    intros _ k' d' G'.
    destruct (String.eqb_spec k' k) as [->|N].
    + rewrite Sd, G in G'. simpl in G'. inversion G'. subst d'. exact Hid.
    + rewrite (Sdo k' N) in G'. now apply WK.
Qed.

Lemma polled_later s s1 s' k :
  untouched s s1 k -> advanced (world s) (world s1) ->
  polled Math_sin s1 s' k -> polled Math_sin s s' k.
Proof.
  intros [U1 U2] A. unfold polled, history, untouched. rewrite U1, U2.
  destruct (JS.get (devices (service s)) k) as [d|]; [|auto].
  destruct (DeviceStatus_eqb (status d) online); [|auto].
  intros (news & F & H & P & D). exists news. repeat split; auto.
  eapply Forall2_impl; [|exact F].
  intros a b. now apply synthesized_advanced.
Qed.

Lemma polled_earlier s s1 s' k :
  polled Math_sin s s1 k -> untouched s1 s' k -> polled Math_sin s s' k.
Proof.
  intros P [U1 U2]. unfold polled, history in *.
  destruct (JS.get (devices (service s)) k) as [d|].
  - destruct (DeviceStatus_eqb (status d) online).
    + destruct P as (news & F & H & Pr & D). exists news.
      rewrite U1, U2. repeat split; auto.
    + destruct P as [P1 P2]. split; congruence.
  - destruct P as [P1 P2]. split; congruence.
Qed.

Lemma untouched_trans s1 s2 s3 k :
  untouched s1 s2 k -> untouched s2 s3 k -> untouched s1 s3 k.
Proof. intros [] []. split; congruence. Qed.

Lemma poll_keys_effect ks : forall s,
  well_keyed s -> NoDup ks ->
  exists s',
    forM_ ks (poll_body Math_sin) s = (Normal tt, s')
    /\ (forall k, In k ks -> polled Math_sin s s' k)
    /\ (forall k, ~ In k ks -> untouched s s' k)
    /\ poll_frame s s'.
Proof.
  induction ks as [|k ks IH]; intros s WK ND; simpl.
  - exists s. repeat split; auto using poll_frame_refl. intros k [].
  - inversion ND as [|? ? Nin ND']; subst.
    destruct (poll_body_effect k s WK) as (s1 & E1 & P1 & U1 & F1).
    rewrite (bind_Normal _ E1).
    destruct (IH s1 (pf_keyed _ _ F1 WK) ND') as (s2 & E2 & P2 & U2 & F2).
    exists s2. split; [exact E2|]. split; [|split].
    + intros k' [<-|Hin].
      * eapply polled_earlier; [exact P1|]. now apply U2.
      * assert (N : k' <> k) by (intros ->; contradiction).
        eapply polled_later; [apply U1; exact N | apply F1 |].
        now apply P2.
    + intros k' Hnot.
      eapply untouched_trans; [apply U1 | apply U2]; intros H; apply Hnot;
        [left; congruence | right; assumption].
    + eapply poll_frame_trans; eassumption.
Qed.

Lemma poll_cycle_unfold s :
  poll_cycle Math_sin s = forM_ (JS.keys (devices (service s))) (poll_body Math_sin) s.
Proof. reflexivity. Qed.

End PollFacts.

(** ** Steps that respect a preorder on states *)

Section Preserves.

Variable R : State -> State -> Prop.
Hypothesis R_refl : forall s, R s s.
Hypothesis R_trans : forall a b c, R a b -> R b c -> R a c.

Lemma preserves_ret {A} (a : A) : preserves R (ret a).
Proof. intros s. apply R_refl. Qed.

Lemma preserves_throw {A} m : preserves R (@throw A m).
Proof. intros s. apply R_refl. Qed.

Lemma preserves_read {A} (f : State -> A) : preserves R (read f).
Proof. intros s. apply R_refl. Qed.

Lemma preserves_bind {A B} (c : Async A) (k : A -> Async B) :
  preserves R c -> (forall a, preserves R (k a)) -> preserves R (bind c k).
Proof.
  intros Hc Hk s. unfold bind. specialize (Hc s).
  destruct (c s) as [[a|m] s1]; simpl in *; [|exact Hc].
  eapply R_trans; [exact Hc|]. apply Hk.
Qed.

Lemma preserves_forM_ {A} (l : list A) f :
  (forall a, preserves R (f a)) -> preserves R (forM_ l f).
Proof.
  intros Hf. induction l as [|a l IH]; simpl.
  - apply preserves_ret.
  - apply preserves_bind; auto.
Qed.

Lemma preserves_mapM {A B} (f : A -> Async B) (l : list A) :
  (forall a, preserves R (f a)) -> preserves R (mapM f l).
Proof.
  intros Hf. induction l as [|a l IH]; simpl.
  - apply preserves_ret.
  - apply preserves_bind; [apply Hf|]. intros b.
    apply preserves_bind; [exact IH|]. intros bs. apply preserves_ret.
Qed.

Lemma preserves_try_catch (c : Async unit) (h : string -> Async unit) :
  preserves R c -> (forall m, preserves R (h m)) ->
  preserves R (try_catch c h).
Proof.
  intros Hc Hh s. unfold try_catch. specialize (Hc s).
  destruct (c s) as [[a|m] s1]; simpl in *; [exact Hc|].
  eapply R_trans; [exact Hc|]. apply Hh.
Qed.

End Preserves.

Lemma tame_refl s : tame s s.
Proof. constructor; auto using advanced_refl. intros k d H. eauto. Qed.

Lemma tame_trans a b c : tame a b -> tame b c -> tame a c.
Proof.
  intros [R1 K1 I1 T1 W1] [R2 K2 I2 T2 W2]. constructor; try congruence.
  - intros k d' H. destruct (I2 _ _ H) as (d1 & H1 & E1 & S1).
    destruct (I1 _ _ H1) as (d0 & H0 & E0 & S0). exists d0.
    repeat split; congruence.
  - eapply advanced_trans; eassumption.
Qed.

Lemma tame_same_devices s s' :
  devices (service s') = devices (service s) ->
  sensorReadings (service s') = sensorReadings (service s) ->
  timers s' = timers s ->
  advanced (world s) (world s') -> tame s s'.
Proof.
  intros D R T W. constructor; auto; rewrite D; auto.
  intros k d H. eauto.
Qed.

Create HintDb tame_db.

Lemma tame_Math_random : preserves tame Math_random.
Proof.
  intros s. apply tame_same_devices; simpl; auto.
  constructor; simpl; auto.
Qed.

Lemma tame_Date_now : preserves tame Date_now.
Proof.
  intros s. apply tame_same_devices; simpl; auto.
  constructor; simpl; auto.
Qed.

Lemma tame_console_log e : preserves tame (console_log e).
Proof.
  intros s. apply tame_same_devices; simpl; auto using advanced_refl.
Qed.

Lemma tame_mutate_device k f :
  (forall d, id (f d) = id d
             /\ map static (sensors (f d)) = map static (sensors d)) ->
  preserves tame (mutate_device k f).
Proof.
  intros Hf s. unfold mutate_device, modify. simpl.
  destruct (JS.get (devices (service s)) k) as [d|] eqn:G.
  - constructor; simpl; rewrite ?G; auto using advanced_refl.
    + eapply MapFacts.keys_set_present. exact G.
    + intros k' d'. rewrite MapFacts.get_set.
      destruct (String.eqb_spec k k') as [<-|N]; intros H.
      * inversion H. exists d. split; [exact G|]. apply Hf.
      * eauto.
  - apply tame_same_devices; simpl; rewrite ?G; auto using advanced_refl.
Qed.

Lemma tame_addEventListener ev h : preserves tame (addEventListener ev h).
Proof.
  intros s. apply tame_same_devices; simpl; auto using advanced_refl.
Qed.

Lemma tame_bind {A B} (c : Async A) (k : A -> Async B) :
  preserves tame c -> (forall a, preserves tame (k a)) ->
  preserves tame (bind c k).
Proof. apply preserves_bind. exact tame_trans. Qed.

Lemma tame_forM_ {A} (l : list A) f :
  (forall a, preserves tame (f a)) -> preserves tame (forM_ l f).
Proof. apply preserves_forM_; [exact tame_refl | exact tame_trans]. Qed.

Lemma tame_ret {A} (a : A) : preserves tame (ret a).
Proof. apply preserves_ret. exact tame_refl. Qed.

Lemma tame_throw {A} m : preserves tame (@throw A m).
Proof. apply preserves_throw. exact tame_refl. Qed.

Lemma tame_read {A} (f : State -> A) : preserves tame (read f).
Proof. apply preserves_read. exact tame_refl. Qed.

#[local] Hint Resolve tame_Math_random tame_Date_now tame_console_log
  tame_addEventListener tame_ret tame_throw tame_read : tame_db.

Ltac tame_steps :=
  repeat first
    [ apply tame_bind; [|intros ?]
    | apply tame_forM_; intros ?
    | apply tame_mutate_device; intros ?; split; reflexivity
    | solve [ auto with tame_db ]
    | match goal with
      | |- preserves _ (match ?x with _ => _ end) => destruct x
      | |- preserves _ (if ?x then _ else _) => destruct x
      end ].

Lemma tame_checkDeviceHealth k : preserves tame (checkDeviceHealth k).
Proof. unfold checkDeviceHealth. tame_steps. Qed.

Lemma tame_deployEdgeFunction k c ts :
  preserves tame (deployEdgeFunction k c ts).
Proof. unfold deployEdgeFunction. tame_steps. Qed.

Lemma tame_performSecurityScan k : preserves tame (performSecurityScan k).
Proof.
  unfold performSecurityScan, scanForVulnerabilities. tame_steps.
Qed.

Lemma tame_updateDeviceFirmware k v :
  preserves tame (updateDeviceFirmware k v).
Proof.
  unfold updateDeviceFirmware, getLatestFirmwareVersion,
    performFirmwareUpdate.
  tame_steps.
Qed.

Lemma tame_getDevices Math_sin Math_cos Math_atan2 f :
  preserves tame (getDevices Math_sin Math_cos Math_atan2 f).
Proof. unfold getDevices. tame_steps. Qed.

(** ** Registration *)

Lemma read_between_wider s0 s1 s2 s3 t :
  advanced (world s0) (world s1) -> advanced (world s2) (world s3) ->
  read_between s1 s2 t -> read_between s0 s3 t.
Proof.
  intros A01 A23 (n & Hn & ->). exists n.
  destruct A01 as [_ _ C01 _ _ P01], A23 as [_ _ _ _ _ P23].
  split; [lia|]. now rewrite C01.
Qed.

Lemma sensor_of_wider s0 s1 s2 s3 c x :
  advanced (world s0) (world s1) -> advanced (world s2) (world s3) ->
  sensor_of s1 s2 c x -> sensor_of s0 s3 c x.
Proof.
  intros A01 A23 [T U R A V Q (t & B & N)]. constructor; auto.
  exists t. split; [|exact N]. eapply read_between_wider; eassumption.
Qed.

Lemma new_sensor_effect c s :
  exists x s',
    new_sensor c s = (Normal x, s')
    /\ chatter s s'
    /\ sensor_of s s' c x.
Proof.
  unfold new_sensor, bind, randomUUID, Date_now, ret. simpl.
  eexists _, _. split; [reflexivity|]. split; [oracle_step|].
  constructor; simpl; auto.
  eexists. split; [|reflexivity].
  exists (S (S (clock_pos (world s)))). simpl. split; [lia|reflexivity].
Qed.

Lemma new_sensors_effect cs : forall s,
  exists xs s',
    mapM new_sensor cs s = (Normal xs, s')
    /\ chatter s s'
    /\ Forall2 (sensor_of s s') cs xs.
Proof.
  induction cs as [|c cs IH]; intros s; simpl.
  - exists [], s. split; [reflexivity|].
    split; [apply chatter_refl | constructor].
  - destruct (new_sensor_effect c s) as (x & s1 & E1 & H1 & S1).
    rewrite (bind_Normal _ E1).
    destruct (IH s1) as (xs & s2 & E2 & H2 & S2).
    rewrite (bind_Normal _ E2).
    exists (x :: xs), s2. split; [reflexivity|].
    split; [eapply chatter_trans; eassumption|].
    constructor.
    + eapply sensor_of_wider; [apply advanced_refl | apply H2 | exact S1].
    + eapply Forall2_impl; [|exact S2]. intros a b.
      apply sensor_of_wider; [apply H1 | apply advanced_refl].
Qed.

Lemma registerDevice_effect c s :
  exists device s1,
    registerDevice c s = (Normal device, registered device s1)
    /\ chatter s s1
    /\ id device = uuid_src (world s) (uuid_pos (world s))
    /\ uuid_pos (world s) < uuid_pos (world s1)
    /\ type device = cfg_type c
    /\ location device = cfg_location c
    /\ status device = online
    /\ Forall2 (sensor_of s s1) (cfg_sensors c) (sensors device).
Proof.
  unfold registerDevice.
  unfold bind at 1. unfold randomUUID at 1. cbv beta iota.
  match goal with
  | |- context [bind (mapM new_sensor _) _ ?st] => set (s0 := st)
  end.
  assert (H0 : chatter s s0) by (unfold s0; oracle_step).
  destruct (new_sensors_effect (cfg_sensors c) s0) as (xs & s1 & E1 & H1 & S1).
  rewrite (bind_Normal _ E1).
  unfold bind, Date_now, modify, startDeviceMonitoring, ret. simpl.
  set (s2 := set_world
               (fun w =>
                  {| random_src := random_src w;
                     random_pos := random_pos w;
                     uuid_src := uuid_src w; uuid_pos := uuid_pos w;
                     clock_src := clock_src w;
                     clock_pos := S (S (S (S (clock_pos w)))) |}) s1).
  assert (H2 : chatter s1 s2) by (unfold s2; oracle_step).
  match goal with
  | |- exists device s', (Normal ?d, _) = _ /\ _ => exists d, s2
  end.
  split; [reflexivity|].
  split.
  { eapply chatter_trans; [exact H0|].
    eapply chatter_trans; [exact H1|]. exact H2. }
  simpl. repeat split; auto.
  - destruct H1 as [_ _ _ [_ _ _ _ U _]]. unfold s0 in U. simpl in U. lia.
  - eapply Forall2_impl; [|exact S1]. intros a b.
    apply sensor_of_wider; [apply H0 | apply H2].
Qed.

(** ** What holds in every state of a run *)

Lemma chatter_tame s s' : chatter s s' -> tame s s'.
Proof.
  intros [S T _ W]. apply tame_same_devices; auto; now rewrite S.
Qed.

Lemma invariant_tame s s' : tame s s' -> invariant s -> invariant s'.
Proof.
  intros [R K I T W] [IK IN IB IS ID]. constructor.
  - intros k d' H. destruct (I _ _ H) as (d & Hd & E & _).
    rewrite E. now apply IK.
  - now rewrite K.
  - intros k rs. rewrite R. apply IB.
  - intros k. rewrite K, R. apply IS.
  - intros k. rewrite K. intros H. destruct (ID _ H) as (n & Hn & E).
    exists n. destruct W as [_ U _ _ P _]. split; [lia|]. now rewrite U.
Qed.

Lemma In_keys_set {V} (m : JS.Map V) k v k' :
  In k' (JS.keys (JS.set m k v)) -> k' = k \/ In k' (JS.keys m).
Proof.
  destruct (JS.get m k) as [v0|] eqn:G.
  - rewrite (MapFacts.keys_set_present m k v v0 G). auto.
  - rewrite (MapFacts.keys_set_absent _ _ _ G), in_app_iff. simpl.
    intuition.
Qed.

Lemma NoDup_keys_set {V} (m : JS.Map V) k v :
  NoDup (JS.keys m) -> NoDup (JS.keys (JS.set m k v)).
Proof.
  intros ND. destruct (JS.get m k) as [v0|] eqn:G.
  - now rewrite (MapFacts.keys_set_present m k v v0 G).
  - rewrite (MapFacts.keys_set_absent _ _ _ G).
    apply NoDup_app; [exact ND| |].
    + constructor; [intros []|constructor].
    + intros a Ha [<-|[]]. apply MapFacts.get_None_keys in G. contradiction.
Qed.

Lemma invariant_registered device s1 :
  invariant s1 ->
  (exists n, n < uuid_pos (world s1) /\ uuid_src (world s1) n = id device) ->
  invariant (registered device s1).
Proof.
  intros [IK IN IB IS ID] Hid. constructor; unfold well_keyed; simpl.
  - intros k d. rewrite MapFacts.get_set.
    destruct (String.eqb_spec (id device) k) as [<-|N]; intros H.
    + now inversion H.
    + now apply IK.
  - now apply NoDup_keys_set.
  - intros k rs. rewrite MapFacts.get_set.
    destruct (String.eqb (id device) k); intros H.
    + inversion H. simpl. lia.
    + eapply IB. exact H.
  - intros k Hk. rewrite MapFacts.get_set.
    destruct (String.eqb_spec (id device) k) as [<-|N]; [discriminate|].
    apply IS. apply In_keys_set in Hk. destruct Hk; congruence.
  - intros k Hk. apply In_keys_set in Hk. destruct Hk as [->|Hk]; auto.
Qed.

Section RunFacts.

Variables Math_sin Math_cos : JS.number -> JS.number.
Variable Math_atan2 : JS.number -> JS.number -> JS.number.

Lemma poll_cycle_effect s :
  invariant s ->
  exists s',
    poll_cycle Math_sin s = (Normal tt, s')
    /\ (forall k, In k (JS.keys (devices (service s))) ->
                  polled Math_sin s s' k)
    /\ (forall k, ~ In k (JS.keys (devices (service s))) -> untouched s s' k)
    /\ poll_frame s s'.
Proof.
  intros I. rewrite poll_cycle_unfold.
  apply poll_keys_effect; apply I.
Qed.

Lemma polled_bounded s s' k rs :
  invariant s -> polled Math_sin s s' k ->
  JS.get (sensorReadings (service s')) k = Some rs -> length rs <= 1000.
Proof.
  intros I P G. unfold polled in P.
  assert (U : untouched s s' k -> length rs <= 1000).
  { intros [U _]. rewrite U in G. eapply inv_bounded; eassumption. }
  destruct (JS.get (devices (service s)) k) as [d|]; [|auto].
  destruct (DeviceStatus_eqb (status d) online); [|auto].
  destruct P as (news & _ & H & _).
  assert (E : rs = history s' k) by (unfold history; now rewrite G).
  rewrite E, H. apply HistoryFacts.pushes_length.
  unfold history.
  destruct (JS.get (sensorReadings (service s)) k) as [old|] eqn:Go.
  - eapply inv_bounded; eassumption.
  - simpl. lia.
Qed.

Lemma invariant_poll_cycle s :
  invariant s -> invariant (snd (poll_cycle Math_sin s)).
Proof.
  intros I. destruct (poll_cycle_effect s I) as (s' & E & P & U & F).
  rewrite E. simpl. constructor.
  - apply F, I.
  - rewrite (pf_keys _ _ F). apply I.
  - intros k rs G.
    destruct (in_dec string_dec k (JS.keys (devices (service s)))) as [Hin|Hn].
    + eapply polled_bounded; eauto.
    + destruct (U k Hn) as [U1 _]. rewrite U1 in G.
      eapply inv_bounded; eassumption.
  - intros k. rewrite (pf_keys _ _ F). intros Hin.
    pose proof (inv_stored _ I _ Hin) as St.
    specialize (P k Hin). unfold polled in P.
    destruct (JS.get (devices (service s)) k) as [d|].
    + destruct (DeviceStatus_eqb (status d) online).
      * destruct P as (news & _ & _ & Pr & _). auto.
      * destruct P as [P1 _]. now rewrite P1.
    + destruct P as [P1 _]. now rewrite P1.
  - intros k. rewrite (pf_keys _ _ F). intros Hin.
    destruct (inv_drawn _ I _ Hin) as (n & Hn & En).
    exists n. destruct (pf_world _ _ F) as [_ Us _ _ Up _].
    split; [lia|]. now rewrite Us.
Qed.

Lemma invariant_registerDevice c s :
  invariant s -> invariant (snd (registerDevice c s)).
Proof.
  intros I.
  destruct (registerDevice_effect c s)
    as (device & s1 & E & H & Hid & Hpos & _).
  rewrite E. simpl. apply invariant_registered.
  - eapply invariant_tame; [apply chatter_tame; exact H | exact I].
  - exists (uuid_pos (world s)). split; [exact Hpos|].
    rewrite Hid. destruct H as [_ _ _ [_ U _ _ _ _]]. now rewrite U.
Qed.

(** [initializeIoT] going on to its next [await] leaves the service and
    the oracles as they are; it starts the poll timer or writes a line. *)
Lemma resume_initializeIoT_effect s :
  service (snd (resume_initializeIoT s)) = service s
  /\ world (snd (resume_initializeIoT s)) = world s
  /\ (exists more,
         timers (snd (resume_initializeIoT s)) = (timers s ++ more)%list
         /\ forall t, In t more -> t = PollTimer)
  /\ (exists logs,
         console (snd (resume_initializeIoT s)) = (console s ++ logs)%list
         /\ Forall plain logs).
Proof.
  unfold resume_initializeIoT, bind, read.
  destruct (initialization s); simpl; repeat split.
  - exists [PollTimer]. split; [reflexivity|].
    intros t [<-|[]]. reflexivity.
  - exists []. split; [now rewrite app_nil_r|constructor].
  - exists []. split; [now rewrite app_nil_r|]. intros t [].
  - eexists. split; [reflexivity|]. repeat constructor.
  - exists []. split; [now rewrite app_nil_r|]. intros t [].
  - exists []. split; [now rewrite app_nil_r|constructor].
Qed.

Lemma invariant_resume_initializeIoT s :
  invariant s -> invariant (snd (resume_initializeIoT s)).
Proof.
  intros I.
  destruct (resume_initializeIoT_effect s) as (S & W & _).
  destruct I as [IK IN IB IS ID].
  constructor; unfold well_keyed in *; rewrite ?S, ?W; assumption.
Qed.

Lemma invariant_new w : invariant (new_IoTService w).
Proof.
  constructor; unfold well_keyed; simpl.
  - intros k d H. discriminate.
  - constructor.
  - intros k rs H. discriminate.
  - intros k [].
  - intros k [].
Qed.

Lemma invariant_perform a s :
  invariant s ->
  invariant (perform Math_sin Math_cos Math_atan2 a s).
Proof.
  intros I. destruct a; unfold perform.
  - now apply invariant_resume_initializeIoT.
  - now apply invariant_registerDevice.
  - eapply invariant_tame; [apply tame_getDevices | exact I].
  - destruct I. constructor; assumption.
  - eapply invariant_tame; [apply tame_addEventListener | exact I].
  - eapply invariant_tame; [apply tame_deployEdgeFunction | exact I].
  - eapply invariant_tame; [apply tame_performSecurityScan | exact I].
  - eapply invariant_tame; [apply tame_updateDeviceFirmware | exact I].
  - now apply invariant_poll_cycle.
  - eapply invariant_tame; [apply tame_checkDeviceHealth | exact I].
Qed.

Lemma reachable_invariant w s :
  reachable Math_sin Math_cos Math_atan2 w s -> invariant s.
Proof.
  induction 1 as [|s a _ IH _].
  - apply invariant_new.
  - now apply invariant_perform.
Qed.

End RunFacts.

(** ** Every stored reading carries the label of the assessment *)

Lemma assess_static v x x' :
  static x' = static x -> assessDataQuality v x' = assessDataQuality v x.
Proof.
  unfold static, assessDataQuality. intros H. inversion H as [[T R A]].
  now rewrite R, A.
Qed.

Lemma In_static l l' x :
  map static l' = map static l -> In x l ->
  exists x', In x' l' /\ static x' = static x.
Proof.
  intros E Hin. apply (in_map static) in Hin. rewrite <- E in Hin.
  apply in_map_iff in Hin. destruct Hin as (x' & Hs & Hin'). eauto.
Qed.

Lemma static_update_nth r l : forall i,
  map static (update_nth i (with_lastReading r) l) = map static l.
Proof.
  induction l as [|a l IH]; intros [|i]; simpl; try reflexivity.
  now rewrite IH.
Qed.

Lemma static_set_readings news : forall i l,
  map static (set_readings i news l) = map static l.
Proof.
  induction news as [|r news IH]; intros i l; simpl; [reflexivity|].
  now rewrite IH, static_update_nth.
Qed.

Lemma In_push_bounded r l x : In x (push_bounded l r) -> In x l \/ x = r.
Proof.
  rewrite HistoryFacts.push_bounded_slice. unfold JS.slice_last.
  intros H.
  assert (H' : In x (l ++ [r])).
  { rewrite <- (firstn_skipn (length (l ++ [r]) - 1000) (l ++ [r])).
    apply in_or_app. now right. }
  apply in_app_iff in H'. destruct H' as [H'|[H'|[]]]; auto.
Qed.

Lemma In_pushes news : forall old x,
  In x (fold_left push_bounded news old) -> In x old \/ In x news.
Proof.
  induction news as [|r news IH]; intros old x H; simpl in *; [auto|].
  destruct (IH _ _ H) as [H1|H1]; [|auto].
  apply In_push_bounded in H1. destruct H1; auto.
Qed.

Lemma Forall2_In_right {A B} (P : A -> B -> Prop) l l' y :
  Forall2 P l l' -> In y l' -> exists x, In x l /\ P x y.
Proof.
  induction 1 as [|a b l l' Hab _ IH]; simpl; [tauto|].
  intros [<-|H].
  - exists a. auto.
  - destruct (IH H) as (x & Hx & Px). exists x. auto.
Qed.

Lemma labelled_tame s s' : tame s s' -> labelled s -> labelled s'.
Proof.
  intros [R K I T W] L k rs r G Hin. rewrite R in G.
  destruct (L k rs r G Hin) as (d & x & Gd & Hx & Q).
  destruct (JS.get (devices (service s')) k) as [d'|] eqn:G'.
  - destruct (I _ _ G') as (d0 & G0 & _ & S0).
    rewrite Gd in G0. inversion G0. subst d0.
    destruct (In_static _ _ x S0 Hx) as (x' & Hx' & Sx).
    exists d', x'. repeat split; auto.
    now rewrite (assess_static _ _ _ Sx).
  - apply MapFacts.get_None_keys in G'. rewrite K in G'.
    apply MapFacts.get_None_keys in G'. congruence.
Qed.

Lemma labelled_registered device s1 :
  labelled s1 -> labelled (registered device s1).
Proof.
  intros L k rs r. simpl. rewrite !MapFacts.get_set.
  destruct (String.eqb (id device) k).
  - intros H. inversion H. intros [].
  - apply L.
Qed.

Lemma labelled_new w : labelled (new_IoTService w).
Proof. intros k rs r H. discriminate. Qed.

Section LabelFacts.

Variables Math_sin Math_cos : JS.number -> JS.number.
Variable Math_atan2 : JS.number -> JS.number -> JS.number.

Lemma synthesized_quality w device sensor reading :
  synthesized Math_sin w device sensor reading ->
  quality reading = assessDataQuality (value reading) sensor.
Proof.
  intros (s0 & s1 & _ & E).
  destruct (generateSensorReading_effect Math_sin sensor device s0)
    as (reading' & s' & k & E' & _ & _ & Q & _).
  rewrite E in E'. inversion E'. subst. exact Q.
Qed.

Lemma labelled_untouched s s' k rs r :
  labelled s -> untouched s s' k ->
  JS.get (sensorReadings (service s')) k = Some rs -> In r rs ->
  exists d x,
    JS.get (devices (service s')) k = Some d
    /\ In x (sensors d)
    /\ quality r = assessDataQuality (value r) x.
Proof.
  intros L [U1 U2] G Hin. rewrite U1 in G. rewrite U2. eapply L; eauto.
Qed.

Lemma labelled_poll_cycle s :
  invariant s -> labelled s -> labelled (snd (poll_cycle Math_sin s)).
Proof.
  intros I L. destruct (poll_cycle_effect Math_sin s I) as (s' & E & P & U & F).
  rewrite E. simpl. intros k rs r G Hin.
  destruct (in_dec string_dec k (JS.keys (devices (service s)))) as [Hk|Hn].
  2:{ eapply labelled_untouched; eauto. }
  specialize (P k Hk). unfold polled in P.
  destruct (JS.get (devices (service s)) k) as [d|] eqn:Gd.
  2:{ eapply labelled_untouched; eauto. }
  destruct (DeviceStatus_eqb (status d) online).
  2:{ eapply labelled_untouched; eauto. }
  destruct P as (news & Fs & H & _ & Gd').
  assert (Hr : rs = history s' k) by (unfold history; now rewrite G).
  rewrite Hr, H in Hin. apply In_pushes in Hin.
  assert (T : forall x, In x (sensors d) ->
                        quality r = assessDataQuality (value r) x ->
                        exists d' x',
                          JS.get (devices (service s')) k = Some d'
                          /\ In x' (sensors d')
                          /\ quality r = assessDataQuality (value r) x').
  { intros x Hx Q.
    destruct (In_static (sensors d) (set_readings 0 news (sensors d)) x
                (static_set_readings news 0 (sensors d)) Hx)
      as (x' & Hx' & Sx).
    exists (with_sensors (set_readings 0 news) d), x'.
    split; [exact Gd'|]. split; [exact Hx'|].
    now rewrite (assess_static _ _ _ Sx). }
  destruct Hin as [Hold|Hnew].
  - unfold history in Hold.
    destruct (JS.get (sensorReadings (service s)) k) as [old|] eqn:Go;
      [|contradiction].
    destruct (L k old r Go Hold) as (d0 & x & G0 & Hx & Q).
    rewrite Gd in G0. inversion G0. subst d0. eauto.
  - destruct (Forall2_In_right _ _ _ _ Fs Hnew) as (x & Hx & Sy).
    apply (T x Hx). eapply synthesized_quality. exact Sy.
Qed.

Lemma reachable_labelled w s :
  reachable Math_sin Math_cos Math_atan2 w s -> labelled s.
Proof.
  induction 1 as [|s a R IH _].
  - apply labelled_new.
  - pose proof (reachable_invariant _ _ _ _ _ R) as I.
    destruct a; unfold perform.
    + destruct (resume_initializeIoT_effect s) as (S & _).
      unfold labelled. rewrite S. exact IH.
    + destruct (registerDevice_effect deviceConfig s)
        as (device & s1 & E & H & _).
      rewrite E. simpl. apply labelled_registered.
      eapply labelled_tame; [apply chatter_tame; exact H | exact IH].
    + eapply labelled_tame; [apply tame_getDevices | exact IH].
    + exact IH.
    + eapply labelled_tame; [apply tame_addEventListener | exact IH].
    + eapply labelled_tame; [apply tame_deployEdgeFunction | exact IH].
    + eapply labelled_tame; [apply tame_performSecurityScan | exact IH].
    + eapply labelled_tame; [apply tame_updateDeviceFirmware | exact IH].
    + now apply labelled_poll_cycle.
    + eapply labelled_tame; [apply tame_checkDeviceHealth | exact IH].
Qed.

End LabelFacts.

(** ** Readings stay in range *)

Module RangeFacts.

Import FloatBounds.

Lemma add_to c a b x y :
  bounded_by a x -> bounded_by b y ->
  (-1000 <= Z.max a b <= 900)%Z -> (Z.max a b + 2 <= c)%Z ->
  bounded_by c (x + y).
Proof.
  intros Hx Hy Hk Hc. eapply bounded_mono; [exact Hc|].
  now apply add_bounded.
Qed.

Lemma sub_to c a b x y :
  bounded_by a x -> bounded_by b y ->
  (-1000 <= Z.max a b <= 900)%Z -> (Z.max a b + 2 <= c)%Z ->
  bounded_by c (x - y).
Proof.
  intros Hx Hy Hk Hc. eapply bounded_mono; [exact Hc|].
  now apply sub_bounded.
Qed.

Lemma mul_to c a b x y :
  bounded_by a x -> bounded_by b y ->
  (-1000 <= a + b <= 900)%Z -> (a + b + 1 <= c)%Z ->
  bounded_by c (x * y).
Proof.
  intros Hx Hy Hk Hc. eapply bounded_mono; [exact Hc|].
  now apply mul_bounded.
Qed.

Lemma of_Z_bounded z : bounded_by 64 (JS.of_Z z).
Proof.
  destruct z; unfold JS.of_Z.
  - constant_bound.
  - apply of_uint63_bounded.
  - apply opp_bounded, of_uint63_bounded.
Qed.

Lemma day_fraction_finite now : is_finite (JS.of_Z now / 86400000) = true.
Proof.
  apply (bounded_is_finite 91).
  apply (div_bounded 64 26 _ _ false 5798205849600000 (-26)%Z);
    [reflexivity | apply of_Z_bounded | lia | lia].
Qed.

Section Bounds.

Variable Math_sin : JS.number -> JS.number.
Hypothesis sin_range : sine_like Math_sin.

Variable r : nat -> JS.number.
Hypothesis r_range : forall i, (0 <=? r i) = true /\ (r i <? 1) = true.

Lemma draw_bounded i : bounded_by 1 (r i).
Proof. apply unit_interval_bounded; apply r_range. Qed.

Lemma sin_bounded now : bounded_by 1 (Math_sin (JS.of_Z now / 86400000)).
Proof.
  apply within_one_bounded; apply sin_range, day_fraction_finite.
Qed.

Lemma fallback_bounded : bounded_by 14 (r 5%nat * 100).
Proof.
  apply (mul_to 14 1 7); [apply draw_bounded | constant_bound | lia | lia].
Qed.

Lemma base_value_bounded t now :
  bounded_by 14 (base_value Math_sin t now r).
Proof.
  unfold base_value.
  assert (F := fallback_bounded).
  assert (D := draw_bounded).
  destruct t;
    try match goal with
        | |- context [JS.truthy ?v] => destruct (JS.truthy v); [|exact F]
        end;
    try exact F.
  - apply (add_to 14 5 6); [constant_bound| |lia|lia].
    apply (mul_to 6 1 4); [apply sin_bounded|constant_bound|lia|lia].
  - apply (add_to 14 6 7); [constant_bound| |lia|lia].
    apply (mul_to 7 1 5); [apply D|constant_bound|lia|lia].
  - apply (sub_to 14 12 4); [|constant_bound|lia|lia].
    apply (add_to 12 10 7); [constant_bound| |lia|lia].
    apply (mul_to 7 1 5); [apply D|constant_bound|lia|lia].
  - apply (mul_to 14 1 6); [apply D|constant_bound|lia|lia].
  - destruct (JS.gt (r 3%nat) 0.7); constant_bound.
  - constant_bound.
  - apply (add_to 14 6 8); [constant_bound| |lia|lia].
    apply (mul_to 8 1 6); [apply D|constant_bound|lia|lia].
Qed.

Lemma noise_bounded x :
  (0 <=? x) = true -> (x <? 1) = true -> bounded_by 1 ((x - 0.5) * 0.1).
Proof.
  intros L U.
  apply (mul_to 1 3 (-3)); [|constant_bound|lia|lia].
  apply (sub_to 3 1 0); [|constant_bound|lia|lia].
  now apply unit_interval_bounded.
Qed.

End Bounds.

End RangeFacts.

(** * The specification, sentence by sentence *)

Module SampleFacts.

Lemma unary_length n : String.length (Sample.unary n) = S n.
Proof. induction n as [|n IH]; simpl; congruence. Qed.

Lemma unary_injective i j : Sample.unary i = Sample.unary j -> i = j.
Proof.
  intros H. apply (f_equal String.length) in H.
  rewrite !unary_length in H. congruence.
Qed.

Lemma half_unit : unit_draws (Sample.world_of (fun _ => 0.5)).
Proof. intros n. split; reflexivity. Qed.

Lemma flat_sine_like : sine_like Sample.flat.
Proof. intros x _. split; reflexivity. Qed.

End SampleFacts.

(** The sample states are states of a run. *)

Lemma reachable_initialized_service w :
  reachable Sample.flat Sample.flat Sample.flat2 w
    (Sample.initialized_service w).
Proof.
  unfold Sample.initialized_service.
  apply reach_step; [apply reach_step; [apply reach_new|]|];
    simpl; discriminate.
Qed.

Lemma reachable_registered w c :
  reachable Sample.flat Sample.flat Sample.flat2 w
    (perform Sample.flat Sample.flat Sample.flat2 (CallRegisterDevice c)
       (Sample.initialized_service w)).
Proof.
  apply reach_step; [apply reachable_initialized_service | exact I].
Qed.

Lemma registered_poll_timer w c :
  In PollTimer
     (timers (perform Sample.flat Sample.flat Sample.flat2
                (CallRegisterDevice c) (Sample.initialized_service w))).
Proof.
  unfold perform.
  destruct (registerDevice_effect c (Sample.initialized_service w))
    as (device & s1 & E & H & _).
  rewrite E. simpl. apply in_or_app. left.
  rewrite (chat_timers _ _ H). simpl. auto.
Qed.

Lemma fire_polls_poll_timer n s :
  invariant s -> In PollTimer (timers s) ->
  invariant (Sample.fire_polls n s)
  /\ In PollTimer (timers (Sample.fire_polls n s)).
Proof.
  intros I T. induction n as [|n [IHi IHt]]; [now split|].
  cbn [Sample.fire_polls]. split.
  - now apply invariant_perform.
  - unfold perform.
    destruct (poll_cycle_effect Sample.flat _ IHi) as (s' & E & _ & _ & F).
    rewrite E. simpl. now rewrite (pf_timers _ _ F).
Qed.

Lemma reachable_fire_polls w n s :
  reachable Sample.flat Sample.flat Sample.flat2 w s ->
  In PollTimer (timers s) ->
  reachable Sample.flat Sample.flat Sample.flat2 w (Sample.fire_polls n s).
Proof.
  intros R T. induction n as [|n IH]; [exact R|].
  cbn [Sample.fire_polls]. apply reach_step; [exact IH|].
  apply fire_polls_poll_timer; [|exact T].
  eapply reachable_invariant. exact R.
Qed.

Lemma reachable_polled_registered w c n :
  reachable Sample.flat Sample.flat Sample.flat2 w
    (Sample.fire_polls n
       (perform Sample.flat Sample.flat Sample.flat2 (CallRegisterDevice c)
          (Sample.initialized_service w))).
Proof.
  apply reachable_fire_polls;
    [apply reachable_registered | apply registered_poll_timer].
Qed.

Section Claims.

Variables Math_sin Math_cos : JS.number -> JS.number.
Variable Math_atan2 : JS.number -> JS.number -> JS.number.

Lemma perform_advanced a s :
  invariant s ->
  advanced (world s) (world (perform Math_sin Math_cos Math_atan2 a s)).
Proof.
  intros I. destruct a; unfold perform.
  - destruct (resume_initializeIoT_effect s) as (_ & W & _).
    rewrite W. apply advanced_refl.
  - destruct (registerDevice_effect deviceConfig s)
      as (device & s1 & E & H & _).
    rewrite E. simpl. apply H.
  - apply tame_getDevices.
  - apply advanced_refl.
  - apply tame_addEventListener.
  - apply tame_deployEdgeFunction.
  - apply tame_performSecurityScan.
  - apply tame_updateDeviceFirmware.
  - destruct (poll_cycle_effect Math_sin s I) as (s' & E & _ & _ & F).
    rewrite E. simpl. apply F.
  - apply tame_checkDeviceHealth.
Qed.

Lemma reachable_advanced w s : reachable Math_sin Math_cos Math_atan2 w s -> advanced w (world s).
Proof.
  induction 1 as [|s a R IH _].
  - simpl. apply advanced_refl.
  - eapply advanced_trans; [exact IH|].
    apply perform_advanced. eapply reachable_invariant. exact R.
Qed.

Lemma unit_draws_advanced w w' :
  advanced w w' -> unit_draws w -> unit_draws w'.
Proof. intros [R _ _ _ _ _] U n. rewrite R. apply U. Qed.

Lemma generated_within_range sensor device s :
  unit_draws (world s) -> sine_like Math_sin ->
  (fst (range sensor) <=? snd (range sensor)) = true ->
  exists reading s',
    generateSensorReading Math_sin sensor device s = (Normal reading, s')
    /\ (fst (range sensor) <=? value reading) = true
    /\ (value reading <=? snd (range sensor)) = true.
Proof.
  intros U Hsin Hrange.
  destruct (generateSensorReading_effect Math_sin sensor device s)
    as (reading & s' & k & E & _ & V & _).
  exists reading, s'. split; [exact E|]. rewrite V.
  apply NumberOrder.clamp_in_range; [exact Hrange|].
  apply (FloatBounds.bounded_not_nan 16).
  apply (RangeFacts.add_to 16 14 1); [| |lia|lia].
  - apply RangeFacts.base_value_bounded; [exact Hsin|].
    intros i. apply U.
  - apply RangeFacts.noise_bounded; apply U.
Qed.

Lemma synthesized_within_range w device sensor reading :
  unit_draws w -> sine_like Math_sin ->
  (fst (range sensor) <=? snd (range sensor)) = true ->
  synthesized Math_sin w device sensor reading ->
  (fst (range sensor) <=? value reading) = true
  /\ (value reading <=? snd (range sensor)) = true.
Proof.
  intros U Hsin Hrange (s0 & s1 & A & E).
  destruct (generated_within_range sensor device s0
              (unit_draws_advanced _ _ A U) Hsin Hrange)
    as (reading' & s' & E' & H).
  rewrite E in E'. inversion E'. subst. exact H.
Qed.

(** C1. Every reading the synthesis step produces lies within the declared
    range of its sensor, whatever numbers [Math.random] returns, provided
    the range is not empty ([range[0] <= range[1]]): the base value plus
    the noise is a number, and the clamp brings it into the range. This
    holds for [generateSensorReading] in every state, and so for each of
    the readings a poll cycle appends, one per sensor, to the history of a
    registered device that is online. *)
Theorem reading_within_range :
  sine_like Math_sin ->
  (forall sensor device s,
      unit_draws (world s) ->
      (fst (range sensor) <=? snd (range sensor)) = true ->
      exists reading s',
        generateSensorReading Math_sin sensor device s = (Normal reading, s')
        /\ (fst (range sensor) <=? value reading) = true
        /\ (value reading <=? snd (range sensor)) = true)
  /\ (forall w s k d,
         reachable Math_sin Math_cos Math_atan2 w s -> unit_draws w ->
         JS.get (devices (service s)) k = Some d -> status d = online ->
         exists news s',
           poll_cycle Math_sin s = (Normal tt, s')
           /\ history s' k = fold_left push_bounded news (history s k)
           /\ Forall2 (fun sensor reading =>
                         (fst (range sensor) <=? snd (range sensor)) = true ->
                         (fst (range sensor) <=? value reading) = true
                         /\ (value reading <=? snd (range sensor)) = true)
                      (sensors d) news).
Proof.
  intros Hsin. split.
  - intros sensor device s U Hrange.
    now apply generated_within_range.
  - intros w s k d R U G On.
    pose proof (reachable_invariant _ _ _ _ _ R) as I.
    destruct (poll_cycle_effect Math_sin s I) as (s' & E & P & _ & _).
    assert (Hin : In k (JS.keys (devices (service s)))).
    { destruct (in_dec string_dec k (JS.keys (devices (service s))))
        as [Hin|Hn]; [exact Hin|].
      apply MapFacts.get_None_keys in Hn. congruence. }
    specialize (P k Hin). unfold polled in P. rewrite G, On in P.
    simpl in P. destruct P as (news & F & H & _).
    exists news, s'. split; [exact E|]. split; [exact H|].
    eapply Forall2_impl; [|exact F].
    intros sensor reading Sy Hrange.
    apply (synthesized_within_range (world s) d sensor reading); auto.
    apply (unit_draws_advanced w); [|exact U].
    now apply reachable_advanced.
Qed.

End Claims.

(** The statement of C1 at a thermometer in a world whose random numbers are
    all one half. *)
Lemma reading_within_range_witness :
  sine_like Sample.flat
  /\ unit_draws (world (Sample.service_with (fun _ => 0.5) []))
  /\ (fst (range (Sample.blank_sensor temperature (-40) 60))
      <=? snd (range (Sample.blank_sensor temperature (-40) 60))) = true
  /\ exists reading s',
      generateSensorReading Sample.flat
        (Sample.blank_sensor temperature (-40) 60)
        (Sample.blank_device "u" [])
        (Sample.service_with (fun _ => 0.5) [])
      = (Normal reading, s')
      /\ (-40 <=? value reading) = true
      /\ (value reading <=? 60) = true.
Proof.
  split; [exact SampleFacts.flat_sine_like|].
  split; [exact SampleFacts.half_unit|].
  split; [reflexivity|].
  apply (proj1 (reading_within_range Sample.flat Sample.flat Sample.flat2
                  SampleFacts.flat_sine_like)).
  - exact SampleFacts.half_unit.
  - reflexivity.
Defined.

Section HistoryClaim.

Variables Math_sin Math_cos : JS.number -> JS.number.
Variable Math_atan2 : JS.number -> JS.number -> JS.number.

Lemma untouched_fifo s s' k old :
  length old <= 1000 ->
  JS.get (sensorReadings (service s)) k = Some old ->
  untouched s s' k ->
  exists evicted kept,
    JS.get (sensorReadings (service s')) k = Some kept
    /\ (old ++ [] = evicted ++ kept)%list
    /\ length kept = Nat.min 1000 (length old + 0).
Proof.
  intros B G [U _]. exists [], old. rewrite U.
  split; [exact G|]. split; [now rewrite app_nil_r|]. lia.
Qed.

(** C2. In every state of a run no stored history is longer than 1000
    entries; and a poll cycle leaves, for every device, the most recent
    entries of the old history followed by the readings it appended, in
    their order of insertion: what is evicted is a prefix, the oldest
    entries, and nothing is evicted while fewer than 1000 are kept. *)
Theorem history_bounded_fifo w s :
  reachable Math_sin Math_cos Math_atan2 w s ->
  (forall k rs,
      JS.get (sensorReadings (service s)) k = Some rs -> length rs <= 1000)
  /\ exists s',
      poll_cycle Math_sin s = (Normal tt, s')
      /\ (forall k rs,
             JS.get (sensorReadings (service s')) k = Some rs ->
             length rs <= 1000)
      /\ forall k old,
          JS.get (sensorReadings (service s)) k = Some old ->
          exists news evicted kept,
            appended Math_sin s k news
            /\ JS.get (sensorReadings (service s')) k = Some kept
            /\ (old ++ news = evicted ++ kept)%list
            /\ length kept = Nat.min 1000 (length old + length news).
Proof.
  intros R.
  pose proof (reachable_invariant _ _ _ _ _ R) as I.
  split; [apply I|].
  destruct (poll_cycle_effect Math_sin s I) as (s' & E & P & U & F).
  exists s'. split; [exact E|]. split.
  { pose proof (invariant_poll_cycle Math_sin s I) as I'.
    rewrite E in I'. apply I'. }
  intros k old G.
  pose proof (inv_bounded _ I _ _ G) as B.
  destruct (in_dec string_dec k (JS.keys (devices (service s)))) as [Hin|Hn].
  - specialize (P k Hin). unfold polled in P. unfold appended.
    destruct (JS.get (devices (service s)) k) as [d|].
    + destruct (DeviceStatus_eqb (status d) online).
      * destruct P as (news & Fs & H & Pr & _).
        assert (St : JS.get (sensorReadings (service s')) k <> None)
          by (apply Pr; congruence).
        unfold history in H. rewrite G in H.
        destruct (JS.get (sensorReadings (service s')) k) as [kept|];
          [|congruence].
        rewrite HistoryFacts.pushes_slice in H by exact B.
        exists news, (firstn (length (old ++ news) - 1000) (old ++ news)),
          kept.
        split; [exact Fs|]. split; [reflexivity|]. rewrite H. split.
        -- apply HistoryFacts.slice_last_split.
        -- now rewrite HistoryFacts.slice_last_length, length_app.
      * destruct (untouched_fifo s s' k old B G P) as (ev & kept & H).
        exists [], ev, kept. split; [reflexivity|]. exact H.
    + destruct (untouched_fifo s s' k old B G P) as (ev & kept & H).
      exists [], ev, kept. split; [reflexivity|]. exact H.
  - destruct (untouched_fifo s s' k old B G (U k Hn)) as (ev & kept & H).
    exists [], ev, kept. split; [|exact H].
    unfold appended. apply MapFacts.get_None_keys in Hn. now rewrite Hn.
Qed.

End HistoryClaim.

(** The statement of C2 in the state reached by registering a device with
    two sensors and letting the poll timer fire once. *)
Lemma history_bounded_fifo_witness :
  reachable Sample.flat Sample.flat Sample.flat2
    (Sample.world_of (fun _ => 0.5)) Sample.after_one_poll
  /\ forall k rs,
      JS.get (sensorReadings (service Sample.after_one_poll)) k = Some rs ->
      length rs <= 1000.
Proof.
  assert (R : reachable Sample.flat Sample.flat Sample.flat2
                (Sample.world_of (fun _ => 0.5)) Sample.after_one_poll).
  { unfold Sample.after_one_poll, Sample.two_sensors.
    apply reach_step;
      [apply reachable_registered | apply registered_poll_timer]. }
  split; [exact R|].
  exact (proj1 (history_bounded_fifo Sample.flat Sample.flat Sample.flat2
                  _ _ R)).
Defined.

Section AnomalyClaims.

Variables Math_sin Math_cos : JS.number -> JS.number.
Variable Math_atan2 : JS.number -> JS.number -> JS.number.

Lemma detectAnomaly_on_short stored reading :
  length stored < 5 -> detectAnomaly_on stored reading = false.
Proof.
  intros H. unfold detectAnomaly_on.
  rewrite HistoryFacts.slice_last_length.
  destruct (Nat.ltb_spec (Nat.min 10 (length stored)) 5); [reflexivity|lia].
Qed.

Lemma history_collected device i sensor reading s s' :
  collected Math_sin device i sensor reading s s' ->
  history s' (id device) = push_bounded (history s (id device)) reading.
Proof.
  intros C. unfold history at 1.
  now rewrite (col_readings _ _ _ _ _ _ _ C), MapFacts.get_set_same.
Qed.

(** C3, amended. The anomaly check returns [false], and no anomaly event is
    raised, whenever fewer than 5 readings are stored for the device at the
    moment of the check. The poll cycle stores the new reading before it
    checks it, so this is the case when fewer than 4 readings exist
    before the new one. *)
Theorem no_anomaly_below_five :
  (forall stored reading,
      length stored < 5 -> detectAnomaly_on stored reading = false)
  /\ (forall s deviceId sensorId reading,
         length (history s deviceId) < 5 ->
         detectAnomaly deviceId sensorId reading s = (Normal false, s))
  /\ (forall s device i sensor,
         length (history s (id device)) < 4 ->
         exists s',
           collect_one Math_sin device i sensor s = (Normal tt, s')
           /\ alerts "anomaly" (console s') = alerts "anomaly" (console s)).
Proof.
  split; [exact detectAnomaly_on_short|]. split.
  - intros s deviceId sensorId reading H.
    unfold detectAnomaly, bind, read, ret. fold (history s deviceId).
    now rewrite detectAnomaly_on_short.
  - intros s device i sensor H.
    destruct (collect_one_effect Math_sin device i sensor s)
      as (reading & s' & E & C).
    exists s'. split; [exact E|].
    rewrite (col_alerts _ _ _ _ _ _ _ C). unfold reading_alerts.
    rewrite detectAnomaly_on_short.
    + simpl app. destruct (checkThresholds sensor reading); simpl;
        now rewrite app_nil_r.
    + pose proof (HistoryFacts.push_bounded_slice
                    (history s (id device)) reading) as P.
      rewrite P, HistoryFacts.slice_last_length, length_app.
      cbn [length]. lia.
Qed.

Lemma fold_left_map_value {A B} (g : A -> B) (f : JS.number -> B -> JS.number)
  l : forall a,
  fold_left (fun acc r => f acc (g r)) l a = fold_left f (map g l) a.
Proof. induction l as [|x l IH]; intros a; simpl; auto. Qed.

Lemma slice_last_last_n {A} n (l : list A) : JS.slice_last n l = last_n n l.
Proof.
  unfold JS.slice_last, last_n. now rewrite firstn_rev, rev_involutive.
Qed.

Lemma detectAnomaly_on_deviates stored reading :
  5 <= length stored ->
  detectAnomaly_on stored reading
  = deviates (map value (last_n 10 stored)) (value reading).
Proof.
  intros H. unfold detectAnomaly_on.
  rewrite HistoryFacts.slice_last_length.
  destruct (Nat.ltb_spec (Nat.min 10 (length stored)) 5); [lia|].
  rewrite <- HistoryFacts.slice_last_length with (l := stored).
  rewrite slice_last_last_n.
  set (recent := last_n 10 stored).
  unfold deviates, std_dev, mean, total, JS.gt, JS.Math_abs, JS.Math_sqrt,
    JS.Math_pow2.
  rewrite !length_map.
  rewrite (fold_left_map_value value (fun acc x => acc + x)).
  rewrite <- (fold_left_map_value
                (fun x => (x - _) * (x - _)) (fun acc x => acc + x)
                (map value recent)).
  rewrite <- (fold_left_map_value value
                (fun acc x => acc + (x - _) * (x - _))).
  reflexivity.
Qed.

(** C4, amended. When at least 5 readings are stored for the device, the
    new one included, the anomaly check flags the new reading if and only
    if its value is more than 2 standard deviations away from the mean,
    mean and standard deviation being those of the last 10 readings stored
    for the device: the readings of all its sensors, in the order they were
    stored, the new reading among them. In the poll cycle an anomaly event
    is raised for the new reading exactly in that case. *)
Theorem anomaly_is_device_wide :
  (forall stored reading,
      5 <= length stored ->
      detectAnomaly_on stored reading
      = deviates (map value (last_n 10 stored)) (value reading))
  /\ (forall s deviceId sensorId reading,
         5 <= length (history s deviceId) ->
         detectAnomaly deviceId sensorId reading s
         = (Normal (deviates (map value (last_n 10 (history s deviceId)))
                             (value reading)), s))
  /\ (forall s device i sensor,
         exists reading s',
           collect_one Math_sin device i sensor s = (Normal tt, s')
           /\ history s' (id device)
              = push_bounded (history s (id device)) reading
           /\ (5 <= length (history s' (id device)) ->
               alerts "anomaly" (console s')
               = (alerts "anomaly" (console s)
                  ++ if deviates
                          (map value (last_n 10 (history s' (id device))))
                          (value reading)
                     then [anomaly_alert device sensor reading]
                     else [])%list)).
Proof.
  split; [exact detectAnomaly_on_deviates|]. split.
  - intros s deviceId sensorId reading H.
    unfold detectAnomaly, bind, read, ret. fold (history s deviceId).
    now rewrite detectAnomaly_on_deviates.
  - intros s device i sensor.
    destruct (collect_one_effect Math_sin device i sensor s)
      as (reading & s' & E & C).
    exists reading, s'. split; [exact E|].
    pose proof (history_collected _ _ _ _ _ _ C) as Hh.
    split; [exact Hh|]. intros H5.
    rewrite (col_alerts _ _ _ _ _ _ _ C), <- Hh. f_equal.
    unfold reading_alerts. rewrite detectAnomaly_on_deviates by exact H5.
    destruct (deviates _ _); destruct (checkThresholds sensor reading);
      reflexivity.
Qed.

End AnomalyClaims.

(** C3 as it is stated fails. A device has one sensor whose range is from 0
    to 1e-200. After four poll cycles its history holds four readings, all
    0, and no anomaly was raised. The fifth cycle produces the reading
    1e-200, stores it and checks it against the five stored readings: the
    mean is 2e-201, every squared deviation underflows to 0, the standard
    deviation is 0, and the reading is flagged although only four readings
    existed before it. *)
Lemma anomaly_after_four_readings :
  reachable Sample.flat Sample.flat Sample.flat2
    (Sample.world_of Sample.tiny_draws) Sample.four_zeros
  /\ map value (history Sample.four_zeros "u") = [0; 0; 0; 0]
  /\ alerts "anomaly" (console Sample.four_zeros) = []
  /\ map (fun a => value (alert_reading a))
       (alerts "anomaly"
          (console
             (perform Sample.flat Sample.flat Sample.flat2 FirePoll
                Sample.four_zeros)))
     = [1e-200].
Proof.
  split.
  - apply reachable_polled_registered.
  - vm_compute. repeat split; reflexivity.
Qed.

(** The statement of C3, amended, at a device without stored readings. *)
Lemma no_anomaly_below_five_witness :
  length (history Sample.tiny_sensor "u") < 4
  /\ exists s',
      collect_one Sample.flat
        (Sample.blank_device "u" [Sample.blank_sensor gps 0 1]) 0
        (Sample.blank_sensor gps 0 1) Sample.tiny_sensor
      = (Normal tt, s')
      /\ alerts "anomaly" (console s')
         = alerts "anomaly" (console Sample.tiny_sensor).
Proof.
  split.
  - vm_compute. lia.
  - apply (proj2 (proj2 (no_anomaly_below_five Sample.flat))).
    vm_compute. lia.
Defined.

(** C4 as it is stated fails. A device has a position sensor, whose
    readings are 0 in five poll cycles and 1 in the sixth, and a camera
    that reads 1000 every time. When the sixth position reading is checked,
    eleven readings are stored for the device, six of them from the
    position sensor. Against the readings of its own sensor the value 1
    deviates by more than two standard deviations; the check, which takes
    the last ten readings of the device, camera included, does not flag it,
    and the run raises no anomaly event at all. *)
Lemma anomaly_ignores_the_sensor :
  reachable Sample.flat Sample.flat Sample.flat2
    (Sample.world_of Sample.late_draws) Sample.six_cycles
  /\ map value (history Sample.six_cycles "u")
     = [0; 1000; 0; 1000; 0; 1000; 0; 1000; 0; 1000; 1; 1000]
  /\ map value
       (readings_of_type gps (firstn 11 (history Sample.six_cycles "u")))
     = [0; 0; 0; 0; 0; 1]
  /\ claimed_anomaly gps (firstn 11 (history Sample.six_cycles "u"))
       (nth 10 (history Sample.six_cycles "u") Sample.blank_reading)
     = true
  /\ detectAnomaly_on (firstn 11 (history Sample.six_cycles "u"))
       (nth 10 (history Sample.six_cycles "u") Sample.blank_reading)
     = false
  /\ alerts "anomaly" (console Sample.six_cycles) = [].
Proof.
  split.
  - apply reachable_polled_registered.
  - vm_compute. repeat split; reflexivity.
Qed.

(** The statement of C4, amended, at six stored readings. *)
Lemma anomaly_is_device_wide_witness :
  5 <= length (map Sample.reading_of [0; 0; 0; 0; 0; 1])
  /\ detectAnomaly_on (map Sample.reading_of [0; 0; 0; 0; 0; 1])
       (Sample.reading_of 1)
     = deviates
         (map value (last_n 10 (map Sample.reading_of [0; 0; 0; 0; 0; 1])))
         (value (Sample.reading_of 1)).
Proof.
  split.
  - simpl. lia.
  - apply (proj1 (anomaly_is_device_wide Sample.flat)). simpl. lia.
Defined.

Lemma ltb_not_leb x y : (x <? y) = true -> (y <=? x) = false.
Proof.
  intros H. apply NumberOrder.ltb_cmp in H.
  destruct (y <=? x) eqn:L; [|reflexivity].
  apply NumberOrder.leb_cmp in L.
  rewrite (NumberOrder.cmp_antisym x y), H in L. simpl in L.
  destruct L; discriminate.
Qed.

Section ListClaim.

Variables Math_sin Math_cos : JS.number -> JS.number.
Variable Math_atan2 : JS.number -> JS.number -> JS.number.

(** [calculateDistance] is the haversine formula of the specification. *)
Lemma calculateDistance_haversine lat1 lng1 lat2 lng2 :
  calculateDistance Math_sin Math_cos Math_atan2 lat1 lng1 lat2 lng2
  = haversine Math_sin Math_cos Math_atan2 lat1 lng1 lat2 lng2.
Proof.
  unfold calculateDistance, haversine, radians, earth_radius, JS.Math_sqrt.
  reflexivity.
Qed.

Lemma getDevices_of_location all loc :
  getDevices_of Math_sin Math_cos Math_atan2 all (by_location loc)
  = filter (fun d => great_circle Math_sin Math_cos Math_atan2 loc d
                     <=? radius loc) all.
Proof.
  unfold getDevices_of, by_location. cbn [flt_type flt_status flt_location].
  apply filter_ext. intros d. unfold JS.le, great_circle.
  now rewrite calculateDistance_haversine.
Qed.

(** C5. With a location filter, [getDevices] returns, in the order of
    registration, exactly the registered devices whose great-circle
    distance to the query point, by the haversine formula, is at most the
    radius: a device at a distance equal to the radius is returned, one at
    a larger distance is not. When the filter also names a type or a
    status, what is returned still lies within the radius. *)
Theorem getDevices_within_radius s loc :
  getDevices Math_sin Math_cos Math_atan2 (by_location loc) s
  = (Normal (filter (fun d => great_circle Math_sin Math_cos Math_atan2 loc d
                              <=? radius loc)
                    (JS.values (devices (service s)))), s)
  /\ (forall d,
         In d (listed Math_sin Math_cos Math_atan2 s (by_location loc))
         <-> In d (JS.values (devices (service s)))
             /\ (great_circle Math_sin Math_cos Math_atan2 loc d
                 <=? radius loc) = true)
  /\ (forall d,
         In d (JS.values (devices (service s))) ->
         (great_circle Math_sin Math_cos Math_atan2 loc d =? radius loc)
         = true ->
         In d (listed Math_sin Math_cos Math_atan2 s (by_location loc)))
  /\ (forall d,
         (radius loc <? great_circle Math_sin Math_cos Math_atan2 loc d)
         = true ->
         ~ In d (listed Math_sin Math_cos Math_atan2 s (by_location loc)))
  /\ (forall f d,
         flt_location f = Some loc ->
         In d (listed Math_sin Math_cos Math_atan2 s (Some f)) ->
         In d (JS.values (devices (service s)))
         /\ (great_circle Math_sin Math_cos Math_atan2 loc d
             <=? radius loc) = true).
Proof.
  split; [|split; [|split; [|split]]].
  - unfold getDevices, bind, read, ret.
    now rewrite getDevices_of_location.
  - intros d. unfold listed. rewrite getDevices_of_location.
    apply filter_In.
  - intros d Hin He. unfold listed. rewrite getDevices_of_location.
    apply filter_In. split; [exact Hin|].
    now apply NumberOrder.eqb_leb.
  - intros d Hlt Hin. unfold listed in Hin.
    rewrite getDevices_of_location in Hin.
    apply filter_In in Hin. destruct Hin as [_ Hle].
    rewrite (ltb_not_leb _ _ Hlt) in Hle. discriminate.
  - intros f d Hloc Hin. unfold listed, getDevices_of in Hin.
    rewrite Hloc in Hin. apply filter_In in Hin. destruct Hin as [Hin Hle].
    unfold JS.le in Hle. rewrite calculateDistance_haversine in Hle.
    split; [|exact Hle].
    destruct (flt_status f); [apply filter_In in Hin; destruct Hin as [Hin _]|];
      destruct (flt_type f) as [t|]; auto;
      destruct (String.eqb t ""); auto;
      apply filter_In in Hin; tauto.
Qed.

End ListClaim.

(** The statement of C5 for three devices at about 0.99925 km, a little
    more than 1 km and about 111.19 km from the query point. With a radius
    of 1 km only the first is returned, with 0.99 km none, and with the
    distance of the first as the radius the first is returned: the
    boundary is included. *)
Lemma getDevices_within_radius_witness :
  map (great_circle Atlas.sine Atlas.cosine Atlas.arctangent2
         (Atlas.around 1))
      (JS.values (devices (service Atlas.three_places)))
  = [0.99924651161829747; 1.0000004381983785; 111.19492664456577]
  /\ getDevices Atlas.sine Atlas.cosine Atlas.arctangent2
       (by_location (Atlas.around 1)) Atlas.three_places
     = (Normal (firstn 1 (JS.values (devices (service Atlas.three_places)))),
        Atlas.three_places)
  /\ getDevices Atlas.sine Atlas.cosine Atlas.arctangent2
       (by_location (Atlas.around 0.99)) Atlas.three_places
     = (Normal [], Atlas.three_places)
  /\ getDevices Atlas.sine Atlas.cosine Atlas.arctangent2
       (by_location (Atlas.around 0.99924651161829747)) Atlas.three_places
     = (Normal (firstn 1 (JS.values (devices (service Atlas.three_places)))),
        Atlas.three_places)
  /\ getDevices Atlas.sine Atlas.cosine Atlas.arctangent2
       (by_location (Atlas.around 111.2)) Atlas.three_places
     = (Normal (JS.values (devices (service Atlas.three_places))),
        Atlas.three_places).
Proof.
  rewrite !(proj1 (getDevices_within_radius Atlas.sine Atlas.cosine
                     Atlas.arctangent2 Atlas.three_places _)).
  split; [vm_compute; reflexivity|].
  split; [|split; [|split]];
    (apply f_equal2; [apply f_equal; vm_compute; reflexivity|reflexivity]).
Defined.

Section RegisterClaim.

Variables Math_sin Math_cos : JS.number -> JS.number.
Variable Math_atan2 : JS.number -> JS.number -> JS.number.

(** C6. [registerDevice] returns normally for every configuration, in
    every state. The device it returns has one sensor per configured
    sensor, in the same order and with the configured type, unit, range and
    accuracy; the value of each sensor's last reading is 0; the status is
    online; the next calibration of each sensor is 30 days (2 592 000 000
    milliseconds) after a reading of the clock taken during the call; the
    device is stored under its identifier, with an empty history; and, in a
    run whose identifier source never repeats, the identifier is not that
    of a device registered before. *)
Theorem registerDevice_returns_device c s :
  exists device s',
    registerDevice c s = (Normal device, s')
    /\ length (sensors device) = length (cfg_sensors c)
    /\ Forall2 (fun sc x =>
                  sensor_type x = cfg_sensor_type sc
                  /\ sensor_unit x = cfg_unit sc
                  /\ range x = cfg_range sc
                  /\ accuracy x = cfg_accuracy sc
                  /\ value (lastReading x) = 0
                  /\ exists t,
                      read_between s s' t
                      /\ nextCalibration (calibration x)
                         = (t + 30 * 24 * 60 * 60 * 1000)%Z)
               (cfg_sensors c) (sensors device)
    /\ status device = online
    /\ JS.get (devices (service s')) (id device) = Some device
    /\ JS.get (sensorReadings (service s')) (id device) = Some []
    /\ (forall w,
           reachable Math_sin Math_cos Math_atan2 w s ->
           (forall i j, uuid_src w i = uuid_src w j -> i = j) ->
           ~ In (id device) (JS.keys (devices (service s)))).
Proof.
  destruct (registerDevice_effect c s)
    as (device & s1 & E & H & Hid & Hpos & _ & _ & Hst & Hs).
  exists device, (registered device s1).
  split; [exact E|]. split; [|split; [|split; [|split; [|split]]]].
  - symmetry. eapply Forall2_length. exact Hs.
  - eapply Forall2_impl; [|exact Hs].
    intros sc x [T U R A V Q N]. auto 10.
  - exact Hst.
  - simpl. apply MapFacts.get_set_same.
  - simpl. apply MapFacts.get_set_same.
  - intros w R Inj Hin.
    pose proof (reachable_invariant _ _ _ _ _ R) as I.
    pose proof (reachable_advanced _ _ _ _ _ R) as A.
    destruct (inv_drawn _ I _ Hin) as (n & Hn & En).
    rewrite Hid in En. destruct A as [_ U _ _ _ _]. rewrite U in En.
    apply Inj in En. lia.
Qed.

End RegisterClaim.

(** The statement of C6 for a device with two sensors registered with a
    fresh service whose identifiers never repeat. *)
Lemma registerDevice_returns_device_witness :
  reachable Sample.flat Sample.flat Sample.flat2
    (Sample.world_of (fun _ => 0.5))
    (new_IoTService (Sample.world_of (fun _ => 0.5)))
  /\ exists device s',
      registerDevice
        (Sample.config_of [Sample.sensor_config temperature (-40) 60;
                           Sample.sensor_config humidity 0 100])
        (new_IoTService (Sample.world_of (fun _ => 0.5)))
      = (Normal device, s')
      /\ length (sensors device) = 2%nat
      /\ status device = online
      /\ ~ In (id device)
           (JS.keys (devices (service
              (new_IoTService (Sample.world_of (fun _ => 0.5)))))).
Proof.
  split; [apply reach_new|].
  destruct (registerDevice_returns_device Sample.flat Sample.flat
              Sample.flat2
              (Sample.config_of [Sample.sensor_config temperature (-40) 60;
                                 Sample.sensor_config humidity 0 100])
              (new_IoTService (Sample.world_of (fun _ => 0.5))))
    as (device & s' & E & L & _ & St & _ & _ & Fresh).
  exists device, s'. split; [exact E|]. split; [exact L|].
  split; [exact St|].
  apply (Fresh (Sample.world_of (fun _ => 0.5))).
  - apply reach_new.
  - exact SampleFacts.unary_injective.
Defined.

Lemma alerts_threshold_of_reading device sensor reading stored :
  alerts "threshold" (reading_alerts device sensor reading stored)
  = match checkThresholds sensor reading with
    | Some t => [threshold_alert device sensor reading t]
    | None => []
    end.
Proof.
  unfold reading_alerts.
  destruct (detectAnomaly_on stored reading);
    destruct (checkThresholds sensor reading); reflexivity.
Qed.

(** C7. The verdict of the threshold check is a function of the type of
    the sensor and the value of the reading: two calls that agree on both
    return the same bounds and severity, or both return no violation,
    whatever else differs in the sensors and the readings. The threshold
    event [processReading] raises is that verdict, in whatever state it
    runs. *)
Theorem checkThresholds_deterministic :
  (forall sensor1 sensor2 reading1 reading2,
      sensor_type sensor1 = sensor_type sensor2 ->
      value reading1 = value reading2 ->
      checkThresholds sensor1 reading1 = checkThresholds sensor2 reading2)
  /\ (forall s device i sensor reading,
         exists s',
           processReading device i sensor reading s = (Normal tt, s')
           /\ alerts "threshold" (console s')
              = (alerts "threshold" (console s)
                 ++ match checkThresholds sensor reading with
                    | Some t => [threshold_alert device sensor reading t]
                    | None => []
                    end)%list).
Proof.
  split.
  - intros sensor1 sensor2 reading1 reading2 Ht Hv.
    unfold checkThresholds. now rewrite Ht, Hv.
  - intros s device i sensor reading.
    destruct (processReading_effect device i sensor reading s)
      as (s' & E & L).
    exists s'. split; [exact E|].
    now rewrite (logged_alerts _ _ _ L), alerts_threshold_of_reading.
Qed.

(** The statement of C7 at two thermometers with different ranges and two
    readings of 45 degrees with different labels. *)
Lemma checkThresholds_deterministic_witness :
  sensor_type (Sample.blank_sensor temperature (-40) 60)
  = sensor_type (Sample.blank_sensor temperature (-20) 50)
  /\ value (Sample.reading_of 45)
     = value {| reading_id := "other"; value := 45; timestamp := 7%Z;
                quality := poor; metadata := None |}
  /\ checkThresholds (Sample.blank_sensor temperature (-40) 60)
       (Sample.reading_of 45)
     = checkThresholds (Sample.blank_sensor temperature (-20) 50)
         {| reading_id := "other"; value := 45; timestamp := 7%Z;
            quality := poor; metadata := None |}.
Proof.
  split; [reflexivity|]. split; [reflexivity|].
  apply (proj1 checkThresholds_deterministic); reflexivity.
Defined.

Section QualityClaim.

Variables Math_sin Math_cos : JS.number -> JS.number.
Variable Math_atan2 : JS.number -> JS.number -> JS.number.

(** C8. The quality label of a reading is a function of two things only:
    whether the value lies in the declared range of the sensor, and the
    accuracy of the sensor. It is excellent when the value is in range and
    the accuracy exceeds 0.9, else good when in range and the accuracy
    exceeds 0.8, else fair when in range and the accuracy exceeds 0.6, else
    poor. The reading the poll cycle stores carries that label whatever the
    anomaly and threshold checks say about it. *)
Theorem quality_from_range_and_accuracy :
  (forall v sensor,
      assessDataQuality v sensor
      = quality_label (within_range v (range sensor)) (accuracy sensor))
  /\ (forall sensor device s,
         exists reading s',
           generateSensorReading Math_sin sensor device s
           = (Normal reading, s')
           /\ quality reading
              = quality_label (within_range (value reading) (range sensor))
                              (accuracy sensor))
  /\ (forall s device i sensor,
         exists reading s',
           collect_one Math_sin device i sensor s = (Normal tt, s')
           /\ history s' (id device)
              = push_bounded (history s (id device)) reading
           /\ quality reading
              = quality_label (within_range (value reading) (range sensor))
                              (accuracy sensor))
  /\ (forall w s k r,
         reachable Math_sin Math_cos Math_atan2 w s ->
         In r (history s k) ->
         exists d x,
           JS.get (devices (service s)) k = Some d
           /\ In x (sensors d)
           /\ quality r
              = quality_label (within_range (value r) (range x))
                              (accuracy x)).
Proof.
  assert (A : forall v sensor,
             assessDataQuality v sensor
             = quality_label (within_range v (range sensor))
                             (accuracy sensor)) by reflexivity.
  split; [exact A|]. split; [|split].
  - intros sensor device s.
    destruct (generateSensorReading_effect Math_sin sensor device s)
      as (reading & s' & k & E & _ & _ & Q & _).
    exists reading, s'. split; [exact E|]. now rewrite Q.
  - intros s device i sensor.
    destruct (collect_one_effect Math_sin device i sensor s)
      as (reading & s' & E & C).
    exists reading, s'. split; [exact E|].
    split; [exact (history_collected _ _ _ _ _ _ _ C)|].
    rewrite <- A. eapply synthesized_quality. apply C.
  - intros w s k r R Hin. unfold history in Hin.
    destruct (JS.get (sensorReadings (service s)) k) as [rs|] eqn:G;
      [|contradiction].
    destruct (reachable_labelled _ _ _ _ _ R k rs r G Hin)
      as (d & x & Gd & Hx & Q).
    exists d, x. rewrite <- A. auto.
Qed.

End QualityClaim.

(** The statement of C8 at the first reading stored by the first poll cycle
    of a device with a thermometer and a hygrometer. *)
Lemma quality_from_range_and_accuracy_witness :
  reachable Sample.flat Sample.flat Sample.flat2
    (Sample.world_of (fun _ => 0.5)) (Sample.fire_polls 1 Sample.two_sensors)
  /\ In (hd Sample.blank_reading
           (history (Sample.fire_polls 1 Sample.two_sensors) "u"))
        (history (Sample.fire_polls 1 Sample.two_sensors) "u")
  /\ exists d x,
      JS.get (devices (service (Sample.fire_polls 1 Sample.two_sensors))) "u"
      = Some d
      /\ In x (sensors d)
      /\ quality (hd Sample.blank_reading
                    (history (Sample.fire_polls 1 Sample.two_sensors) "u"))
         = quality_label
             (within_range
                (value (hd Sample.blank_reading
                          (history (Sample.fire_polls 1 Sample.two_sensors)
                             "u")))
                (range x))
             (accuracy x).
Proof.
  assert (R : reachable Sample.flat Sample.flat Sample.flat2
                (Sample.world_of (fun _ => 0.5))
                (Sample.fire_polls 1 Sample.two_sensors))
    by apply reachable_polled_registered.
  assert (H : In (hd Sample.blank_reading
                    (history (Sample.fire_polls 1 Sample.two_sensors) "u"))
                 (history (Sample.fire_polls 1 Sample.two_sensors) "u"))
    by (vm_compute; left; reflexivity).
  split; [exact R|]. split; [exact H|].
  exact (proj2 (proj2 (proj2
           (quality_from_range_and_accuracy Sample.flat Sample.flat
              Sample.flat2)))
           _ _ _ _ R H).
Defined.

Lemma listeners_return deviceId functionCode triggers : forall s,
  exists s',
    forM_ triggers (fun trigger =>
      addEventListener trigger (EdgeHandler deviceId functionCode)) s
    = (Normal tt, s').
Proof.
  induction triggers as [|t ts IH]; intros s; simpl.
  - eexists. reflexivity.
  - unfold bind at 1, addEventListener at 1, modify. cbv beta iota.
    apply IH.
Qed.

Lemma deployEdgeFunction_cases deviceId functionCode triggers s :
  match JS.get (devices (service s)) deviceId with
  | None =>
      deployEdgeFunction deviceId functionCode triggers s
      = (Throw "Device not found", s)
  | Some _ =>
      exists s',
        deployEdgeFunction deviceId functionCode triggers s = (Normal tt, s')
  end.
Proof.
  destruct (JS.get (devices (service s)) deviceId) eqn:G;
    unfold deployEdgeFunction, bind, read; rewrite G; [|reflexivity].
  unfold console_log, modify. apply listeners_return.
Qed.

Lemma performSecurityScan_cases deviceId s :
  match JS.get (devices (service s)) deviceId with
  | None => performSecurityScan deviceId s = (Throw "Device not found", s)
  | Some _ =>
      exists report s',
        performSecurityScan deviceId s = (Normal report, s')
  end.
Proof.
  destruct (JS.get (devices (service s)) deviceId) eqn:G;
    unfold performSecurityScan, bind, read; rewrite G; [|reflexivity].
  eexists _, _. reflexivity.
Qed.

Lemma updateDeviceFirmware_cases deviceId ver s :
  match JS.get (devices (service s)) deviceId with
  | None =>
      updateDeviceFirmware deviceId ver s = (Throw "Device not found", s)
  | Some _ =>
      exists s', updateDeviceFirmware deviceId ver s = (Normal tt, s')
  end.
Proof.
  destruct (JS.get (devices (service s)) deviceId) eqn:G;
    unfold updateDeviceFirmware, bind, read; rewrite G; [|reflexivity].
  destruct ver as [v|]; [destruct (String.eqb v "")|];
    eexists; reflexivity.
Qed.

(** C9. Each of the three operations that take a device id throws an error
    with the message "Device not found" if and only if no device is
    registered under that id; it throws nothing else; and when it throws,
    the whole state, registry included, is what it was before the call. *)
Theorem device_not_found s deviceId :
  (forall functionCode triggers,
      (throws (deployEdgeFunction deviceId functionCode triggers) s
         "Device not found"
       <-> JS.get (devices (service s)) deviceId = None)
      /\ (forall message,
             throws (deployEdgeFunction deviceId functionCode triggers) s
               message ->
             message = "Device not found"
             /\ snd (deployEdgeFunction deviceId functionCode triggers s)
                = s))
  /\ ((throws (performSecurityScan deviceId) s "Device not found"
       <-> JS.get (devices (service s)) deviceId = None)
      /\ (forall message,
             throws (performSecurityScan deviceId) s message ->
             message = "Device not found"
             /\ snd (performSecurityScan deviceId s) = s))
  /\ (forall ver,
         (throws (updateDeviceFirmware deviceId ver) s "Device not found"
          <-> JS.get (devices (service s)) deviceId = None)
         /\ (forall message,
                throws (updateDeviceFirmware deviceId ver) s message ->
                message = "Device not found"
                /\ snd (updateDeviceFirmware deviceId ver s) = s)).
Proof.
  unfold throws. split; [|split].
  - intros functionCode triggers.
    pose proof (deployEdgeFunction_cases deviceId functionCode triggers s)
      as H.
    destruct (JS.get (devices (service s)) deviceId).
    + destruct H as (s' & ->). simpl. repeat split; discriminate.
    + rewrite H. simpl. repeat split; congruence.
  - pose proof (performSecurityScan_cases deviceId s) as H.
    destruct (JS.get (devices (service s)) deviceId).
    + destruct H as (r & s' & ->). simpl. repeat split; discriminate.
    + rewrite H. simpl. repeat split; congruence.
  - intros ver.
    pose proof (updateDeviceFirmware_cases deviceId ver s) as H.
    destruct (JS.get (devices (service s)) deviceId).
    + destruct H as (s' & ->). simpl. repeat split; discriminate.
    + rewrite H. simpl. repeat split; congruence.
Qed.

(** The statement of C9 for the security scan of an id that a service with
    one device does not know. *)
Lemma device_not_found_witness :
  JS.get (devices (service Sample.two_sensors)) "nobody" = None
  /\ throws (performSecurityScan "nobody") Sample.two_sensors
       "Device not found"
  /\ snd (performSecurityScan "nobody" Sample.two_sensors)
     = Sample.two_sensors.
Proof.
  assert (N : JS.get (devices (service Sample.two_sensors)) "nobody" = None)
    by (vm_compute; reflexivity).
  destruct (device_not_found Sample.two_sensors "nobody")
    as (_ & (Iff & Same) & _).
  split; [exact N|].
  assert (T : throws (performSecurityScan "nobody") Sample.two_sensors
                "Device not found") by (apply Iff; exact N).
  split; [exact T|]. apply (Same _ T).
Defined.

(** C10. A sensor whose type has no entry in the threshold table, which is
    the case of the types pressure, proximity, gps, accelerometer and
    camera and of no other, gets no violation from the threshold check
    whatever the reading, and [processReading] raises no threshold event
    for it. *)
Theorem no_threshold_no_event :
  (forall t,
      thresholds t = None
      <-> In t [pressure; proximity; gps; accelerometer; camera])
  /\ (forall sensor,
         In (sensor_type sensor)
            [pressure; proximity; gps; accelerometer; camera] ->
         (forall reading, checkThresholds sensor reading = None)
         /\ (forall s device i reading,
                exists s',
                  processReading device i sensor reading s = (Normal tt, s')
                  /\ alerts "threshold" (console s')
                     = alerts "threshold" (console s))).
Proof.
  assert (T : forall t,
             thresholds t = None
             <-> In t [pressure; proximity; gps; accelerometer; camera]).
  { intros t. destruct t; simpl; split; intros H;
      try reflexivity; try discriminate; auto 10;
      repeat (destruct H as [H|H]; try discriminate); contradiction. }
  split; [exact T|].
  intros sensor Hin. apply T in Hin.
  assert (C : forall reading, checkThresholds sensor reading = None).
  { intros reading. unfold checkThresholds. now rewrite Hin. }
  split; [exact C|].
  intros s device i reading.
  destruct (processReading_effect device i sensor reading s)
    as (s' & E & L).
  exists s'. split; [exact E|].
  rewrite (logged_alerts _ _ _ L), alerts_threshold_of_reading, C.
  apply app_nil_r.
Qed.

(** The statement of C10 at a pressure sensor and a reading far outside
    any band. *)
Lemma no_threshold_no_event_witness :
  In (sensor_type (Sample.blank_sensor pressure 900 1100))
     [pressure; proximity; gps; accelerometer; camera]
  /\ checkThresholds (Sample.blank_sensor pressure 900 1100)
       (Sample.reading_of 1000000)
     = None.
Proof.
  assert (H : In (sensor_type (Sample.blank_sensor pressure 900 1100))
                 [pressure; proximity; gps; accelerometer; camera])
    by (simpl; auto).
  split; [exact H|].
  apply (proj1 (proj2 no_threshold_no_event _ H)).
Defined.

(** * The rest of the class

    Properties of the code the sentences of the specification do not speak
    of: the filters of the registry, deployment, the event system, what a
    run keeps, the security scan, the firmware update and the maintenance
    forecast. *)

(** ** Numbers: signs and finite results *)

Module FloatSigns.

Local Open Scope Z_scope.

Lemma shr_fexp_nonneg m e l :
  0 <= m -> 0 <= shr_m (fst (shr_fexp prec emax m e l)).
Proof.
  intros Hm. unfold shr_fexp, shr.
  destruct (fexp prec emax (Zdigits2 m + e) - e) as [|p|p];
    simpl fst; rewrite ?FloatBounds.shr_record_of_loc_m; try exact Hm.
  apply FloatBounds.iter_shr_1_digits.
  now rewrite FloatBounds.shr_record_of_loc_m.
Qed.

(** Rounding keeps the sign and never gives [NaN]. *)
Lemma binary_round_aux_sign sx mx ex lx :
  0 <= mx ->
  match binary_round_aux prec emax sx mx ex lx with
  | S754_zero s | S754_finite s _ _ | S754_infinity s => s = sx
  | S754_nan => False
  end.
Proof.
  intros Hm. unfold binary_round_aux.
  pose proof (shr_fexp_nonneg mx ex lx Hm) as H1.
  destruct (shr_fexp prec emax mx ex lx) as [r1 e1]. simpl fst in H1.
  destruct (FloatBounds.round_nearest_even_digits
              (shr_m r1) (loc_of_shr_record r1) H1) as [H2 _].
  pose proof (shr_fexp_nonneg _ e1 loc_Exact H2) as H3.
  destruct (shr_fexp prec emax _ e1 loc_Exact) as [r2 e2]. simpl fst in H3.
  destruct (shr_m r2) as [|p|p]; [reflexivity| |lia].
  destruct (e2 <=? emax - prec); reflexivity.
Qed.

Lemma sub_not_positive x my ey :
  not_positive x ->
  not_positive (SF64sub x (S754_finite false my ey)).
Proof.
  destruct x as [s|s| |s mx ex]; try (intros []; fail).
  - intros _. exact I.
  - destruct s; [intros _; exact I | intros []].
  - destruct s; [intros _ | intros []].
    unfold SF64sub, SFsub.
    set (a := fst (shl_align mx ex _)). set (b := fst (shl_align my ey _)).
    change (binary_normalize prec emax _ (Z.min ex ey) false)
      with (binary_round prec emax true (a + b) (Z.min ex ey)).
    unfold binary_round.
    destruct (shl_align (a + b) _ _) as [mz ez].
    pose proof (binary_round_aux_sign true (Zpos mz) ez loc_Exact
                  ltac:(lia)) as H.
    destruct (binary_round_aux prec emax true (Zpos mz) ez loc_Exact)
      as [s|s| |s m e]; cbn [not_positive]; try subst s; tauto.
Qed.

Lemma Zdigits2_mono m r : 0 <= m <= r -> Zdigits2 m <= Zdigits2 r.
Proof.
  intros H. apply FloatBounds.Zdigits2_le.
  - apply FloatBounds.Zdigits2_nonneg.
  - pose proof (FloatBounds.Zdigits2_gt r). lia.
Qed.

Lemma Zdigits2_pos m : 0 <= m -> 0 < Zdigits2 m -> 0 < m.
Proof. destruct m; simpl; lia. Qed.

Lemma Zdigits2_of_pos m : 0 < m -> 0 < Zdigits2 m.
Proof. destruct m; simpl; lia. Qed.

(** In the normal range a shift loses no magnitude. *)
Lemma shr_fexp_normal m e l :
  0 < m -> -1074 <= Zdigits2 m + e - 53 ->
  0 < shr_m (fst (shr_fexp prec emax m e l))
  /\ e <= snd (shr_fexp prec emax m e l)
  /\ Zdigits2 (shr_m (fst (shr_fexp prec emax m e l)))
     + snd (shr_fexp prec emax m e l)
     = Zdigits2 m + e.
Proof.
  intros Hm Hn. unfold shr_fexp, shr. rewrite FloatBounds.fexp_eq.
  pose proof (Zdigits2_of_pos m Hm) as Hd.
  destruct (Z.max (Zdigits2 m + e - 53) (-1074) - e) as [|p|p] eqn:En;
    simpl fst; simpl snd; rewrite ?FloatBounds.shr_record_of_loc_m;
    try (repeat split; lia).
  destruct (FloatBounds.iter_shr_1_digits p (shr_record_of_loc m l))
    as [H1 E1].
  { rewrite FloatBounds.shr_record_of_loc_m. lia. }
  rewrite FloatBounds.shr_record_of_loc_m in E1.
  split; [|split; [lia|]].
  - apply Zdigits2_pos; [exact H1|]. rewrite E1. lia.
  - rewrite E1. lia.
Qed.

Lemma round_nearest_even_ge m l : 0 <= m -> m <= round_nearest_even m l.
Proof.
  intros H. unfold round_nearest_even.
  destruct l as [|[]]; try destruct (Z.even m); lia.
Qed.

(** Rounding a positive number of the normal range that is not too large
    gives a finite number of the same sign whose exponent is no smaller. *)
Lemma binary_round_aux_finite sx mx ex lx :
  0 < mx -> -1074 <= Zdigits2 mx + ex - 53 ->
  Zdigits2 mx + ex <= 1000 -> ex <= 971 ->
  exists m e,
    binary_round_aux prec emax sx mx ex lx = S754_finite sx m e /\ ex <= e.
Proof.
  intros Hm Hn Hk He. unfold binary_round_aux.
  destruct (shr_fexp_normal mx ex lx Hm Hn) as (P1 & L1 & D1).
  destruct (FloatBounds.shr_fexp_small mx ex lx 1000 ltac:(lia) Hk He
              ltac:(lia)) as (_ & _ & U1).
  destruct (shr_fexp prec emax mx ex lx) as [r1 e1].
  simpl fst in *. simpl snd in *.
  pose proof (round_nearest_even_ge (shr_m r1) (loc_of_shr_record r1)
                ltac:(lia)) as G.
  destruct (FloatBounds.round_nearest_even_digits (shr_m r1)
              (loc_of_shr_record r1) ltac:(lia)) as [_ D2].
  pose proof (Zdigits2_mono (shr_m r1)
                (round_nearest_even (shr_m r1) (loc_of_shr_record r1))
                ltac:(lia)) as M2.
  set (m2 := round_nearest_even (shr_m r1) (loc_of_shr_record r1)) in *.
  destruct (shr_fexp_normal m2 e1 loc_Exact ltac:(lia) ltac:(lia))
    as (P3 & L3 & D3).
  destruct (FloatBounds.shr_fexp_small m2 e1 loc_Exact 1001 ltac:(lia)
              ltac:(lia) U1 ltac:(lia)) as (_ & _ & U3).
  destruct (shr_fexp prec emax m2 e1 loc_Exact) as [r2 e2].
  simpl fst in *. simpl snd in *.
  destruct (shr_m r2) as [|p|p]; try lia.
  change (emax - prec) with 971.
  destruct (Z.leb_spec e2 971); [|lia].
  exists p, e2. split; [reflexivity|lia].
Qed.

(** A positive integer below [2 ^ 63] as a number. *)
Lemma of_Z_positive z :
  0 < z < 2 ^ 63 ->
  exists m e, Prim2SF (JS.of_Z z) = S754_finite false m e /\ -52 <= e.
Proof.
  intros H. destruct z as [|p|p]; try lia. unfold JS.of_Z.
  rewrite of_uint63_spec.
  assert (E : Uint63.to_Z (Uint63.of_Z (Zpos p)) = Zpos p).
  { rewrite Uint63.of_Z_spec. apply Z.mod_small.
    change Uint63.wB with (2 ^ 63). lia. }
  rewrite E. unfold binary_normalize, binary_round.
  pose proof (FloatBounds.digits2_pos_le p 63 ltac:(lia) ltac:(lia)) as D.
  assert (D0 : 0 < Zpos (digits2_pos p)) by lia.
  destruct (FloatBounds.shl_align_spec p 0
              (fexp prec emax (Zpos (digits2_pos p) + 0)))
    as (A1 & A2 & A3).
  rewrite FloatBounds.fexp_eq in *.
  assert (A4 : Z.min 0 (Zpos (digits2_pos p) - 53)
               <= snd (shl_align p 0
                         (Z.max (Zpos (digits2_pos p) + 0 - 53) (-1074)))).
  { unfold shl_align.
    destruct (Z.max (Zpos (digits2_pos p) + 0 - 53) (-1074) - 0) eqn:En;
      cbn [snd]; lia. }
  destruct (shl_align p 0 _) as [mz ez]. cbn [fst snd] in *.
  destruct (binary_round_aux_finite false (Zpos mz) ez loc_Exact)
    as (m & e & R & L); simpl Zdigits2; try lia.
  exists m, e. split; [exact R|lia].
Qed.

End FloatSigns.

(** ** Facts about the samples *)

Lemma sample_device :
  exists d, JS.get (devices (service Sample.two_sensors)) "u" = Some d.
Proof. vm_compute. eexists. reflexivity. Qed.

Lemma sample_reachable :
  reachable Sample.flat Sample.flat Sample.flat2
    (Sample.world_of (fun _ => 0.5)) Sample.two_sensors.
Proof. apply reachable_registered. Qed.

Lemma sample_polled_reachable :
  reachable Sample.flat Sample.flat Sample.flat2
    (Sample.world_of (fun _ => 0.5)) (Sample.fire_polls 1 Sample.two_sensors).
Proof. apply reachable_polled_registered. Qed.

Lemma sample_polled_device :
  exists d,
    JS.get (devices (service (Sample.fire_polls 1 Sample.two_sensors))) "u"
    = Some d
    /\ length (sensors d) = 2%nat.
Proof. vm_compute. eexists. split; reflexivity. Qed.

(** ** The registry *)

Lemma mutate_device_found k f d s :
  JS.get (devices (service s)) k = Some d ->
  mutate_device k f s
  = (Normal tt, set_devices (fun m => JS.set m k (f d)) s).
Proof.
  intros G. unfold mutate_device, modify, set_devices. now rewrite G.
Qed.

Lemma filter_true {A} (l : list A) : filter (fun _ => true) l = l.
Proof. induction l as [|a l IH]; simpl; congruence. Qed.

Lemma filter_and {A} (p q : A -> bool) (l : list A) :
  filter q (filter p l) = filter (fun x => p x && q x) l.
Proof.
  induction l as [|a l IH]; simpl; [reflexivity|].
  destruct (p a); simpl; [destruct (q a)|]; now rewrite IH.
Qed.

Section GetDevices.
Variables Math_sin Math_cos : JS.number -> JS.number.
Variable Math_atan2 : JS.number -> JS.number -> JS.number.

(** X1. [getDevices] returns, in the order of registration, exactly the
    registered devices that pass every filter that is given: the type,
    unless it is the empty string, the status, and the distance to the
    query point; without filters it returns every device. It leaves the
    state as it is. *)
Theorem getDevices_applies_every_filter s :
  getDevices Math_sin Math_cos Math_atan2 None s
  = (Normal (JS.values (devices (service s))), s)
  /\ forall f,
      getDevices Math_sin Math_cos Math_atan2 (Some f) s
      = (Normal (filter (passes Math_sin Math_cos Math_atan2 f)
                   (JS.values (devices (service s)))), s).
Proof.
  split; [reflexivity|]. intros f.
  unfold getDevices, bind, read, ret. f_equal. f_equal.
  unfold getDevices_of, passes.
  set (all := JS.values (devices (service s))).
  assert (T : forall t,
             (if String.eqb t "" then all
              else filter (fun device =>
                             String.eqb (DeviceType_name (type device)) t) all)
             = filter (fun d => String.eqb t ""
                                || String.eqb (DeviceType_name (type d)) t)
                 all).
  { intros t. destruct (String.eqb t ""); simpl; [|reflexivity].
    now rewrite filter_true. }
  destruct (flt_type f) as [t|], (flt_status f) as [st|],
    (flt_location f) as [loc|];
    rewrite ?T, ?filter_and; unfold JS.le, distance_to;
    try (apply filter_ext; intros d; cbv beta;
         rewrite ?andb_true_r, ?andb_assoc; reflexivity);
    try (rewrite <- (filter_true all) at 1; apply filter_ext; intros d;
         simpl; reflexivity).
Qed.
End GetDevices.

(** What [mapM new_sensor] does: nothing but draw two identifiers and read
    the clock three times per sensor. *)
Lemma new_sensors_exact cs : forall s,
  exists xs s',
    mapM new_sensor cs s = (Normal xs, s')
    /\ service s' = service s /\ timers s' = timers s
    /\ console s' = console s
    /\ random_src (world s') = random_src (world s)
    /\ random_pos (world s') = random_pos (world s)
    /\ uuid_src (world s') = uuid_src (world s)
    /\ uuid_pos (world s') = (uuid_pos (world s) + 2 * length cs)%nat
    /\ clock_src (world s') = clock_src (world s)
    /\ (forall j x, nth_error xs j = Some x ->
                    sensor_id x
                    = uuid_src (world s) (uuid_pos (world s) + 2 * j)%nat).
Proof.
  induction cs as [|c cs IH]; intros s.
  - exists [], s. split; [reflexivity|]. repeat split; try (simpl; lia).
    intros [|j] x; discriminate.
  - cbn [mapM]. unfold bind at 1.
    unfold new_sensor at 1, bind, randomUUID, Date_now, ret. cbv beta iota.
    match goal with
    | |- context [mapM new_sensor cs ?st] => set (s1 := st)
    end.
    destruct (IH s1) as (xs & s2 & E & S2 & T2 & C2 & Rs & Rp & Us & Up & Cs & Ids).
    rewrite E. eexists _, s2. split; [reflexivity|].
    unfold s1 in *. simpl in *.
    repeat split; try congruence; try lia.
    intros [|j] x; simpl; intros H.
    + inversion H. simpl. f_equal. lia.
    + rewrite (Ids _ _ H). f_equal. lia.
Qed.

Lemma registerDevice_exact c s :
  exists device s',
    registerDevice c s = (Normal device, s')
    /\ devices (service s') = JS.set (devices (service s)) (id device) device
    /\ sensorReadings (service s')
       = JS.set (sensorReadings (service s)) (id device) []
    /\ eventHandlers (service s') = eventHandlers (service s)
    /\ timers s' = (timers s ++ [HealthTimer (id device)])%list
    /\ console s' = console s
    /\ random_pos (world s') = random_pos (world s)
    /\ uuid_pos (world s')
       = (uuid_pos (world s) + 1 + 2 * length (cfg_sensors c))%nat
    /\ id device = uuid_src (world s) (uuid_pos (world s))
    /\ (forall j x, nth_error (sensors device) j = Some x ->
                    sensor_id x
                    = uuid_src (world s) (uuid_pos (world s) + 1 + 2 * j)%nat).
Proof.
  unfold registerDevice. unfold bind at 1. unfold randomUUID at 1.
  cbv beta iota.
  match goal with
  | |- context [bind (mapM new_sensor _) _ ?st] => set (s0 := st)
  end.
  destruct (new_sensors_exact (cfg_sensors c) s0)
    as (xs & s1 & E & S1 & T1 & C1 & Rs & Rp & Us & Up & Cs & Ids).
  rewrite (bind_Normal _ E).
  unfold bind, Date_now, modify, startDeviceMonitoring, ret. simpl.
  eexists _, _. split; [reflexivity|]. simpl.
  unfold s0 in *. simpl in *. rewrite S1, T1, C1, Rp, Up.
  repeat split; try lia.
  intros j x H. rewrite (Ids _ _ H). f_equal. lia.
Qed.

(** X2. [registerDevice] touches no device and no history but those
    under the identifier it draws, which it appends to the registered ones
    when it is new. The listeners and the console stay as they are, one
    health timer is started, no random number is drawn, and one identifier
    is drawn for the device and two for each sensor. When the identifier
    source never repeats, the identifiers of the device and of its sensors
    are pairwise distinct. *)
Theorem registerDevice_adds_one_device c s :
  exists device s',
    registerDevice c s = (Normal device, s')
    /\ (forall k, k <> id device ->
           JS.get (devices (service s')) k = JS.get (devices (service s)) k
           /\ JS.get (sensorReadings (service s')) k
              = JS.get (sensorReadings (service s)) k)
    /\ (JS.get (devices (service s)) (id device) = None ->
        JS.keys (devices (service s'))
        = (JS.keys (devices (service s)) ++ [id device])%list)
    /\ eventHandlers (service s') = eventHandlers (service s)
    /\ timers s' = (timers s ++ [HealthTimer (id device)])%list
    /\ console s' = console s
    /\ random_pos (world s') = random_pos (world s)
    /\ uuid_pos (world s')
       = (uuid_pos (world s) + 1 + 2 * length (cfg_sensors c))%nat
    /\ ((forall i j, uuid_src (world s) i = uuid_src (world s) j -> i = j) ->
        NoDup (id device :: map sensor_id (sensors device))).
Proof.
  destruct (registerDevice_exact c s)
    as (device & s' & E & D & R & H & T & C & Rp & Up & Hid & Ids).
  exists device, s'. split; [exact E|].
  split; [|split; [|repeat split; try assumption]].
  - intros k N. rewrite D, R.
    split; apply MapFacts.get_set_other; congruence.
  - intros G. rewrite D. now apply MapFacts.keys_set_absent.
  - intros Inj.
    assert (P : forall j x,
               nth_error (id device :: map sensor_id (sensors device)) j
               = Some x ->
               x = uuid_src (world s)
                     (uuid_pos (world s) + (2 * j - 1))%nat).
    { intros [|j] x; cbn [nth_error]; intros G.
      - inversion G. rewrite Hid. f_equal. lia.
      - rewrite nth_error_map in G.
        destruct (nth_error (sensors device) j) as [y|] eqn:Gy;
          [|discriminate].
        simpl in G. inversion G. rewrite (Ids _ _ Gy). f_equal. lia. }
    apply NoDup_nth_error. intros i j Hi Hij.
    destruct (nth_error (id device :: map sensor_id (sensors device)) i)
      as [x|] eqn:Gi.
    + symmetry in Hij. pose proof (P _ _ Gi) as Pi.
      pose proof (P _ _ Hij) as Pj. rewrite Pi in Pj.
      apply Inj in Pj. lia.
    + apply nth_error_None in Gi. lia.
Qed.

(** The statement of X2 for the first device of a fresh service whose
    identifiers never repeat. *)
Lemma registerDevice_adds_one_device_witness :
  exists device s',
    registerDevice
      (Sample.config_of [Sample.sensor_config temperature (-40) 60;
                         Sample.sensor_config humidity 0 100])
      (new_IoTService (Sample.world_of (fun _ => 0.5)))
    = (Normal device, s')
    /\ JS.keys (devices (service s')) = [id device]
    /\ NoDup (id device :: map sensor_id (sensors device)).
Proof.
  destruct (registerDevice_adds_one_device
              (Sample.config_of [Sample.sensor_config temperature (-40) 60;
                                 Sample.sensor_config humidity 0 100])
              (new_IoTService (Sample.world_of (fun _ => 0.5))))
    as (device & s' & E & _ & K & _ & _ & _ & _ & _ & ND).
  exists device, s'. split; [exact E|]. split.
  - apply K. reflexivity.
  - apply ND. exact SampleFacts.unary_injective.
Defined.

Lemma new_sensors_configured cs : forall s,
  map signature
    (match fst (mapM new_sensor cs s) with Normal xs => xs | Throw _ => [] end)
  = map configured cs
  /\ Forall (fun x => value (lastReading x) = 0)
       (match fst (mapM new_sensor cs s) with
        | Normal xs => xs
        | Throw _ => []
        end).
Proof.
  induction cs as [|c cs IH]; intros s; [split; [reflexivity|constructor]|].
  cbn [mapM]. unfold bind at 1 3.
  unfold new_sensor at 1 3, bind, randomUUID, Date_now, ret. cbv beta iota.
  match goal with
  | |- context [mapM new_sensor cs ?st] => set (s1 := st)
  end.
  destruct (IH s1) as [IH1 IH2].
  destruct (new_sensors_exact cs s1) as (xs & s2 & E & _).
  rewrite E in *. simpl in *. split.
  - now rewrite IH1.
  - constructor; [reflexivity|exact IH2].
Qed.

Section Deployment.

Variables Math_sin Math_cos : JS.number -> JS.number.
Variable Math_atan2 : JS.number -> JS.number -> JS.number.

Lemma registerDevice_in_run w c s :
  reachable Math_sin Math_cos Math_atan2 w s -> never_repeats w ->
  exists device s',
    registerDevice c s = (Normal device, s')
    /\ reachable Math_sin Math_cos Math_atan2 w s'
    /\ ~ In (id device) (JS.keys (devices (service s)))
    /\ deployed_as c device s'
    /\ devices (service s') = JS.set (devices (service s)) (id device) device
    /\ sensorReadings (service s')
       = JS.set (sensorReadings (service s)) (id device) []
    /\ timers s' = (timers s ++ [HealthTimer (id device)])%list.
Proof.
  intros R Inj.
  pose proof (reach_step Math_sin Math_cos Math_atan2 w s
                (CallRegisterDevice c) R I) as R'.
  cbn [perform] in R'.
  destruct (registerDevice_exact c s)
    as (device & s' & E & D & Rd & H & T & C & Rp & Up & Hid & Ids).
  rewrite E in R'. cbn [snd] in R'.
  exists device, s'. split; [exact E|]. split; [exact R'|].
  assert (Fresh : ~ In (id device) (JS.keys (devices (service s)))).
  { intros Hin.
    pose proof (reachable_invariant _ _ _ _ _ R) as Inv.
    pose proof (reachable_advanced _ _ _ _ _ R) as A.
    destruct (inv_drawn _ Inv _ Hin) as (n & Hn & En).
    rewrite Hid in En. destruct A as [_ U _ _ _ _]. rewrite U in En.
    apply Inj in En. lia. }
  split; [exact Fresh|]. split; [|auto].
  pose proof (new_sensors_configured (cfg_sensors c)) as NS.
  unfold registerDevice in E. unfold bind at 1 in E.
  unfold randomUUID at 1 in E. cbv beta iota in E.
  match type of E with
  | context [bind (mapM new_sensor _) _ ?st] =>
      specialize (NS st);
      destruct (new_sensors_exact (cfg_sensors c) st) as (xs & s1 & E1 & _)
  end.
  rewrite E1 in NS. cbn [fst] in NS. destruct NS as [NS1 NS2].
  rewrite (bind_Normal _ E1) in E.
  unfold bind, Date_now, modify, startDeviceMonitoring, ret in E.
  simpl in E. inversion E as [[Ed Es]]. clear E Es. subst device.
  constructor; try reflexivity; try assumption;
    simpl; apply MapFacts.get_set_same.
Qed.

Lemma deploy_each_effect {A} (config : A -> DeviceConfig) w todo :
  never_repeats w ->
  forall deployed s,
    reachable Math_sin Math_cos Math_atan2 w s ->
    exists ds s',
      deploy_each config todo deployed s = (Normal (deployed ++ ds)%list, s')
      /\ reachable Math_sin Math_cos Math_atan2 w s'
      /\ Forall2 (fun x d => deployed_as (config x) d s') todo ds
      /\ JS.keys (devices (service s'))
         = (JS.keys (devices (service s)) ++ map id ds)%list
      /\ timers s'
         = (timers s ++ map (fun d => HealthTimer (id d)) ds)%list
      /\ (forall k, In k (JS.keys (devices (service s))) ->
             JS.get (devices (service s')) k
             = JS.get (devices (service s)) k
             /\ JS.get (sensorReadings (service s')) k
                = JS.get (sensorReadings (service s)) k).
Proof.
  intros Inj. induction todo as [|x rest IH]; intros deployed s R.
  - exists [], s. cbn [deploy_each]. rewrite !app_nil_r.
    split; [reflexivity|]. split; [exact R|]. split; [constructor|].
    split; [reflexivity|]. split; [reflexivity|]. auto.
  - cbn [deploy_each].
    destruct (registerDevice_in_run w (config x) s R Inj)
      as (device & s1 & E1 & R1 & Fresh & Dep & D1 & Rd1 & T1).
    rewrite (bind_Normal _ E1).
    destruct (IH (deployed ++ [device])%list s1 R1)
      as (ds & s' & E & R' & F & K & T & Keep).
    assert (K1 : JS.keys (devices (service s1))
                 = (JS.keys (devices (service s)) ++ [id device])%list).
    { rewrite D1. apply MapFacts.keys_set_absent.
      now apply MapFacts.get_None_keys. }
    exists (device :: ds), s'. split.
    { rewrite E. now rewrite <- app_assoc. }
    split; [exact R'|]. split; [|split; [|split]].
    + constructor; [|exact F].
      assert (Hin : In (id device) (JS.keys (devices (service s1)))).
      { rewrite K1. apply in_or_app. right. now left. }
      destruct (Keep _ Hin) as [Kd Kr].
      destruct Dep. constructor; auto; congruence.
    + rewrite K, K1, <- app_assoc. reflexivity.
    + rewrite T, T1, <- app_assoc. reflexivity.
    + intros k Hin.
      assert (Hin1 : In k (JS.keys (devices (service s1)))).
      { rewrite K1. apply in_or_app. now left. }
      destruct (Keep _ Hin1) as [Kd Kr]. rewrite Kd, Kr, D1, Rd1.
      assert (N : id device <> k) by (intros <-; contradiction).
      now rewrite !MapFacts.get_set_other.
Qed.

Lemma deploy_each_fleet {A} (config : A -> DeviceConfig) w todo s :
  reachable Math_sin Math_cos Math_atan2 w s -> never_repeats w ->
  exists ds s',
    deploy_each config todo [] s = (Normal ds, s')
    /\ reachable Math_sin Math_cos Math_atan2 w s'
    /\ fleet config todo ds s s'.
Proof.
  intros R Inj.
  destruct (deploy_each_effect config w todo Inj [] s R)
    as (ds & s' & E & R' & F & K & T & Keep).
  exists ds, s'. split; [exact E|]. split; [exact R'|].
  constructor; auto.
  rewrite <- K. eapply inv_nodup, reachable_invariant. exact R'.
Qed.

(** X3. From a state of a run whose identifier source never repeats, each
    of [deployTrafficSensors], [deployParkingSensors] and
    [deployEnvironmentalSensors] returns normally, in a state of the run,
    one device per element of its array, in the order of the array. Each
    device has the location of its element and the type, sensors and
    connectivity the method fixes; it is online, the values of its last
    readings are 0, it is stored under an identifier that was not
    registered, with an empty history, and one health timer is started for
    it. The devices registered before, and their histories, are
    unchanged. *)
Theorem deployment_registers_each w s :
  reachable Math_sin Math_cos Math_atan2 w s -> never_repeats w ->
  (forall intersections,
      exists ds s',
        deployTrafficSensors intersections s = (Normal ds, s')
        /\ reachable Math_sin Math_cos Math_atan2 w s'
        /\ fleet traffic_config intersections ds s s')
  /\ (forall parkingSpots,
         exists ds s',
           deployParkingSensors parkingSpots s = (Normal ds, s')
           /\ reachable Math_sin Math_cos Math_atan2 w s'
           /\ fleet parking_config parkingSpots ds s s')
  /\ (forall locations,
         exists ds s',
           deployEnvironmentalSensors locations s = (Normal ds, s')
           /\ reachable Math_sin Math_cos Math_atan2 w s'
           /\ fleet environmental_config locations ds s s').
Proof.
  intros R Inj. split; [|split]; intros todo;
    now apply deploy_each_fleet.
Qed.

End Deployment.

(** The statement of X3 for two intersections and a service with one
    device. *)
Lemma deployment_registers_each_witness :
  reachable Sample.flat Sample.flat Sample.flat2
    (Sample.world_of (fun _ => 0.5)) Sample.two_sensors
  /\ never_repeats (Sample.world_of (fun _ => 0.5))
  /\ exists ds s',
      deployTrafficSensors Depot.crossings Sample.two_sensors
      = (Normal ds, s')
      /\ length ds = 2%nat
      /\ JS.keys (devices (service s')) = ("u" :: map id ds)%list.
Proof.
  assert (R : reachable Sample.flat Sample.flat Sample.flat2
                (Sample.world_of (fun _ => 0.5)) Sample.two_sensors)
    by apply reachable_registered.
  assert (Inj : never_repeats (Sample.world_of (fun _ => 0.5)))
    by exact SampleFacts.unary_injective.
  split; [exact R|]. split; [exact Inj|].
  destruct (proj1 (deployment_registers_each Sample.flat Sample.flat
                     Sample.flat2 _ _ R Inj) Depot.crossings)
    as (ds & s' & E & _ & F).
  exists ds, s'. split; [exact E|]. split.
  - symmetry. exact (Forall2_length (fleet_each _ _ _ _ _ F)).
  - rewrite (fleet_keys _ _ _ _ _ F). reflexivity.
Defined.

(** ** The event system *)

Lemma handlers_of_added eventType handler s other :
  handlers_of (snd (addEventListener eventType handler s)) other
  = if String.eqb eventType other
    then (handlers_of s other ++ [handler])%list
    else handlers_of s other.
Proof.
  unfold addEventListener, modify, handlers_of, JS.has. simpl.
  destruct (String.eqb_spec eventType other) as [<-|N].
  - destruct (JS.get (eventHandlers (service s)) eventType) as [hs|] eqn:G.
    + now rewrite G, MapFacts.get_set_same.
    + now rewrite !MapFacts.get_set_same.
  - destruct (JS.get (eventHandlers (service s)) eventType) as [hs|] eqn:G.
    + rewrite G. now rewrite MapFacts.get_set_other.
    + rewrite MapFacts.get_set_same.
      now rewrite !MapFacts.get_set_other.
Qed.

(** X4. [addEventListener] puts the handler, a closure of
    [deployEdgeFunction], after the handlers its event type already has,
    also when the same handler is among them; the handlers of every other
    event type, the devices, the histories, the timers, the console and the
    oracles stay as they are. *)
Theorem addEventListener_appends eventType handler s :
  exists s',
    addEventListener eventType handler s = (Normal tt, s')
    /\ handlers_of s' eventType
       = (handlers_of s eventType ++ [handler])%list
    /\ (forall other, other <> eventType ->
                      handlers_of s' other = handlers_of s other)
    /\ devices (service s') = devices (service s)
    /\ sensorReadings (service s') = sensorReadings (service s)
    /\ timers s' = timers s
    /\ console s' = console s
    /\ world s' = world s.
Proof.
  exists (snd (addEventListener eventType handler s)).
  split; [reflexivity|]. split; [|split].
  - now rewrite handlers_of_added, String.eqb_refl.
  - intros other N. rewrite handlers_of_added.
    destruct (String.eqb_spec eventType other); congruence.
  - repeat split.
Qed.

(** The statement of X4 for the first listener of a service. *)
Lemma addEventListener_appends_witness :
  "alert:threshold" <> "alert:anomaly"
  /\ exists s',
      addEventListener "alert:anomaly" Depot.relay Sample.two_sensors
      = (Normal tt, s')
      /\ handlers_of s' "alert:anomaly" = [Depot.relay]
      /\ handlers_of s' "alert:threshold" = [].
Proof.
  assert (N : "alert:threshold" <> "alert:anomaly") by discriminate.
  split; [exact N|].
  destruct (addEventListener_appends "alert:anomaly" Depot.relay
              Sample.two_sensors) as (s' & E & H1 & H2 & _).
  exists s'. split; [exact E|]. split.
  - rewrite H1. reflexivity.
  - rewrite (H2 _ N). reflexivity.
Defined.

Lemma listeners_effect deviceId functionCode triggers : forall s,
  exists s',
    forM_ triggers (fun trigger =>
      addEventListener trigger (EdgeHandler deviceId functionCode)) s
    = (Normal tt, s')
    /\ (forall eventType,
           handlers_of s' eventType
           = (handlers_of s eventType
              ++ repeat (EdgeHandler deviceId functionCode)
                   (count_occ string_dec triggers eventType))%list)
    /\ devices (service s') = devices (service s)
    /\ sensorReadings (service s') = sensorReadings (service s)
    /\ timers s' = timers s
    /\ console s' = console s
    /\ world s' = world s.
Proof.
  induction triggers as [|t ts IH]; intros s.
  - exists s. split; [reflexivity|]. split; [|repeat split].
    intros e. simpl. now rewrite app_nil_r.
  - cbn [forM_]. unfold bind at 1.
    change (addEventListener t (EdgeHandler deviceId functionCode) s)
      with (Normal tt,
            snd (addEventListener t (EdgeHandler deviceId functionCode) s)).
    cbv beta iota.
    set (s1 := snd (addEventListener t (EdgeHandler deviceId functionCode) s)).
    destruct (IH s1) as (s' & E & H & D & R & T & C & W).
    exists s'. split; [exact E|]. split; [|repeat split; assumption].
    intros e. rewrite H. unfold s1. rewrite handlers_of_added.
    cbn [count_occ].
    destruct (string_dec t e) as [->|N].
    + rewrite String.eqb_refl, <- app_assoc. reflexivity.
    + destruct (String.eqb_spec t e); [contradiction|reflexivity].
Qed.

(** X5. For a registered device [deployEdgeFunction] returns normally,
    writes one line to the console and registers its handler once for each
    occurrence of an event type in [triggers], after the handlers the
    event type had; devices, histories, timers and oracles stay as they
    are. *)
Theorem deployEdgeFunction_registers deviceId functionCode triggers s :
  JS.get (devices (service s)) deviceId <> None ->
  exists s',
    deployEdgeFunction deviceId functionCode triggers s = (Normal tt, s')
    /\ (forall eventType,
           handlers_of s' eventType
           = (handlers_of s eventType
              ++ repeat (EdgeHandler deviceId functionCode)
                   (count_occ string_dec triggers eventType))%list)
    /\ console s'
       = (console s
          ++ [LogText ("Deploying edge function to device " ++ deviceId)])%list
    /\ devices (service s') = devices (service s)
    /\ sensorReadings (service s') = sensorReadings (service s)
    /\ timers s' = timers s
    /\ world s' = world s.
Proof.
  intros Hd. unfold deployEdgeFunction. unfold bind at 1, read.
  cbv beta iota.
  destruct (JS.get (devices (service s)) deviceId) as [d|]; [|congruence].
  unfold bind at 1, console_log, modify. cbv beta iota.
  destruct (listeners_effect deviceId functionCode triggers
              (add_log (LogText ("Deploying edge function to device "
                                 ++ deviceId)) s))
    as (s' & E & H & D & R & T & C & W).
  exists s'. split; [exact E|]. split; [exact H|]. repeat split; assumption.
Qed.

(** The statement of X5 for triggers that name an event type twice. *)
Lemma deployEdgeFunction_registers_witness :
  JS.get (devices (service Sample.two_sensors)) "u" <> None
  /\ exists s',
      deployEdgeFunction "u" "relay"
        ["sensor:temperature"; "alert:anomaly"; "sensor:temperature"]
        Sample.two_sensors
      = (Normal tt, s')
      /\ handlers_of s' "sensor:temperature" = [Depot.relay; Depot.relay]
      /\ handlers_of s' "alert:threshold" = [].
Proof.
  assert (G : JS.get (devices (service Sample.two_sensors)) "u" <> None)
    by (vm_compute; discriminate).
  split; [exact G|].
  destruct (deployEdgeFunction_registers "u" "relay"
              ["sensor:temperature"; "alert:anomaly"; "sensor:temperature"]
              Sample.two_sensors G) as (s' & E & H & _).
  exists s'. split; [exact E|]. split; rewrite H; reflexivity.
Defined.

Lemma executeEdgeFunction_effect deviceId functionCode event s :
  exists s',
    executeEdgeFunction deviceId functionCode event s = (Normal tt, s')
    /\ console s'
       = (console s
          ++ edge_lines [EdgeHandler deviceId functionCode] (drawn s))%list
    /\ service s' = service s
    /\ timers s' = timers s
    /\ random_src (world s') = random_src (world s)
    /\ random_pos (world s') = S (random_pos (world s))
    /\ uuid_src (world s') = uuid_src (world s)
    /\ uuid_pos (world s') = uuid_pos (world s)
    /\ clock_src (world s') = clock_src (world s)
    /\ clock_pos (world s') = S (clock_pos (world s)).
Proof.
  unfold executeEdgeFunction, try_catch, processAtEdge, sendToCloud,
    console_log, modify, bind, Math_random, Date_now, ret, drawn.
  simpl.
  destruct (JS.gt (random_src (world s) (random_pos (world s))) 0.8);
    eexists; (split; [reflexivity|]); simpl; rewrite <- ?app_assoc;
    repeat split.
Qed.

Lemma call_handlers_effect eventType data handlers : forall s,
  exists s',
    forM_ handlers (fun handler =>
      try_catch (call_handler handler data)
        (fun error =>
           console_log
             (LogError ("Event handler error for " ++ eventType ++ ":")))) s
    = (Normal tt, s')
    /\ console s' = (console s ++ edge_lines handlers (drawn s))%list
    /\ service s' = service s
    /\ timers s' = timers s
    /\ random_src (world s') = random_src (world s)
    /\ random_pos (world s') = (random_pos (world s) + length handlers)%nat
    /\ uuid_src (world s') = uuid_src (world s)
    /\ uuid_pos (world s') = uuid_pos (world s)
    /\ clock_src (world s') = clock_src (world s)
    /\ clock_pos (world s') = (clock_pos (world s) + length handlers)%nat.
Proof.
  induction handlers as [|h hs IH]; intros s.
  - exists s. split; [reflexivity|]. simpl. rewrite app_nil_r, !Nat.add_0_r.
    repeat split.
  - destruct h as [d c]. cbn [forM_ call_handler].
    destruct (executeEdgeFunction_effect d c data s)
      as (s1 & E1 & C1 & S1 & T1 & Rs1 & Rp1 & Us1 & Up1 & Cs1 & Cp1).
    unfold bind at 1, try_catch at 1. rewrite E1.
    destruct (IH s1)
      as (s2 & E2 & C2 & S2 & T2 & Rs2 & Rp2 & Us2 & Up2 & Cs2 & Cp2).
    exists s2. split; [exact E2|].
    split; [|repeat split; try congruence; cbn [length]; lia].
    rewrite C2, C1. cbn [edge_lines]. rewrite app_nil_r, <- !app_assoc.
    do 2 f_equal.
    assert (D : forall i, drawn s1 i = drawn s (S i)).
    { intros i. unfold drawn. rewrite Rs1, Rp1. f_equal. lia. }
    clear - D. revert D. generalize (drawn s1), (drawn s).
    intros r1 r D.
    assert (G : forall l r1 r2, (forall i, r1 i = r2 i) ->
                                edge_lines l r1 = edge_lines l r2).
    { clear. induction l as [|[d c] l IHl]; intros r1 r2 H; simpl;
        [reflexivity|].
      rewrite H. f_equal. f_equal. apply IHl. intros i. apply H. }
    apply G. exact D.
Qed.

(** X6. With the handlers the class registers itself, the closures of
    [deployEdgeFunction], [triggerEventHandlers] never throws. It runs the
    handlers of the event type in the order of their registration, each
    once: a handler writes its line, draws one random number, reads the
    clock once and, when its number exceeds 0.8, writes the line of
    [sendToCloud]. No error line is written, and the service and the timers
    stay as they are. *)
Theorem triggerEventHandlers_runs_every_handler eventType data s :
  exists s',
    triggerEventHandlers eventType data s = (Normal tt, s')
    /\ console s'
       = (console s ++ edge_lines (handlers_of s eventType) (drawn s))%list
    /\ service s' = service s
    /\ timers s' = timers s
    /\ random_pos (world s')
       = (random_pos (world s) + length (handlers_of s eventType))%nat
    /\ clock_pos (world s')
       = (clock_pos (world s) + length (handlers_of s eventType))%nat
    /\ uuid_pos (world s') = uuid_pos (world s).
Proof.
  unfold triggerEventHandlers. unfold bind at 1, read. cbv beta iota.
  fold (handlers_of s eventType).
  destruct (call_handlers_effect eventType data (handlers_of s eventType) s)
    as (s' & E & C & S & T & _ & Rp & _ & Up & _ & Cp).
  exists s'. repeat split; assumption.
Qed.

(** *** The events of a reading *)

Lemma drew_refl s : drew 0 [] s s.
Proof. constructor; auto. now rewrite app_nil_r. Qed.

Lemma drew_trans n m l1 l2 s1 s2 s3 :
  drew n l1 s1 s2 -> drew m l2 s2 s3 -> drew (n + m) (l1 ++ l2) s1 s3.
Proof.
  intros [S1 T1 C1 R1 K1 U1 (A1 & B1 & D1)] [S2 T2 C2 R2 K2 U2 (A2 & B2 & D2)].
  constructor; try congruence; try lia.
  - now rewrite C2, C1, app_assoc.
  - repeat split; congruence.
Qed.

Lemma edge_lines_ext l : forall r1 r2,
  (forall i, r1 i = r2 i) -> edge_lines l r1 = edge_lines l r2.
Proof.
  induction l as [|[d c] l IH]; intros r1 r2 H; simpl; [reflexivity|].
  rewrite H. f_equal. f_equal. apply IH. intros i. apply H.
Qed.

Lemma triggerEventHandlers_drew eventType data s0 skip s :
  service s = service s0 ->
  random_src (world s) = random_src (world s0) ->
  random_pos (world s) = (random_pos (world s0) + skip)%nat ->
  exists s',
    triggerEventHandlers eventType data s = (Normal tt, s')
    /\ drew (length (handlers_of s0 eventType))
         (dispatch s0 eventType skip) s s'.
Proof.
  intros S Rs Rp.
  unfold triggerEventHandlers. unfold bind at 1, read. cbv beta iota.
  fold (handlers_of s eventType).
  assert (Hh : handlers_of s eventType = handlers_of s0 eventType)
    by (unfold handlers_of; now rewrite S).
  destruct (call_handlers_effect eventType data (handlers_of s eventType) s)
    as (s' & E & C & S' & T & Rs' & Rp' & Us & Up & Cs & Cp).
  exists s'. split; [exact E|]. rewrite Hh in *.
  constructor; auto.
  rewrite C. f_equal. unfold dispatch. apply edge_lines_ext.
  intros i. unfold drawn. rewrite Rs, Rp. f_equal. lia.
Qed.

Lemma drew_after_log n l e s s' :
  drew n l (add_log e s) s' -> drew n (e :: l) s s'.
Proof.
  intros [S T C R K U A]. constructor; auto.
  rewrite C. simpl. now rewrite <- app_assoc.
Qed.

Lemma triggerAlert_drew kind data s0 skip l s :
  drew skip l s0 s ->
  exists s',
    triggerAlert kind data s = (Normal tt, s')
    /\ drew (length (handlers_of s0 ("alert:" ++ kind)))
         (LogAlert kind data :: dispatch s0 ("alert:" ++ kind) skip) s s'.
Proof.
  intros [S _ _ R _ _ (Rs & _)].
  unfold triggerAlert. unfold bind at 1, console_log, modify.
  cbv beta iota.
  destruct (triggerEventHandlers_drew ("alert:" ++ kind) (AlertEvent data)
              s0 skip (add_log (LogAlert kind data) s))
    as (s' & E & D); auto.
  exists s'. split; [exact E|]. now apply drew_after_log.
Qed.

(** X7. With the handlers the class registers itself, [processReading]
    never throws and leaves the service and the timers as they are. It
    writes, in this order: when the reading is
    anomalous, the anomaly alert and the lines of the handlers of
    [alert:anomaly]; when a threshold is violated, the threshold alert and
    the lines of the handlers of [alert:threshold]; then the lines of the
    handlers of the event [sensor:] followed by the type of the sensor.
    Every handler that runs draws one random number and reads the clock
    once. *)
Theorem processReading_dispatches_in_order device i sensor reading s :
  let anomalous := detectAnomaly_on (history s (id device)) reading in
  let violation := checkThresholds sensor reading in
  let n1 := if anomalous then length (handlers_of s "alert:anomaly")
            else 0%nat in
  let n2 := match violation with
            | Some _ => length (handlers_of s "alert:threshold")
            | None => 0%nat
            end in
  let sensor_event := "sensor:" ++ SensorType_name (sensor_type sensor) in
  exists s',
    processReading device i sensor reading s = (Normal tt, s')
    /\ drew (n1 + n2 + length (handlers_of s sensor_event))
         ((if anomalous
           then LogAlert "anomaly" (anomaly_alert device sensor reading)
                :: dispatch s "alert:anomaly" 0
           else [])
          ++ match violation with
             | Some t =>
                 LogAlert "threshold"
                   (threshold_alert device sensor reading t)
                 :: dispatch s "alert:threshold" n1
             | None => []
             end
          ++ dispatch s sensor_event (n1 + n2))%list
         s s'.
Proof.
  intros anomalous violation n1 n2 sensor_event.
  unfold processReading, detectAnomaly.
  unfold bind at 1 2, read, ret. cbv beta iota.
  fold (history s (id device)). fold anomalous. fold violation.
  fold sensor_event.
  assert (A : exists sA,
             (if anomalous
              then triggerAlert "anomaly"
                     {| alert_deviceId := id device;
                        alert_sensorId := sensor_id sensor;
                        alert_reading := reading; alert_threshold := None;
                        alert_severity := medium |}
              else ret tt) s = (Normal tt, sA)
             /\ drew n1
                  (if anomalous
                   then LogAlert "anomaly"
                          (anomaly_alert device sensor reading)
                        :: dispatch s "alert:anomaly" 0
                   else []) s sA).
  { unfold n1. destruct anomalous.
    - apply (triggerAlert_drew "anomaly" _ s 0 []). apply drew_refl.
    - exists s. split; [reflexivity|apply drew_refl]. }
  destruct A as (sA & EA & DA). rewrite (bind_Normal _ EA).
  assert (B : exists sB,
             (match violation with
              | Some thresholdViolation =>
                  triggerAlert "threshold"
                    {| alert_deviceId := id device;
                       alert_sensorId := sensor_id sensor;
                       alert_reading := reading;
                       alert_threshold := Some thresholdViolation;
                       alert_severity := thr_severity thresholdViolation |}
              | None => ret tt
              end) sA = (Normal tt, sB)
             /\ drew n2
                  match violation with
                  | Some t =>
                      LogAlert "threshold"
                        (threshold_alert device sensor reading t)
                      :: dispatch s "alert:threshold" n1
                  | None => []
                  end sA sB).
  { unfold n2. destruct violation as [t|].
    - apply (triggerAlert_drew "threshold" _ s n1 _ sA DA).
    - exists sA. split; [reflexivity|apply drew_refl]. }
  destruct B as (sB & EB & DB). rewrite (bind_Normal _ EB).
  pose proof (drew_trans _ _ _ _ _ _ _ DA DB) as DAB.
  destruct (triggerEventHandlers_drew sensor_event
              (SensorEvent (id device) i reading) s (n1 + n2) sB)
    as (s' & E & D); try apply DAB.
  exists s'. split; [exact E|].
  rewrite app_assoc. eapply drew_trans; eassumption.
Qed.

(** ** Readings *)

Section Generated.

Variable Math_sin : JS.number -> JS.number.

(** X8. For a sensor whose range is not empty the quality of a generated
    reading depends on the accuracy of the sensor alone, since the value
    was clamped into the range before it is assessed: excellent when the
    accuracy exceeds 0.9, else good when it exceeds 0.8, else fair when it
    exceeds 0.6, else poor. *)
Theorem generated_quality_follows_accuracy sensor device s :
  sine_like Math_sin -> unit_draws (world s) ->
  (fst (range sensor) <=? snd (range sensor)) = true ->
  exists reading s',
    generateSensorReading Math_sin sensor device s = (Normal reading, s')
    /\ quality reading
       = (if 0.9 <? accuracy sensor then excellent
          else if 0.8 <? accuracy sensor then good
          else if 0.6 <? accuracy sensor then fair
          else poor).
Proof.
  intros Hsin U Hr.
  destruct (generated_within_range Math_sin sensor device s U Hsin Hr)
    as (reading & s' & E & Lo & Hi).
  exists reading, s'. split; [exact E|].
  destruct (generateSensorReading_effect Math_sin sensor device s)
    as (reading' & s'' & k & E' & _ & _ & Q & _).
  rewrite E in E'. inversion E'. subst reading' s''.
  rewrite Q. unfold assessDataQuality, JS.ge, JS.le, JS.gt.
  now rewrite Lo, Hi.
Qed.

(** X9. The base value of a camera is 30, and five random numbers are
    drawn for the other entries of the table. The base value of a proximity
    sensor is 1 when the fourth random number exceeds 0.7; otherwise its
    entry is 0, which [||] takes for a missing one, and the base value is
    100 times a sixth random number. The types gps and accelerometer have
    no entry: their base value is 100 times the sixth random number. *)
Theorem base_value_falls_back loc s :
  (exists s',
      getBaseValueForSensor Math_sin camera loc s = (Normal 30, s')
      /\ random_pos (world s') = (5 + random_pos (world s))%nat)
  /\ (exists s',
         getBaseValueForSensor Math_sin proximity loc s
         = (Normal (if 0.7 <? drawn s 3 then 1 else drawn s 5 * 100), s')
         /\ random_pos (world s')
            = if 0.7 <? drawn s 3
              then (5 + random_pos (world s))%nat
              else (6 + random_pos (world s))%nat)
  /\ (exists s',
         getBaseValueForSensor Math_sin gps loc s
         = (Normal (drawn s 5 * 100), s')
         /\ random_pos (world s') = (6 + random_pos (world s))%nat)
  /\ (exists s',
         getBaseValueForSensor Math_sin accelerometer loc s
         = (Normal (drawn s 5 * 100), s')
         /\ random_pos (world s') = (6 + random_pos (world s))%nat).
Proof.
  unfold getBaseValueForSensor, drawn, JS.gt.
  unfold bind, Math_random, Date_now.
  cbn [world set_world random_src random_pos Nat.add].
  split; [|split; [|split]].
  - eexists. split; reflexivity.
  - destruct (0.7 <? random_src (world s) (S (S (S (random_pos (world s))))));
      eexists; split; reflexivity.
  - eexists; split; reflexivity.
  - eexists; split; reflexivity.
Qed.

End Generated.

(** The statement of X8 at a thermometer of accuracy 0.95. *)
Lemma generated_quality_follows_accuracy_witness :
  sine_like Sample.flat
  /\ unit_draws (world (Sample.service_with (fun _ => 0.5) []))
  /\ (fst (range (Sample.blank_sensor temperature (-40) 60))
      <=? snd (range (Sample.blank_sensor temperature (-40) 60))) = true
  /\ exists reading s',
      generateSensorReading Sample.flat
        (Sample.blank_sensor temperature (-40) 60)
        (Sample.blank_device "u" [])
        (Sample.service_with (fun _ => 0.5) [])
      = (Normal reading, s')
      /\ quality reading = excellent.
Proof.
  split; [exact SampleFacts.flat_sine_like|].
  split; [exact SampleFacts.half_unit|].
  split; [reflexivity|].
  destruct (generated_quality_follows_accuracy Sample.flat
              (Sample.blank_sensor temperature (-40) 60)
              (Sample.blank_device "u" [])
              (Sample.service_with (fun _ => 0.5) [])
              SampleFacts.flat_sine_like SampleFacts.half_unit eq_refl)
    as (reading & s' & E & Q).
  exists reading, s'. split; [exact E|]. rewrite Q. reflexivity.
Defined.

Section PollSkips.

Variables Math_sin Math_cos : JS.number -> JS.number.
Variable Math_atan2 : JS.number -> JS.number -> JS.number.

(** X10. In a state of a run a poll cycle returns normally. It leaves a
    device that is offline, and its history, as they are; the history of a
    device that is online grows by one reading for each sensor, up to 1000
    readings. The registered ids, the listeners and the timers are
    unchanged. *)
Theorem poll_cycle_skips_offline_devices w s :
  reachable Math_sin Math_cos Math_atan2 w s ->
  exists s',
    poll_cycle Math_sin s = (Normal tt, s')
    /\ (forall k d,
           JS.get (devices (service s)) k = Some d -> status d = offline ->
           JS.get (devices (service s')) k = Some d
           /\ JS.get (sensorReadings (service s')) k
              = JS.get (sensorReadings (service s)) k)
    /\ (forall k d,
           JS.get (devices (service s)) k = Some d -> status d = online ->
           length (history s' k)
           = Nat.min 1000 (length (history s k) + length (sensors d)))
    /\ JS.keys (devices (service s')) = JS.keys (devices (service s))
    /\ eventHandlers (service s') = eventHandlers (service s)
    /\ timers s' = timers s.
Proof.
  intros R. pose proof (reachable_invariant _ _ _ _ _ R) as Inv.
  destruct (poll_cycle_effect Math_sin s Inv) as (s' & E & P & U & F).
  exists s'. split; [exact E|].
  assert (Hin : forall k d, JS.get (devices (service s)) k = Some d ->
                            In k (JS.keys (devices (service s)))).
  { intros k d G.
    destruct (in_dec string_dec k (JS.keys (devices (service s))))
      as [H|H]; [exact H|].
    apply MapFacts.get_None_keys in H. congruence. }
  split; [|split; [|split; [apply F|split; apply F]]].
  - intros k d G Off. specialize (P k (Hin k d G)). unfold polled in P.
    rewrite G, Off in P. destruct P as [P1 P2]. rewrite P2. auto.
  - intros k d G On. specialize (P k (Hin k d G)). unfold polled in P.
    rewrite G, On in P. cbn [DeviceStatus_eqb] in P.
    destruct P as (news & Fs & H & _).
    rewrite H, HistoryFacts.pushes_slice, HistoryFacts.slice_last_length,
      length_app, (Forall2_length Fs); [reflexivity|].
    unfold history.
    destruct (JS.get (sensorReadings (service s)) k) as [old|] eqn:Go;
      [eapply inv_bounded; eassumption | simpl; lia].
Qed.

End PollSkips.

(** The statement of X10 for the first poll cycle of a device with two
    sensors. *)
Lemma poll_cycle_skips_offline_devices_witness :
  exists d s',
    JS.get (devices (service Sample.two_sensors)) "u" = Some d
    /\ status d = online
    /\ poll_cycle Sample.flat Sample.two_sensors = (Normal tt, s')
    /\ length (history s' "u") = 2%nat.
Proof.
  assert (G : exists d,
             JS.get (devices (service Sample.two_sensors)) "u" = Some d
             /\ status d = online
             /\ length (sensors d) = 2%nat)
    by (vm_compute; eexists; repeat split; reflexivity).
  destruct G as (d & G & On & L).
  destruct (poll_cycle_skips_offline_devices Sample.flat Sample.flat
              Sample.flat2 _ _ sample_reachable)
    as (s' & E & _ & H & _).
  exists d, s'. split; [exact G|]. split; [exact On|]. split; [exact E|].
  rewrite (H "u" d G On), L. reflexivity.
Defined.

(** ** What a run keeps *)

(** *** Steps that leave hardware, sensors and histories alone *)

Lemma gentle_refl s : gentle s s.
Proof.
  constructor; auto. intros k.
  destruct (JS.get (devices (service s)) k); auto.
Qed.

Lemma gentle_trans a b c : gentle a b -> gentle b c -> gentle a c.
Proof.
  intros [R1 K1 D1] [R2 K2 D2]. constructor; try congruence.
  intros k. specialize (D1 k). specialize (D2 k).
  destruct (JS.get (devices (service a)) k),
    (JS.get (devices (service b)) k),
    (JS.get (devices (service c)) k); try tauto.
  destruct D1, D2. split; congruence.
Qed.

Lemma gentle_same_devices s s' :
  devices (service s') = devices (service s) ->
  sensorReadings (service s') = sensorReadings (service s) ->
  gentle s s'.
Proof.
  intros D R. constructor; auto; rewrite D; auto.
  intros k. destruct (JS.get (devices (service s)) k); auto.
Qed.

Lemma gentle_mutate_device k f :
  (forall d, hardware (f d) = hardware d /\ sensors (f d) = sensors d) ->
  preserves gentle (mutate_device k f).
Proof.
  intros Hf s. unfold mutate_device, modify. simpl.
  destruct (JS.get (devices (service s)) k) as [d|] eqn:G.
  - constructor; simpl; rewrite ?G; auto.
    + eapply MapFacts.keys_set_present. exact G.
    + intros k'. rewrite MapFacts.get_set.
      destruct (String.eqb_spec k k') as [<-|N].
      * rewrite G. apply Hf.
      * destruct (JS.get (devices (service s)) k'); auto.
  - apply gentle_same_devices; simpl; now rewrite ?G.
Qed.

Lemma gentle_bind {A B} (c : Async A) (k : A -> Async B) :
  preserves gentle c -> (forall a, preserves gentle (k a)) ->
  preserves gentle (bind c k).
Proof. apply preserves_bind. exact gentle_trans. Qed.

Lemma gentle_forM_ {A} (l : list A) f :
  (forall a, preserves gentle (f a)) -> preserves gentle (forM_ l f).
Proof. apply preserves_forM_; [exact gentle_refl | exact gentle_trans]. Qed.

Lemma gentle_quiet {A} (c : Async A) :
  (forall s, devices (service (snd (c s))) = devices (service s)
             /\ sensorReadings (service (snd (c s)))
                = sensorReadings (service s)) ->
  preserves gentle c.
Proof.
  intros H s. apply gentle_same_devices; apply H.
Qed.

Ltac gentle_steps :=
  repeat first
    [ apply gentle_bind; [|intros ?]
    | apply gentle_forM_; intros ?
    | apply gentle_mutate_device; intros ?; split; reflexivity
    | solve [ apply gentle_quiet; intros ?; split; reflexivity ]
    | match goal with
      | |- preserves _ (match ?x with _ => _ end) => destruct x
      | |- preserves _ (if ?x then _ else _) => destruct x
      end ].

Lemma gentle_checkDeviceHealth k : preserves gentle (checkDeviceHealth k).
Proof. unfold checkDeviceHealth. gentle_steps. Qed.

Lemma gentle_deployEdgeFunction k c ts :
  preserves gentle (deployEdgeFunction k c ts).
Proof. unfold deployEdgeFunction. gentle_steps. Qed.

Lemma gentle_performSecurityScan k : preserves gentle (performSecurityScan k).
Proof.
  unfold performSecurityScan, scanForVulnerabilities. gentle_steps.
Qed.

Lemma gentle_updateDeviceFirmware k v :
  preserves gentle (updateDeviceFirmware k v).
Proof.
  unfold updateDeviceFirmware, getLatestFirmwareVersion,
    performFirmwareUpdate.
  gentle_steps.
Qed.

Section Steps.

Variables Math_sin Math_cos : JS.number -> JS.number.
Variable Math_atan2 : JS.number -> JS.number -> JS.number.

Lemma gentle_step s s' :
  gentle s s' -> tame s s' -> step_kind Math_sin s s'.
Proof.
  intros G T. apply step_gentle; [exact G| |apply T].
  exists []. rewrite app_nil_r. split; [apply T|]. intros t [].
Qed.

Lemma perform_kind a s :
  invariant s ->
  step_kind Math_sin s (perform Math_sin Math_cos Math_atan2 a s).
Proof.
  intros I. destruct a; unfold perform.
  - destruct (resume_initializeIoT_effect s) as (S & W & T & _).
    apply step_gentle; [|exact T|rewrite W; apply advanced_refl].
    apply gentle_same_devices; now rewrite S.
  - destruct (registerDevice_exact deviceConfig s)
      as (device & s' & E & D & Rd & H & T & C & Rp & Up & Hid & Ids).
    pose proof (perform_advanced Math_sin Math_cos Math_atan2
                  (CallRegisterDevice deviceConfig) s I) as A.
    cbn [perform] in A. rewrite E in *. cbn [snd] in *.
    now apply (step_register _ _ _ device).
  - apply gentle_step; [|apply tame_getDevices].
    apply gentle_same_devices; reflexivity.
  - apply step_gentle; [apply gentle_same_devices; reflexivity| |].
    + exists [PollTimer]. split; [reflexivity|].
      intros t [<-|[]]. reflexivity.
    + apply advanced_refl.
  - apply gentle_step; [|apply tame_addEventListener].
    apply gentle_same_devices; reflexivity.
  - apply gentle_step;
      [apply gentle_deployEdgeFunction | apply tame_deployEdgeFunction].
  - apply gentle_step;
      [apply gentle_performSecurityScan | apply tame_performSecurityScan].
  - apply gentle_step;
      [apply gentle_updateDeviceFirmware | apply tame_updateDeviceFirmware].
  - destruct (poll_cycle_effect Math_sin s I) as (s' & E & P & U & F).
    rewrite E. cbn [snd]. apply step_poll; try apply F.
    intros k.
    destruct (in_dec string_dec k (JS.keys (devices (service s))))
      as [Hin|Hn]; [now apply P|].
    specialize (U k Hn). unfold polled.
    apply MapFacts.get_None_keys in Hn. now rewrite Hn.
  - apply gentle_step;
      [apply gentle_checkDeviceHealth | apply tame_checkDeviceHealth].
Qed.

End Steps.

Lemma In_keys_set_iff {V} (m : JS.Map V) k v k' :
  In k' (JS.keys (JS.set m k v)) <-> k' = k \/ In k' (JS.keys m).
Proof.
  split; [apply In_keys_set|].
  destruct (in_dec string_dec k' (JS.keys (JS.set m k v))) as [H|H];
    [auto|].
  apply MapFacts.get_None_keys in H. rewrite MapFacts.get_set in H.
  destruct (String.eqb_spec k k') as [->|N]; [discriminate|].
  apply MapFacts.get_None_keys in H. intros [->|Hin]; congruence.
Qed.

Section TimerFacts.

Variables Math_sin Math_cos : JS.number -> JS.number.
Variable Math_atan2 : JS.number -> JS.number -> JS.number.

Lemma reachable_watched w s :
  reachable Math_sin Math_cos Math_atan2 w s ->
  forall k, In (HealthTimer k) (timers s)
            <-> In k (JS.keys (devices (service s))).
Proof.
  induction 1 as [|s a R IH _]; intros k.
  - simpl. tauto.
  - pose proof (reachable_invariant _ _ _ _ _ R) as Inv.
    destruct (perform_kind Math_sin Math_cos Math_atan2 a s Inv)
      as [G (more & T & Hm) _ | device Hid D Rd T _ | P K T _].
    + rewrite T, (gentle_keys _ _ G), in_app_iff, (IH k). split; [|tauto].
      intros [H|H]; [exact H|]. apply Hm in H. discriminate.
    + rewrite T, D, in_app_iff, In_keys_set_iff, (IH k). simpl.
      split; [intros [H|[H|[]]]; [tauto | inversion H; tauto]|].
      intros [->|H]; tauto.
    + rewrite T, K. apply IH.
Qed.

(** *** The poll timer and the initialization *)

Lemma stage_refl s : same_stage s s.
Proof. reflexivity. Qed.

Lemma stage_trans a b c : same_stage a b -> same_stage b c -> same_stage a c.
Proof. unfold same_stage. congruence. Qed.

Lemma stage_bind {A B} (c : Async A) (k : A -> Async B) :
  preserves same_stage c -> (forall a, preserves same_stage (k a)) ->
  preserves same_stage (bind c k).
Proof. apply preserves_bind. exact stage_trans. Qed.

Lemma stage_forM_ {A} (l : list A) f :
  (forall a, preserves same_stage (f a)) -> preserves same_stage (forM_ l f).
Proof. apply preserves_forM_; [exact stage_refl | exact stage_trans]. Qed.

Lemma stage_mapM {A B} (f : A -> Async B) (l : list A) :
  (forall a, preserves same_stage (f a)) -> preserves same_stage (mapM f l).
Proof. apply preserves_mapM; [exact stage_refl | exact stage_trans]. Qed.

Lemma stage_try_catch (c : Async unit) (h : string -> Async unit) :
  preserves same_stage c -> (forall m, preserves same_stage (h m)) ->
  preserves same_stage (try_catch c h).
Proof. apply preserves_try_catch. exact stage_trans. Qed.

Ltac stage_steps :=
  repeat first
    [ apply stage_bind; [|intros ?]
    | apply stage_forM_; intros ?
    | apply stage_mapM; intros ?
    | apply stage_try_catch; [|intros ?]
    | solve [ intros ?; reflexivity ]
    | match goal with
      | |- preserves _ (match ?x with _ => _ end) => destruct x
      | |- preserves _ (if ?x then _ else _) => destruct x
      end ].

Lemma stage_call_handler h data :
  preserves same_stage (call_handler h data).
Proof.
  destruct h.
  unfold call_handler, executeEdgeFunction, processAtEdge, sendToCloud.
  stage_steps.
Qed.

Lemma stage_collect_one device i sensor :
  preserves same_stage (collect_one Math_sin device i sensor).
Proof.
  unfold collect_one, generateSensorReading, getBaseValueForSensor,
    processReading, detectAnomaly, triggerAlert.
  stage_steps; apply stage_call_handler.
Qed.

Lemma stage_collect_from device todo :
  forall i, preserves same_stage (collect_from Math_sin device i todo).
Proof.
  induction todo as [|sensor rest IH]; intros i; cbn [collect_from].
  - intros s. reflexivity.
  - apply stage_bind; [apply stage_collect_one|]. intros _. apply IH.
Qed.

Lemma stage_poll_cycle : preserves same_stage (poll_cycle Math_sin).
Proof.
  unfold poll_cycle, collectSensorData.
  stage_steps; apply stage_collect_from.
Qed.

Lemma stage_registerDevice c : preserves same_stage (registerDevice c).
Proof.
  unfold registerDevice, new_sensor, startDeviceMonitoring. stage_steps.
Qed.

(** Only [initializeIoT] itself moves its initialization on. *)
Lemma perform_same_stage a s :
  a <> ResumeInitializeIoT ->
  same_stage s (perform Math_sin Math_cos Math_atan2 a s).
Proof.
  intros N. destruct a; unfold perform; try congruence.
  - apply stage_registerDevice.
  - reflexivity.
  - reflexivity.
  - reflexivity.
  - revert s. unfold deployEdgeFunction. stage_steps.
  - revert s. unfold performSecurityScan, scanForVulnerabilities.
    stage_steps.
  - revert s.
    unfold updateDeviceFirmware, getLatestFirmwareVersion,
      performFirmwareUpdate.
    stage_steps.
  - apply stage_poll_cycle.
  - revert s. unfold checkDeviceHealth. stage_steps.
Qed.

Lemma perform_timers a s :
  invariant s ->
  exists more,
    timers (perform Math_sin Math_cos Math_atan2 a s)
    = (timers s ++ more)%list.
Proof.
  intros Inv.
  destruct (perform_kind Math_sin Math_cos Math_atan2 a s Inv)
    as [_ (more & T & _) _ | device _ _ _ T _ | _ _ T _].
  - now exists more.
  - now exists [HealthTimer (id device)].
  - exists []. now rewrite app_nil_r.
Qed.

Lemma reachable_poll_timer w s :
  reachable Math_sin Math_cos Math_atan2 w s ->
  initialization s <> before_startDataCollection ->
  In PollTimer (timers s).
Proof.
  induction 1 as [|s a R IH _]; [simpl; congruence|].
  pose proof (reachable_invariant _ _ _ _ _ R) as Inv.
  destruct (perform_timers a s Inv) as (more & T).
  destruct a;
    try (rewrite T, perform_same_stage by discriminate;
         intros N; apply in_or_app; left; now apply IH).
  clear T more. unfold perform, resume_initializeIoT, bind, read.
  destruct (initialization s); simpl; intros N.
  - apply in_or_app. right. now left.
  - apply IH. discriminate.
  - apply IH. discriminate.
Qed.

(** X11. No call and no firing stops a timer: the timers after a step are
    the timers before it, followed by those it starts. In every state of a
    run a health timer is running for an id if and only if a device is
    registered under it. The constructor starts no timer: the poll timer
    is started when [initializeIoT] goes on after its first [await], and
    it is running in every state after that; a device that is registered
    before has its health timer running first. *)
Theorem timers_are_never_cleared w s :
  reachable Math_sin Math_cos Math_atan2 w s ->
  (forall a, exists more,
        timers (perform Math_sin Math_cos Math_atan2 a s)
        = (timers s ++ more)%list)
  /\ (forall k, In (HealthTimer k) (timers s)
                <-> In k (JS.keys (devices (service s))))
  /\ timers (new_IoTService w) = []
  /\ (initialization s = before_startDataCollection ->
      timers (perform Math_sin Math_cos Math_atan2 ResumeInitializeIoT s)
      = (timers s ++ [PollTimer])%list)
  /\ (initialization s <> before_startDataCollection ->
      In PollTimer (timers s)).
Proof.
  intros R. pose proof (reachable_invariant _ _ _ _ _ R) as Inv.
  split; [intros a; now apply perform_timers|].
  split; [now apply (reachable_watched w)|].
  split; [reflexivity|]. split.
  - intros E. unfold perform, resume_initializeIoT, bind, read.
    rewrite E. reflexivity.
  - now apply (reachable_poll_timer w).
Qed.

End TimerFacts.

(** The statement of X11 for a device that is registered as soon as the
    constructor has returned: its health timer is the only timer, and the
    poll timer comes after it when [initializeIoT] goes on. *)
Lemma timers_are_never_cleared_witness :
  reachable Sample.flat Sample.flat Sample.flat2
    (Sample.world_of (fun _ => 0.5)) Depot.registered_early
  /\ timers Depot.registered_early = [HealthTimer "u"]
  /\ timers (perform Sample.flat Sample.flat Sample.flat2
               ResumeInitializeIoT Depot.registered_early)
     = [HealthTimer "u"; PollTimer].
Proof.
  assert (R : reachable Sample.flat Sample.flat Sample.flat2
                (Sample.world_of (fun _ => 0.5)) Depot.registered_early)
    by (apply reach_step; [apply reach_new | exact I]).
  destruct (timers_are_never_cleared Sample.flat Sample.flat Sample.flat2
              _ _ R) as (_ & _ & _ & P & _).
  split; [exact R|]. split; [reflexivity|].
  rewrite P by reflexivity. reflexivity.
Defined.

(** *** Sensors and their last-reading slots *)

Lemma fixed_update_nth r l : forall i,
  map fixed (update_nth i (with_lastReading r) l) = map fixed l.
Proof.
  induction l as [|a l IH]; intros [|i]; simpl; try reflexivity.
  now rewrite IH.
Qed.

Lemma fixed_set_readings news : forall i l,
  map fixed (set_readings i news l) = map fixed l.
Proof.
  induction news as [|r news IH]; intros i l; simpl; [reflexivity|].
  now rewrite IH, fixed_update_nth.
Qed.

Lemma update_nth_app {A} (f : A -> A) pre x post :
  update_nth (length pre) f (pre ++ x :: post) = (pre ++ f x :: post)%list.
Proof. induction pre as [|a pre IH]; simpl; congruence. Qed.

Lemma slots_set_readings news : forall pre post,
  length post = length news ->
  map lastReading (set_readings (length pre) news (pre ++ post))
  = (map lastReading pre ++ news)%list.
Proof.
  induction news as [|r news IH]; intros pre post H.
  - destruct post; [|discriminate]. simpl. now rewrite !app_nil_r.
  - destruct post as [|x post]; [discriminate|]. cbn [set_readings].
    rewrite update_nth_app.
    replace (pre ++ with_lastReading r x :: post)%list
      with ((pre ++ [with_lastReading r x]) ++ post)%list
      by now rewrite <- app_assoc.
    replace (S (length pre)) with (length (pre ++ [with_lastReading r x]))
      by (rewrite length_app; simpl; lia).
    rewrite IH by (simpl in H; lia).
    rewrite map_app, <- app_assoc. reflexivity.
Qed.

Lemma newest_of_pushes news old :
  length old <= 1000 -> length news <= 1000 ->
  JS.slice_last (length news) (fold_left push_bounded news old) = news.
Proof.
  intros Ho Hn. rewrite HistoryFacts.pushes_slice by exact Ho.
  unfold JS.slice_last. rewrite length_skipn, skipn_skipn, length_app.
  replace (length old + length news - (length old + length news - 1000)
           - length news + (length old + length news - 1000))%nat
    with (length old) by lia.
  rewrite skipn_app, skipn_all, Nat.sub_diag. reflexivity.
Qed.

Lemma In_fixed l l' x :
  map fixed l' = map fixed l -> In x l ->
  exists x', In x' l' /\ fixed x' = fixed x.
Proof.
  intros E Hin. apply (in_map fixed) in Hin. rewrite <- E in Hin.
  apply in_map_iff in Hin. destruct Hin as (x' & Hs & Hin'). eauto.
Qed.

Section KeptFacts.

Variables Math_sin Math_cos : JS.number -> JS.number.
Variable Math_atan2 : JS.number -> JS.number -> JS.number.

Lemma kept_step w a s k d :
  invariant s -> advanced w (world s) -> never_repeats w ->
  JS.get (devices (service s)) k = Some d ->
  exists d',
    JS.get (devices (service (perform Math_sin Math_cos Math_atan2 a s))) k
    = Some d'
    /\ hardware d' = hardware d
    /\ map fixed (sensors d') = map fixed (sensors d).
Proof.
  intros Inv A Inj G.
  destruct (perform_kind Math_sin Math_cos Math_atan2 a s Inv)
    as [Gt _ _ | device Hid D Rd T _ | P K T _].
  - pose proof (gentle_devices _ _ Gt k) as H. rewrite G in H.
    destruct (JS.get (devices
                        (service (perform Math_sin Math_cos Math_atan2 a s)))
                k) as [d'|]; [|contradiction].
    exists d'. destruct H as [H1 H2]. now rewrite H2.
  - assert (N : id device <> k).
    { intros <-.
      assert (Hin : In (id device) (JS.keys (devices (service s)))).
      { destruct (in_dec string_dec (id device)
                    (JS.keys (devices (service s)))) as [H|H]; [exact H|].
        apply MapFacts.get_None_keys in H. congruence. }
      destruct (inv_drawn _ Inv _ Hin) as (n & Hn & En).
      rewrite Hid in En. destruct A as [_ U _ _ _ _]. rewrite U in En.
      apply Inj in En. lia. }
    exists d. rewrite D, MapFacts.get_set_other by exact N. auto.
  - specialize (P k). unfold polled in P. rewrite G in P.
    destruct (DeviceStatus_eqb (status d) online).
    + destruct P as (news & _ & _ & _ & Gd).
      exists (with_sensors (set_readings 0 news) d).
      split; [exact Gd|]. split; [reflexivity|].
      apply fixed_set_readings.
    + destruct P as [_ P2]. exists d. rewrite P2. auto.
Qed.

(** X12. In a run whose identifier source never repeats, a registered
    device stays registered under its id whatever calls and timer firings
    follow, with the same id, type, location, connectivity type, strength,
    protocol and data usage, encryption flag, certificate expiry and
    auto-update flag, and with the same sensors but for their last
    readings. *)
Theorem devices_are_never_removed w s actions k d :
  reachable Math_sin Math_cos Math_atan2 w s -> never_repeats w ->
  JS.get (devices (service s)) k = Some d ->
  exists d',
    JS.get (devices (service (run Math_sin Math_cos Math_atan2 actions s))) k
    = Some d'
    /\ hardware d' = hardware d
    /\ map fixed (sensors d') = map fixed (sensors d).
Proof.
  intros R Inj.
  pose proof (reachable_invariant _ _ _ _ _ R) as Inv.
  pose proof (reachable_advanced _ _ _ _ _ R) as A.
  clear R. revert s d Inv A.
  induction actions as [|a actions IH]; intros s d Inv A G.
  - exists d. auto.
  - destruct (kept_step w a s k d Inv A Inj G) as (d1 & G1 & H1 & F1).
    destruct (IH (perform Math_sin Math_cos Math_atan2 a s) d1) as (d' & G' & H' & F').
    + now apply invariant_perform.
    + eapply advanced_trans; [exact A|]. now apply perform_advanced.
    + exact G1.
    + exists d'. split; [exact G'|]. split; congruence.
Qed.

Lemma synced_step a s :
  invariant s ->
  (forall k d, JS.get (devices (service s)) k = Some d ->
               length (sensors d) <= 1000 ->
               history s k = []
               \/ map lastReading (sensors d)
                  = JS.slice_last (length (sensors d)) (history s k)) ->
  forall k d,
    JS.get (devices (service (perform Math_sin Math_cos Math_atan2 a s))) k
    = Some d ->
    length (sensors d) <= 1000 ->
    history (perform Math_sin Math_cos Math_atan2 a s) k = []
    \/ map lastReading (sensors d)
       = JS.slice_last (length (sensors d))
           (history (perform Math_sin Math_cos Math_atan2 a s) k).
Proof.
  intros Inv H k d'.
  destruct (perform_kind Math_sin Math_cos Math_atan2 a s Inv)
    as [Gt _ _ | device Hid D Rd T _ | P K T _]; intros G' L.
  - pose proof (gentle_devices _ _ Gt k) as Hd. rewrite G' in Hd.
    destruct (JS.get (devices (service s)) k) as [d|] eqn:G;
      [|contradiction].
    destruct Hd as [_ Hs]. unfold history. rewrite (gentle_readings _ _ Gt).
    fold (history s k). rewrite Hs in *. now apply H.
  - unfold history. rewrite Rd, MapFacts.get_set.
    rewrite D, MapFacts.get_set in G'.
    destruct (String.eqb (id device) k); [now left|].
    now apply H.
  - specialize (P k). unfold polled in P.
    destruct (JS.get (devices (service s)) k) as [d|] eqn:G.
    2:{ destruct P as [P1 P2]. congruence. }
    destruct (DeviceStatus_eqb (status d) online).
    2:{ destruct P as [P1 P2]. unfold history. rewrite P1.
        fold (history s k). rewrite P2, G in G'. inversion G'. subst d'.
        now apply H. }
    destruct P as (news & Fs & Hh & _ & Gd). rewrite Gd in G'.
    inversion G'. subst d'. clear G'. right. cbn [sensors with_sensors] in *.
    pose proof (Forall2_length Fs) as Ln.
    assert (Ls : length (set_readings 0 news (sensors d))
                 = length (sensors d)).
    { rewrite <- (length_map fixed), fixed_set_readings.
      apply length_map. }
    rewrite Ls in *. rewrite Hh, Ln.
    rewrite newest_of_pushes; [| |lia].
    + apply (slots_set_readings news [] (sensors d)). lia.
    + unfold history.
      destruct (JS.get (sensorReadings (service s)) k) as [old|] eqn:Go;
        [eapply inv_bounded; eassumption | simpl; lia].
Qed.

(** X13. In every state of a run, for every device with at most 1000
    sensors: either its history is empty, or the last readings of its
    sensors, in the order of the sensors, are the newest entries of its
    history. *)
Theorem slots_hold_the_newest_readings w s :
  reachable Math_sin Math_cos Math_atan2 w s ->
  forall k d,
    JS.get (devices (service s)) k = Some d ->
    length (sensors d) <= 1000 ->
    history s k = []
    \/ map lastReading (sensors d)
       = JS.slice_last (length (sensors d)) (history s k).
Proof.
  induction 1 as [|s a R IH _].
  - intros k d G. discriminate.
  - apply synced_step; [|exact IH].
    eapply reachable_invariant. exact R.
Qed.

End KeptFacts.

(** The statement of X12 for a poll cycle, a health check, a security
    scan and a firmware update. *)
Lemma devices_are_never_removed_witness :
  exists d d',
    JS.get (devices (service Sample.two_sensors)) "u" = Some d
    /\ JS.get
         (devices
            (service
               (run Sample.flat Sample.flat Sample.flat2
                  [FirePoll; FireHealth "u"; CallPerformSecurityScan "u";
                   CallUpdateDeviceFirmware "u" None]
                  Sample.two_sensors))) "u"
       = Some d'
    /\ hardware d' = hardware d
    /\ map fixed (sensors d') = map fixed (sensors d).
Proof.
  destruct sample_device as [d G].
  destruct (devices_are_never_removed Sample.flat Sample.flat Sample.flat2
              (Sample.world_of (fun _ => 0.5)) Sample.two_sensors
              [FirePoll; FireHealth "u"; CallPerformSecurityScan "u";
               CallUpdateDeviceFirmware "u" None]
              "u" d sample_reachable SampleFacts.unary_injective G)
    as (d' & G' & H).
  exists d, d'. auto.
Defined.

(** The statement of X13 after the first poll cycle. *)
Lemma slots_hold_the_newest_readings_witness :
  exists d,
    JS.get (devices (service (Sample.fire_polls 1 Sample.two_sensors))) "u"
    = Some d
    /\ length (sensors d) <= 1000
    /\ map lastReading (sensors d)
       = JS.slice_last (length (sensors d))
           (history (Sample.fire_polls 1 Sample.two_sensors) "u").
Proof.
  destruct sample_polled_device as (d & G & L).
  assert (L' : length (sensors d) <= 1000) by (rewrite L; lia).
  exists d. split; [exact G|]. split; [exact L'|].
  destruct (slots_hold_the_newest_readings Sample.flat Sample.flat
              Sample.flat2 _ _ sample_polled_reachable "u" d G L')
    as [H|H]; [|exact H].
  vm_compute in H. discriminate H.
Defined.

Section StampFacts.

Variables Math_sin Math_cos : JS.number -> JS.number.
Variable Math_atan2 : JS.number -> JS.number -> JS.number.

Lemma synthesized_metadata w device sensor reading :
  synthesized Math_sin w device sensor reading ->
  metadata reading
  = Some {| meta_deviceId := id device;
            meta_sensorType := sensor_type sensor;
            meta_location := location device;
            meta_connectivity := strength (connectivity device) |}.
Proof.
  intros (s0 & s1 & _ & E).
  destruct (generateSensorReading_effect Math_sin sensor device s0)
    as (reading' & s' & k & E' & _ & _ & _ & M).
  rewrite E in E'. inversion E'. subst. exact M.
Qed.

Lemma stamped_step s s' :
  invariant s -> step_kind Math_sin s s' ->
  (forall k r, In r (history s k) ->
     exists d x m,
       JS.get (devices (service s)) k = Some d /\ In x (sensors d)
       /\ metadata r = Some m /\ meta_deviceId m = k
       /\ meta_sensorType m = sensor_type x
       /\ meta_location m = location d
       /\ meta_connectivity m = strength (connectivity d)) ->
  forall k r,
    In r (history s' k) ->
    exists d x m,
      JS.get (devices (service s')) k = Some d
      /\ In x (sensors d)
      /\ metadata r = Some m /\ meta_deviceId m = k
      /\ meta_sensorType m = sensor_type x
      /\ meta_location m = location d
      /\ meta_connectivity m = strength (connectivity d).
Proof.
  intros Inv PK H k r.
  assert (Keep : forall d d',
             JS.get (devices (service s)) k = Some d ->
             JS.get (devices (service s')) k = Some d' ->
             hardware d' = hardware d ->
             map fixed (sensors d') = map fixed (sensors d) ->
             In r (history s k) ->
             exists d0 x0 m,
               JS.get (devices (service s')) k = Some d0
               /\ In x0 (sensors d0)
               /\ metadata r = Some m /\ meta_deviceId m = k
               /\ meta_sensorType m = sensor_type x0
               /\ meta_location m = location d0
               /\ meta_connectivity m = strength (connectivity d0)).
  { intros d d' G G' Hw Fx Hin.
    destruct (H k r Hin) as (d0 & x & m & G0 & Hx & M & Mk & Mt & Ml & Mc).
    rewrite G in G0. inversion G0. subst d0.
    destruct (In_fixed _ _ x Fx Hx) as (x' & Hx' & Ex).
    exists d', x', m. unfold hardware in Hw. unfold fixed in Ex.
    inversion Hw. inversion Ex. repeat split; auto; congruence. }
  destruct PK as [Gt _ _ | device Hid D Rd T _ | P K T _].
  - unfold history at 1. rewrite (gentle_readings _ _ Gt).
    fold (history s k). intros Hin.
    destruct (H k r Hin) as (d & x & m & G & Hx & _).
    pose proof (gentle_devices _ _ Gt k) as Hd. rewrite G in Hd.
    destruct (JS.get (devices (service s')) k) as [d'|] eqn:G';
      [|contradiction].
    destruct Hd as [Hw Hs].
    apply (Keep d d'); auto. now rewrite Hs.
  - unfold history at 1. rewrite Rd, MapFacts.get_set.
    destruct (String.eqb_spec (id device) k) as [E|N]; [intros []|].
    fold (history s k). intros Hin.
    destruct (H k r Hin) as (d & x & m & G & Hx & _).
    apply (Keep d d); auto.
    rewrite D. now rewrite MapFacts.get_set_other.
  - specialize (P k). unfold polled in P.
    assert (U : untouched s s' k -> In r (history s' k) ->
                exists d0 x0 m,
                  JS.get (devices (service s')) k = Some d0
                  /\ In x0 (sensors d0)
                  /\ metadata r = Some m /\ meta_deviceId m = k
                  /\ meta_sensorType m = sensor_type x0
                  /\ meta_location m = location d0
                  /\ meta_connectivity m = strength (connectivity d0)).
    { intros [U1 U2]. unfold history at 1. rewrite U1. fold (history s k).
      intros Hin. destruct (H k r Hin) as (d & x & m & G & Hx & _).
      apply (Keep d d); auto. now rewrite U2. }
    destruct (JS.get (devices (service s)) k) as [d|] eqn:G; [|exact (U P)].
    destruct (DeviceStatus_eqb (status d) online); [|exact (U P)].
    destruct P as (news & Fs & Hh & _ & Gd). rewrite Hh. intros Hin.
    apply In_pushes in Hin. destruct Hin as [Hold|Hnew].
    + destruct (H k r Hold) as (d0 & x & m & G0 & Hx & _).
      apply (Keep d (with_sensors (set_readings 0 news) d)); auto.
      apply fixed_set_readings.
    + destruct (Forall2_In_right _ _ _ _ Fs Hnew) as (x & Hx & Sy).
      pose proof (synthesized_metadata _ _ _ _ Sy) as M.
      destruct (In_fixed (sensors d) (set_readings 0 news (sensors d)) x
                  (fixed_set_readings news 0 (sensors d)) Hx)
        as (x' & Hx' & Ex).
      exists (with_sensors (set_readings 0 news) d), x'. eexists.
      split; [exact Gd|]. split; [exact Hx'|]. split; [exact M|].
      cbn. unfold fixed in Ex. inversion Ex.
      repeat split; auto. eapply inv_keyed; eassumption.
Qed.

(** X14. In every state of a run, every reading in the history of a device
    carries metadata that name this device, the type of one of its sensors,
    its location and its signal strength. *)
Theorem readings_name_their_device w s :
  reachable Math_sin Math_cos Math_atan2 w s ->
  forall k r,
    In r (history s k) ->
    exists d x m,
      JS.get (devices (service s)) k = Some d
      /\ In x (sensors d)
      /\ metadata r = Some m
      /\ meta_deviceId m = k
      /\ meta_sensorType m = sensor_type x
      /\ meta_location m = location d
      /\ meta_connectivity m = strength (connectivity d).
Proof.
  induction 1 as [|s a R IH _].
  - intros k r [].
  - pose proof (reachable_invariant _ _ _ _ _ R) as Inv.
    apply (stamped_step s); [exact Inv | now apply perform_kind | exact IH].
Qed.

End StampFacts.

(** The statement of X14 at the first reading of the first poll cycle. *)
Lemma readings_name_their_device_witness :
  In (hd Sample.blank_reading
        (history (Sample.fire_polls 1 Sample.two_sensors) "u"))
     (history (Sample.fire_polls 1 Sample.two_sensors) "u")
  /\ exists m,
      metadata (hd Sample.blank_reading
                  (history (Sample.fire_polls 1 Sample.two_sensors) "u"))
      = Some m
      /\ meta_deviceId m = "u".
Proof.
  assert (H : In (hd Sample.blank_reading
                    (history (Sample.fire_polls 1 Sample.two_sensors) "u"))
                 (history (Sample.fire_polls 1 Sample.two_sensors) "u"))
    by (vm_compute; left; reflexivity).
  split; [exact H|].
  destruct (readings_name_their_device Sample.flat Sample.flat Sample.flat2
              _ _ sample_polled_reachable "u" _ H)
    as (d & x & m & _ & _ & M & K & _).
  exists m. auto.
Defined.

(** ** Health checks, security scans and firmware updates *)

(** X15. For a registered device [checkDeviceHealth] draws one random
    number. When it exceeds 0.05 the device is online, whatever it was
    before, and last seen at the time the clock gives; otherwise it is
    offline and the time it was last seen is unchanged. Nothing else changes
    in the device, and the other devices, the histories, the listeners, the
    timers and the console stay as they are. *)
Theorem checkDeviceHealth_redraws_status deviceId d s :
  JS.get (devices (service s)) deviceId = Some d ->
  exists s',
    checkDeviceHealth deviceId s = (Normal tt, s')
    /\ JS.get (devices (service s')) deviceId
       = Some (if JS.gt (drawn s 0) 0.05
               then with_lastSeen (clock_reading s) (with_status online d)
               else with_status offline d)
    /\ (forall k, k <> deviceId ->
                  JS.get (devices (service s')) k
                  = JS.get (devices (service s)) k)
    /\ JS.keys (devices (service s')) = JS.keys (devices (service s))
    /\ sensorReadings (service s') = sensorReadings (service s)
    /\ eventHandlers (service s') = eventHandlers (service s)
    /\ timers s' = timers s
    /\ console s' = console s.
Proof.
  intros G. unfold checkDeviceHealth, bind, Math_random. cbv beta iota.
  unfold drawn, clock_reading. cbn [Nat.add].
  match goal with
  | |- context [mutate_device deviceId ?f ?st] =>
      rewrite (mutate_device_found deviceId f d st) by exact G
  end.
  destruct (JS.gt (random_src (world s) (random_pos (world s))) 0.05).
  - unfold Date_now.
    match goal with
    | |- context [mutate_device deviceId ?f ?st] =>
        rewrite (mutate_device_found deviceId f (with_status online d) st)
          by (simpl; apply MapFacts.get_set_same)
    end.
    eexists. split; [reflexivity|]. simpl.
    split; [apply MapFacts.get_set_same|].
    split; [intros k N; rewrite !MapFacts.get_set_other; congruence|].
    split.
    { rewrite (MapFacts.keys_set_present _ _ _ (with_status online d))
        by apply MapFacts.get_set_same.
      eapply MapFacts.keys_set_present. exact G. }
    repeat split.
  - unfold ret. eexists. split; [reflexivity|]. simpl.
    split; [apply MapFacts.get_set_same|].
    split; [intros k N; apply MapFacts.get_set_other; congruence|].
    split; [eapply MapFacts.keys_set_present; exact G|].
    repeat split.
Qed.

(** The statement of X15 for a random number of one half. *)
Lemma checkDeviceHealth_redraws_status_witness :
  exists d s',
    JS.get (devices (service Sample.two_sensors)) "u" = Some d
    /\ checkDeviceHealth "u" Sample.two_sensors = (Normal tt, s')
    /\ JS.get (devices (service s')) "u"
       = Some (with_lastSeen (clock_reading Sample.two_sensors)
                 (with_status online d)).
Proof.
  destruct sample_device as [d G].
  destruct (checkDeviceHealth_redraws_status "u" d Sample.two_sensors G)
    as (s' & E & D & _).
  exists d, s'. split; [exact G|]. split; [exact E|]. exact D.
Defined.

Lemma penalty_number_finite sev :
  exists m e, Prim2SF (penalty_number sev) = S754_finite false m e.
Proof.
  destruct sev; cbn [penalty_number];
    match goal with
    | |- context [Prim2SF ?c] => set (p := Prim2SF c); vm_compute in p
    end; subst p; eexists _, _; reflexivity.
Qed.

Ltac score_case j sev :=
  first
    [ right; split; [simpl; lia | vm_compute; exact I]
    | left;
      let w := eval vm_compute in
                 (Z.to_nat ((5 * Z.of_nat j - penalty sev) / 5)) in
      exists w; split; [lia | split; [reflexivity | vm_compute; reflexivity]] ].

Lemma score_step z x sev :
  score_state z x ->
  score_state (z - penalty sev) (x - penalty_number sev).
Proof.
  intros [(j & Hj & -> & ->) | [Hz Hn]].
  - destruct j as [|j]; [lia|].
    do 20 (destruct j as [|j];
           [ clear Hj; destruct sev;
             match goal with
             | |- score_state (5 * Z.of_nat ?n - penalty ?c) _ =>
                 score_case n c
             end | ]).
    lia.
  - right. split; [destruct sev; simpl; lia|].
    destruct (penalty_number_finite sev) as (m & e & E).
    rewrite sub_spec, E. now apply FloatSigns.sub_not_positive.
Qed.

Lemma score_fold vulns : forall z x,
  score_state z x ->
  score_state (z - total_penalty vulns)
    (fold_left (fun score vuln => score - penalty_number (vuln_severity vuln))
       vulns x).
Proof.
  induction vulns as [|v vs IH]; intros z x H; cbn [fold_left total_penalty fold_right].
  - now rewrite Z.sub_0_r.
  - fold (total_penalty vs).
    replace (z - (penalty (vuln_severity v) + total_penalty vs))%Z
      with (z - penalty (vuln_severity v) - total_penalty vs)%Z by lia.
    apply IH. now apply score_step.
Qed.

Lemma score_floor z x :
  score_state z x -> JS.Math_max 0 x = JS.of_Z (Z.max 0 z).
Proof.
  intros [(j & Hj & -> & ->) | [Hz Hn]].
  - destruct j as [|j]; [lia|].
    do 20 (destruct j as [|j]; [vm_compute; reflexivity|]).
    lia.
  - rewrite Z.max_l by lia. cbn [JS.of_Z]. unfold JS.Math_max.
    assert (N : is_nan x = false).
    { apply NumberOrder.not_nan_spec. intros E. now rewrite E in Hn. }
    assert (L : (0 <? x) = false).
    { rewrite FloatAxioms.ltb_spec.
      change (Prim2SF 0) with (S754_zero false).
      destruct (Prim2SF x) as [s|s| |s m e]; try reflexivity;
        destruct s; try reflexivity; contradiction. }
    rewrite N, L. simpl. now destruct (x <? 0).
Qed.

(** X16. The security score of an array of vulnerabilities, of any length,
    is 100 minus the sum of their penalties (5, 15, 30 and 50 for the
    severities low, medium, high and critical) when that is positive, and 0
    otherwise. So it is a number from 0 to 100. *)
Theorem calculateSecurityScore_exact vulns :
  calculateSecurityScore vulns
  = JS.of_Z (Z.max 0 (100 - total_penalty vulns))
  /\ (0 <=? calculateSecurityScore vulns) = true
  /\ (calculateSecurityScore vulns <=? 100) = true.
Proof.
  assert (S : score_state (100 - total_penalty vulns)
                (fold_left
                   (fun score vuln =>
                      score - penalty_number (vuln_severity vuln))
                   vulns 100)).
  { apply score_fold. left. exists 20%nat.
    split; [lia|]. split; reflexivity. }
  assert (E : calculateSecurityScore vulns
              = JS.of_Z (Z.max 0 (100 - total_penalty vulns))).
  { rewrite <- (score_floor _ _ S). reflexivity. }
  split; [exact E|]. rewrite E.
  destruct S as [(j & Hj & -> & _) | [Hz _]].
  - destruct j as [|j]; [lia|].
    do 20 (destruct j as [|j]; [split; vm_compute; reflexivity|]).
    lia.
  - rewrite Z.max_l by lia. split; reflexivity.
Qed.

(** X17. For a registered device [performSecurityScan] returns normally.
    When the random number it draws exceeds 0.8 the report holds one
    vulnerability of medium severity and the score 85; otherwise it holds
    none and the score 100. Its only recommendation is to enable automatic
    security updates. The vulnerabilities of the device become those of the
    report, replacing the ones it had, and the time of its last scan the
    clock's; nothing else changes in the device, and the other devices, the
    histories, the listeners, the timers and the console stay as they
    are. *)
Theorem performSecurityScan_report deviceId d s :
  JS.get (devices (service s)) deviceId = Some d ->
  exists report s',
    performSecurityScan deviceId s = (Normal report, s')
    /\ report_vulnerabilities report
       = (if JS.gt (drawn s 0) 0.8
          then [ {| vuln_severity := medium;
                    description := "Outdated firmware version";
                    mitigation := "Update to latest firmware version" |} ]
          else [])
    /\ score report = (if JS.gt (drawn s 0) 0.8 then 85 else 100)
    /\ recommendations report = ["Enable automatic security updates"]
    /\ JS.get (devices (service s')) deviceId
       = Some (with_security
                 {| encrypted := encrypted (security d);
                    certificateExpiry := certificateExpiry (security d);
                    lastSecurityScan := clock_reading s;
                    vulnerabilities := report_vulnerabilities report |} d)
    /\ (forall k, k <> deviceId ->
                  JS.get (devices (service s')) k
                  = JS.get (devices (service s)) k)
    /\ JS.keys (devices (service s')) = JS.keys (devices (service s))
    /\ sensorReadings (service s') = sensorReadings (service s)
    /\ eventHandlers (service s') = eventHandlers (service s)
    /\ timers s' = timers s
    /\ console s' = console s.
Proof.
  intros G. unfold performSecurityScan. unfold bind at 1, read.
  cbv beta iota. rewrite G.
  unfold scanForVulnerabilities, bind, Math_random, Date_now, ret.
  cbv beta iota.
  match goal with
  | |- context [mutate_device deviceId ?f ?st] =>
      rewrite (mutate_device_found deviceId f d st) by exact G
  end.
  unfold drawn, clock_reading. cbn [Nat.add].
  eexists _, _. split; [reflexivity|].
  cbn [report_vulnerabilities score recommendations].
  destruct (JS.gt (random_src (world s) (random_pos (world s))) 0.8);
    (split; [reflexivity|]); (split; [reflexivity|]);
    (split; [reflexivity|]); simpl;
    (split; [apply MapFacts.get_set_same|]);
    (split; [intros k N; apply MapFacts.get_set_other; congruence|]);
    (split; [eapply MapFacts.keys_set_present; exact G|]);
    repeat split.
Qed.

(** The statement of X17 for a random number of one half. *)
Lemma performSecurityScan_report_witness :
  exists d report s',
    JS.get (devices (service Sample.two_sensors)) "u" = Some d
    /\ performSecurityScan "u" Sample.two_sensors = (Normal report, s')
    /\ score report = 100
    /\ JS.get (devices (service s')) "u"
       = Some (with_security
                 {| encrypted := encrypted (security d);
                    certificateExpiry := certificateExpiry (security d);
                    lastSecurityScan := clock_reading Sample.two_sensors;
                    vulnerabilities := [] |} d).
Proof.
  destruct sample_device as [d G].
  destruct (performSecurityScan_report "u" d Sample.two_sensors G)
    as (report & s' & E & V & Sc & _ & D & _).
  exists d, report, s'. split; [exact G|]. split; [exact E|].
  split; [rewrite Sc; reflexivity|].
  rewrite D, V. reflexivity.
Defined.

(** X18. For a registered device [updateDeviceFirmware] returns normally.
    The firmware version becomes the version given, or 2.1.0 when none or
    the empty string is given; the time of the update becomes the clock's,
    [updateAvailable] becomes false, [autoUpdate] stays. Two lines are
    written to the console, and the other devices, the histories, the
    listeners and the timers stay as they are. The call is one step: no
    timer fires during its pause. *)
Theorem updateDeviceFirmware_installs deviceId ver d s :
  JS.get (devices (service s)) deviceId = Some d ->
  let target :=
    match ver with
    | Some v => if String.eqb v "" then "2.1.0" else v
    | None => "2.1.0"
    end in
  exists s',
    updateDeviceFirmware deviceId ver s = (Normal tt, s')
    /\ JS.get (devices (service s')) deviceId
       = Some (with_firmware
                 {| version := target; lastUpdate := clock_reading s;
                    updateAvailable := false;
                    autoUpdate := autoUpdate (firmware d) |} d)
    /\ (forall k, k <> deviceId ->
                  JS.get (devices (service s')) k
                  = JS.get (devices (service s)) k)
    /\ JS.keys (devices (service s')) = JS.keys (devices (service s))
    /\ console s'
       = (console s
          ++ [LogText ("Updating device " ++ deviceId ++ " firmware to "
                       ++ target);
              LogText ("Updating firmware for device " ++ id d
                       ++ " to version " ++ target)])%list
    /\ sensorReadings (service s') = sensorReadings (service s)
    /\ eventHandlers (service s') = eventHandlers (service s)
    /\ timers s' = timers s.
Proof.
  intros G target. unfold updateDeviceFirmware. unfold bind at 1, read.
  cbv beta iota. rewrite G.
  assert (T : forall st,
             (match ver with
              | Some v => if String.eqb v "" then getLatestFirmwareVersion (type d)
                          else ret v
              | None => getLatestFirmwareVersion (type d)
              end) st = (Normal target, st)).
  { intros st. unfold target, getLatestFirmwareVersion, ret.
    destruct ver as [v|]; [destruct (String.eqb v "")|]; reflexivity. }
  unfold bind at 1. rewrite T.
  unfold performFirmwareUpdate, console_log, modify, bind, Date_now.
  cbv beta iota.
  match goal with
  | |- context [mutate_device deviceId ?f ?st] =>
      rewrite (mutate_device_found deviceId f d st) by exact G
  end.
  eexists. split; [reflexivity|]. simpl.
  split; [apply MapFacts.get_set_same|].
  split; [intros k N; apply MapFacts.get_set_other; congruence|].
  split; [eapply MapFacts.keys_set_present; exact G|].
  split; [now rewrite <- app_assoc|]. repeat split.
Qed.

(** The statement of X18 for the empty version string. *)
Lemma updateDeviceFirmware_installs_witness :
  exists d s',
    JS.get (devices (service Sample.two_sensors)) "u" = Some d
    /\ updateDeviceFirmware "u" (Some "") Sample.two_sensors = (Normal tt, s')
    /\ JS.get (devices (service s')) "u"
       = Some (with_firmware
                 {| version := "2.1.0";
                    lastUpdate := clock_reading Sample.two_sensors;
                    updateAvailable := false;
                    autoUpdate := autoUpdate (firmware d) |} d).
Proof.
  destruct sample_device as [d G].
  destruct (updateDeviceFirmware_installs "u" (Some "") d Sample.two_sensors G)
    as (s' & E & D & _).
  exists d, s'. auto.
Defined.

(** ** Predictive maintenance *)

(** *** The health of a device *)

Lemma nan_sub y : nan - y = nan.
Proof. apply Prim2SF_inj. rewrite sub_spec. reflexivity. Qed.

Lemma calculateDeviceHealth_effect device s :
  exists s',
    calculateDeviceHealth device s
    = (Normal (health_at (clock_reading s) device), s')
    /\ clock_read 1 s s'.
Proof.
  eexists. split; [reflexivity|].
  constructor; simpl; auto. lia.
Qed.

Lemma health_without_sensors now device :
  sensors device = [] -> health_at now device = nan.
Proof.
  intros E. unfold health_at, failing_sensors. rewrite E. cbn [filter length].
  set (c := JS.of_Z (Z.of_nat (critical_vulnerabilities device)) * 0.1).
  destruct (300000 <? now - lastSeen (connectivity device))%Z.
  - replace (1.0 - 0.2 - JS.of_Z (Z.of_nat 0) / JS.of_Z (Z.of_nat 0) * 0.3)
      with nan by (vm_compute; reflexivity).
    now rewrite nan_sub.
  - replace (1.0 - JS.of_Z (Z.of_nat 0) / JS.of_Z (Z.of_nat 0) * 0.3)
      with nan by (vm_compute; reflexivity).
    now rewrite nan_sub.
Qed.

Lemma health_with_sensors now device :
  sensors device <> [] ->
  (Z.of_nat (length (sensors device)) < 2 ^ 32)%Z ->
  is_nan (health_at now device) = false
  /\ (0 <=? health_at now device) = true.
Proof.
  intros Hs Hl. unfold health_at.
  assert (Hlen : (0 < Z.of_nat (length (sensors device)) < 2 ^ 63)%Z).
  { destruct (sensors device); [congruence|]. simpl length in *. lia. }
  destruct (FloatSigns.of_Z_positive _ Hlen) as (m & e & Ey & He).
  set (f := JS.of_Z (Z.of_nat (failing_sensors device))).
  set (n := JS.of_Z (Z.of_nat (length (sensors device)))) in *.
  set (c := JS.of_Z (Z.of_nat (critical_vulnerabilities device))).
  set (c0 := if (300000 <? now - lastSeen (connectivity device))%Z
             then 1.0 - 0.2 else 1.0).
  assert (B0 : bounded_by 1 c0).
  { unfold c0. destruct (300000 <? now - lastSeen (connectivity device))%Z;
      FloatBounds.constant_bound. }
  assert (B1 : bounded_by 117 (f / n)).
  { apply (FloatBounds.div_bounded 64 52 f n false m e Ey);
      [apply RangeFacts.of_Z_bounded | lia | lia]. }
  assert (B2 : bounded_by 117 (f / n * 0.3)).
  { apply (FloatBounds.mul_bounded 117 (-1)); [exact B1| |lia].
    FloatBounds.constant_bound. }
  assert (B3 : bounded_by 119 (c0 - f / n * 0.3)).
  { apply (FloatBounds.sub_bounded 1 117); [exact B0|exact B2|lia]. }
  assert (B4 : bounded_by 62 (c * 0.1)).
  { apply (FloatBounds.mul_bounded 64 (-3));
      [apply RangeFacts.of_Z_bounded| |lia].
    FloatBounds.constant_bound. }
  assert (B5 : bounded_by 121 (c0 - f / n * 0.3 - c * 0.1)).
  { apply (FloatBounds.sub_bounded 119 62); [exact B3|exact B4|lia]. }
  pose proof (FloatBounds.bounded_not_nan _ _ B5) as N.
  destruct (NumberOrder.Math_max_spec 0 _ eq_refl N) as (Hm & H0 & _).
  split; [|exact H0].
  destruct Hm as [-> | ->]; [reflexivity|exact N].
Qed.

Lemma health_of_a_sound_device now device :
  sensors device <> [] ->
  (Z.of_nat (length (sensors device)) < 2 ^ 32)%Z ->
  (now - lastSeen (connectivity device) <= 300000)%Z ->
  failing_sensors device = 0%nat ->
  critical_vulnerabilities device = 0%nat ->
  health_at now device = 1.
Proof.
  intros Hs Hl Hseen Hf Hc. unfold health_at. rewrite Hf, Hc.
  assert (Hlen : (0 < Z.of_nat (length (sensors device)) < 2 ^ 63)%Z).
  { destruct (sensors device); [congruence|]. simpl length in *. lia. }
  destruct (FloatSigns.of_Z_positive _ Hlen) as (m & e & Ey & He).
  set (n := JS.of_Z (Z.of_nat (length (sensors device)))) in *.
  assert (Q : JS.of_Z (Z.of_nat 0) / n = 0).
  { apply Prim2SF_inj. rewrite div_spec, Ey. reflexivity. }
  rewrite Q.
  destruct (Z.ltb_spec 300000 (now - lastSeen (connectivity device)));
    [lia|].
  vm_compute. reflexivity.
Qed.

(** X19. [calculateDeviceHealth] reads the clock once and changes nothing
    else. For a device with fewer than [2 ^ 32] sensors the health is [NaN]
    exactly when the device has no sensor, and with a sensor it is a number
    that is at least 0. It is 1 for a device with a sensor that was seen
    at most 300000 milliseconds ago and has no sensor whose last reading is
    poor and no critical vulnerability. *)
Theorem calculateDeviceHealth_needs_a_sensor device s :
  (Z.of_nat (length (sensors device)) < 2 ^ 32)%Z ->
  exists h s',
    calculateDeviceHealth device s = (Normal h, s')
    /\ clock_read 1 s s'
    /\ (is_nan h = true <-> sensors device = [])
    /\ (sensors device <> [] -> (0 <=? h) = true)
    /\ (sensors device <> [] ->
        (clock_reading s - lastSeen (connectivity device) <= 300000)%Z ->
        failing_sensors device = 0%nat ->
        critical_vulnerabilities device = 0%nat ->
        h = 1).
Proof.
  intros Hl.
  destruct (calculateDeviceHealth_effect device s) as (s' & E & C).
  exists (health_at (clock_reading s) device), s'.
  split; [exact E|]. split; [exact C|]. split; [|split].
  - split.
    + intros N.
      assert (D : sensors device = [] \/ sensors device <> [])
        by (destruct (sensors device);
            [left; reflexivity | right; discriminate]).
      destruct D as [Es|Hs]; [exact Es|].
      destruct (health_with_sensors (clock_reading s) device Hs Hl)
        as [N' _].
      congruence.
    + intros Es. now rewrite health_without_sensors.
  - intros Hs. now apply health_with_sensors.
  - intros Hs. now apply health_of_a_sound_device.
Qed.

(** The statement of X19 at a device without sensors. *)
Lemma calculateDeviceHealth_needs_a_sensor_witness :
  (Z.of_nat (length (sensors (Sample.blank_device "bare" []))) < 2 ^ 32)%Z
  /\ exists h s',
      calculateDeviceHealth (Sample.blank_device "bare" [])
        (new_IoTService (Sample.world_of (fun _ => 0.5)))
      = (Normal h, s')
      /\ is_nan h = true.
Proof.
  assert (L : (Z.of_nat (length (sensors (Sample.blank_device "bare" [])))
               < 2 ^ 32)%Z) by (simpl; lia).
  split; [exact L|].
  destruct (calculateDeviceHealth_needs_a_sensor
              (Sample.blank_device "bare" [])
              (new_IoTService (Sample.world_of (fun _ => 0.5))) L)
    as (h & s' & E & _ & N & _).
  exists h, s'. split; [exact E|]. apply N. reflexivity.
Defined.

(** *** The maintenance forecast *)

Lemma clock_read_trans n m s1 s2 s3 :
  clock_read n s1 s2 -> clock_read m s2 s3 -> clock_read (n + m) s1 s3.
Proof.
  intros [S1 T1 C1 R1 U1 K1 (A1 & B1 & D1)] [S2 T2 C2 R2 U2 K2 (A2 & B2 & D2)].
  constructor; try congruence; [lia|]. repeat split; congruence.
Qed.

Lemma clock_read_refl s : clock_read 0 s s.
Proof. constructor; auto. Qed.

Lemma forecast_ext todo : forall c1 c2,
  (forall i, c1 i = c2 i) -> forecast todo c1 = forecast todo c2.
Proof.
  induction todo as [|d todo IH]; intros c1 c2 H; simpl; [reflexivity|].
  rewrite H. f_equal. apply IH. intros i. apply H.
Qed.

Lemma predict_each_effect todo : forall predictions s,
  exists s',
    predict_each todo predictions s
    = (Normal (predictions
               ++ forecast todo
                    (fun i => clock_src (world s) (clock_pos (world s) + i)%nat))%list,
       s')
    /\ clock_read (length todo) s s'.
Proof.
  induction todo as [|device rest IH]; intros predictions s.
  - exists s. cbn [predict_each forecast]. rewrite app_nil_r.
    split; [reflexivity|apply clock_read_refl].
  - cbn [predict_each forecast].
    destruct (calculateDeviceHealth_effect device s) as (s1 & E1 & C1).
    rewrite (bind_Normal _ E1).
    unfold clock_reading. rewrite Nat.add_0_r.
    set (h := health_at (clock_src (world s) (clock_pos (world s))) device).
    assert (F : forall l,
               forecast l (fun i => clock_src (world s1)
                                      (clock_pos (world s1) + i)%nat)
               = forecast l (fun i => clock_src (world s)
                                        (clock_pos (world s) + S i)%nat)).
    { intros l. apply forecast_ext. intros i.
      destruct C1 as [_ _ _ _ _ K (_ & _ & Cs)]. rewrite Cs, K.
      f_equal. lia. }
    destruct (JS.lt h 0.8).
    + destruct (IH (predictions
                    ++ [ {| prediction_deviceId := id device;
                            component := "sensor-array";
                            probability := 1 - h;
                            timeToFailure := estimateTimeToFailure h;
                            recommendedAction :=
                              getMaintenanceRecommendation h |} ])%list s1)
        as (s' & E & C).
      exists s'. split.
      * rewrite E, F, <- app_assoc. reflexivity.
      * apply (clock_read_trans 1 (length rest) s s1 s'); assumption.
    + destruct (IH predictions s1) as (s' & E & C).
      exists s'. split.
      * rewrite E, F. reflexivity.
      * apply (clock_read_trans 1 (length rest) s s1 s'); assumption.
Qed.

Lemma below_four_fifths_bounded h :
  (0 <=? h) = true -> (h <? 0.8) = true -> bounded_by 0 h.
Proof.
  rewrite FloatAxioms.leb_spec, FloatAxioms.ltb_spec. unfold bounded_by.
  pose proof (Prim2SF_valid h) as V.
  change (Prim2SF 0) with (S754_zero false).
  change (Prim2SF 0.8) with (S754_finite false 7205759403792794 (-53)).
  destruct (Prim2SF h) as [s|s| |s m e]; cbn [small]; auto.
  - destruct s; discriminate.
  - discriminate.
  - apply FloatBounds.valid_digits in V.
    unfold SFleb, SFltb, SFcompare. intros L U.
    destruct s; [discriminate L|].
    destruct (Z.compare_spec e (-53)) as [C|C|C]; [lia|lia|discriminate U].
Qed.

Lemma forecast_In todo : forall clock p,
  In p (forecast todo clock) ->
  exists d now,
    In d todo
    /\ (health_at now d <? 0.8) = true
    /\ p = {| prediction_deviceId := id d;
              component := "sensor-array";
              probability := 1 - health_at now d;
              timeToFailure := estimateTimeToFailure (health_at now d);
              recommendedAction :=
                getMaintenanceRecommendation (health_at now d) |}.
Proof.
  induction todo as [|d todo IH]; intros clock p; simpl; [tauto|].
  intros H. apply in_app_iff in H. destruct H as [H|H].
  - unfold JS.lt in H.
    destruct (health_at (clock 0%nat) d <? 0.8) eqn:L; [|contradiction].
    destruct H as [<-|[]]. exists d, (clock 0%nat). auto.
  - destruct (IH _ _ H) as (d' & now & Hin & L & E).
    exists d', now. auto.
Qed.

Lemma predicted_health now d :
  (health_at now d <? 0.8) = true ->
  sensors d <> []
  /\ (1 <=? estimateTimeToFailure (health_at now d)) = true.
Proof.
  intros L.
  destruct (NumberOrder.leb_not_nan _ _ (NumberOrder.ltb_leb _ _ L))
    as [N _].
  split.
  - intros E. rewrite (health_without_sensors now d E) in N. discriminate.
  - assert (P : (0 <=? health_at now d) = true).
    { unfold health_at in *.
      match goal with
      | |- (0 <=? JS.Math_max 0 ?x) = true =>
          destruct (is_nan x) eqn:Nx;
          [ unfold JS.Math_max in N; rewrite Nx in N; discriminate
          | apply (NumberOrder.Math_max_spec 0 x eq_refl Nx) ]
      end. }
    pose proof (below_four_fifths_bounded _ P L) as B.
    assert (B' : bounded_by 11 (health_at now d * 720)).
    { apply (FloatBounds.mul_bounded 0 10); [exact B| |lia].
      FloatBounds.constant_bound. }
    apply (NumberOrder.Math_max_spec 1 _ eq_refl
             (FloatBounds.bounded_not_nan _ _ B')).
Qed.

(** X20. [predictMaintenanceNeeds] reads the clock once for each
    registered device and changes nothing else. It returns, in the order of
    registration, one prediction for each device whose health is below 0.8.
    Every prediction names a registered device that has a sensor, the
    component [sensor-array] and a time to failure of at least one hour: a
    device without sensors is never predicted to fail. *)
Theorem predictMaintenanceNeeds_forecast s :
  exists predictions s',
    predictMaintenanceNeeds s = (Normal predictions, s')
    /\ clock_read (length (JS.values (devices (service s)))) s s'
    /\ predictions
       = forecast (JS.values (devices (service s)))
           (fun i => clock_src (world s) (clock_pos (world s) + i)%nat)
    /\ forall p,
        In p predictions ->
        exists d,
          In d (JS.values (devices (service s)))
          /\ prediction_deviceId p = id d
          /\ sensors d <> []
          /\ component p = "sensor-array"
          /\ (1 <=? timeToFailure p) = true.
Proof.
  unfold predictMaintenanceNeeds. unfold bind at 1, read. cbv beta iota.
  destruct (predict_each_effect (JS.values (devices (service s))) [] s)
    as (s' & E & C).
  eexists _, s'. split; [exact E|]. split; [exact C|].
  split; [reflexivity|].
  intros p Hin. cbn [app] in Hin.
  destruct (forecast_In _ _ _ Hin) as (d & now & Hd & L & ->).
  destruct (predicted_health now d L) as [Hs Ht].
  exists d. cbn. auto.
Qed.

(** The statement of X20 for a device that was not seen for long and
    whose only sensor is failing. *)
Lemma predictMaintenanceNeeds_forecast_witness :
  exists predictions s',
    predictMaintenanceNeeds Depot.worn_service = (Normal predictions, s')
    /\ map prediction_deviceId predictions = ["worn"]
    /\ (1 <=? timeToFailure
                (hd {| prediction_deviceId := ""; component := "";
                       probability := 0; timeToFailure := 0;
                       recommendedAction := "" |} predictions)) = true.
Proof.
  destruct (predictMaintenanceNeeds_forecast Depot.worn_service)
    as (predictions & s' & E & _ & F & H).
  exists predictions, s'. split; [exact E|].
  assert (Hin : In (hd {| prediction_deviceId := ""; component := "";
                          probability := 0; timeToFailure := 0;
                          recommendedAction := "" |} predictions)
                   predictions)
    by (rewrite F; vm_compute; left; reflexivity).
  split.
  - rewrite F. vm_compute. reflexivity.
  - destruct (H _ Hin) as (d & _ & _ & _ & _ & T). exact T.
Defined.
